(** * MultipleDisplay: the linked multi-panel display of scikit-fda

    A shallow embedding of
    [skfda/exploratory/visualization/_multiple_display.py]: the
    coordinator that links several plots of the same samples, keeps one
    highlighted sample across all of them, and binds slider widgets to
    orderings of the samples.

    Python objects are modelled as follows.
    - Sample indices, slider steps and [index_clicked] are [Z] (Python
      [int]; [-1] is the "no selection" value of [index_clicked]).
    - Criterion values are [Z]: only their equality (as dictionary keys)
      and their order (in [sorted]) are used by the code.
    - Raw slider values and opacities are [Q]; the only arithmetic done
      on them (scaling by two, truncation) is exact on binary floats.
    - A [dict] is a [gmap]; lists are [list] with stdpp's lookup and
      insert; attributes that may be missing are [option].
    - Methods run in a state-and-exception monad over the coordinator
      state: an exception keeps the mutations done before it. *)

From Stdlib Require Import ZArith QArith Lia.
From stdpp Require Import base option list sorting gmap strings pretty.

Local Open Scope Z_scope.

(** ** Python primitives *)

(** [int(x)] on a float: truncation toward zero. *)
Definition py_int (x : Q) : Z := Z.quot (Qnum x) (Z.pos (Qden x)).

(** Position addressed by the index [i] in a sequence of length [n]:
    negative indices count from the end; [None] is [IndexError]. *)
Definition py_position (n : nat) (i : Z) : option nat :=
  if decide (0 ≤ i < Z.of_nat n) then Some (Z.to_nat i)
  else if decide (- Z.of_nat n ≤ i < 0) then Some (Z.to_nat (Z.of_nat n + i))
  else None.

(** [l[i]] on a list. *)
Definition py_getitem {A} (l : list A) (i : Z) : option A :=
  p ← py_position (length l) i; l !! p.

(** [l.index(x)]: position of the first element equal to [x]; [None] is
    [ValueError]. *)
Definition py_list_index (l : list Z) (x : Z) : option Z :=
  (λ p, Z.of_nat p.1) <$> list_find (λ y, y = x) l.

(** [range(n)] *)
Definition py_range (n : nat) : list Z := Z.of_nat <$> seq 0 n.

(** [dict(pairs)]: pairs are inserted from left to right, a later pair
    with a key already present overwrites its value. *)
Definition py_dict (kvs : list (Z * Z)) : gmap Z Z :=
  foldl (λ m kv, <[kv.1 := kv.2]> m) ∅ kvs.

(** Order of tuples [(key, value)]: lexicographic. *)
Definition item_le (x y : Z * Z) : Prop :=
  x.1 < y.1 ∨ (x.1 = y.1 ∧ x.2 ≤ y.2).

#[global] Instance item_le_dec : RelDecision item_le.
Proof. intros x y. unfold item_le. apply _. Defined.

(** [sorted(d.items())]. The items of a dictionary have pairwise
    different keys, so the result does not depend on the order in which
    [items()] enumerates them (lemma [py_sorted_unique] below). *)
Definition py_sorted_items (d : gmap Z Z) : list (Z * Z) :=
  merge_sort item_le (map_to_list d).

(** ** Slider order (add_slider, lines 514-516)

    [dic = dict(zip(criterion, range(self.length_data)))]
    [order_dic = collections.OrderedDict(sorted(dic.items()))]
    [self.criteria.append(order_dic.values())] *)
Definition slider_order (criterion : list Z) (length_data : nat) : list Z :=
  let dic := py_dict (zip criterion (py_range length_data)) in
  let order_dic := py_sorted_items dic in
  order_dic.*2.

(** ** Slider discretization (value_updated, line 531)

    [index = int(int(value / 0.5) * 0.5)]

    The code computes on floats, the embedding on rationals. Both
    agree where [value / 0.5] is a finite float, that is for
    [|value| < 2^1023] (beyond it [int] raises [OverflowError], or
    [ValueError] on NaN), and for an integer argument where the
    conversion to float is exact, [|value| <= 2^53]. *)
Definition discretize (value : Q) : Z :=
  py_int (inject_Z (py_int (value / (1 # 2))) * (1 # 2))%Q.

(** ** Data model *)

(** Exceptions raised by the modelled code. *)
Inductive exn := ValueError | IndexError | AttributeError.

(** A matplotlib artist (a plotted point). Python compares artists by
    identity, modelled by [art_id]; [art_axes] is the axes the artist
    is drawn in ([artist.axes]), [art_path] tells whether it is a
    [PathCollection] and [art_offset] is [get_offsets()[0]]. The opacity
    of an artist is mutable and lives in the store [alphas] of the
    state. *)
Record artist := Artist {
  art_id : nat;
  art_axes : nat;
  art_path : bool;
  art_offset : Q * Q
}.

Definition same_artist (a b : artist) : bool := bool_decide (art_id a = art_id b).

(** A BasePlot: its axes, its number of samples ([n_samples()]) and the
    grid [artists[sample][sub_axis]]. *)
Record display := Display {
  d_axes : list nat;
  d_n_samples : nat;
  d_artists : list (list artist)
}.

(** Text shown by a slider: the widget's own rendering of a value
    (written by [set_val]) or a literal string ([valtext.set_text]). *)
Inductive text := Formatted (v : Q) | Literal (s : string).

(** A slider widget as built by [widget_func(ax, label, valmin=0,
    valmax=length_data - 1, valinit=0)]. *)
Record slider := Slider {
  s_ax : nat;
  s_label : string;
  s_valmin : Z;
  s_valmax : Z;
  s_val : Q;
  s_valtext : text
}.

(** Rendering side effects, in the order they happen. *)
Inductive effect :=
| FigureCreated
| LayoutSet (n_axes : nat)
| AxesHidden (ax : nat)
| BoxAspectSet (ax : nat)
| WidgetBuilt (ax : nat)
| AxesAnnotated (ax : nat) (s : string)
| AxesCleared (ax : nat)
| DrawIdle.

(** The hover annotation ([self._tag]): visibility, the axes it is
    attached to, the sample it describes and the data position. *)
Record annotation := Annotation {
  tag_visible : bool;
  tag_axes : option nat;
  tag_sample : Z;
  tag_xy : Q * Q
}.

(** The attributes of a MultipleDisplay object. [widget_index] is
    [None] while the attribute has not been assigned. *)
Record state := State {
  displays : list display;
  alphas : gmap nat Q;
  point_clicked : option artist;
  _n_graphs : nat;
  length_data : nat;
  sliders : list slider;
  criteria : list (list Z);
  clicked : bool;
  index_clicked : Z;
  is_updating : bool;
  widget_index : option Z;
  axes : list nat;
  _tag : annotation;
  effects : list effect
}.

Definition set_displays (v : list display) (s : state) : state :=
  State v (alphas s) (point_clicked s) (_n_graphs s) (length_data s) (sliders s)
        (criteria s) (clicked s) (index_clicked s) (is_updating s) (widget_index s)
        (axes s) (_tag s) (effects s).
Definition set_alphas (v : gmap nat Q) (s : state) : state :=
  State (displays s) v (point_clicked s) (_n_graphs s) (length_data s) (sliders s)
        (criteria s) (clicked s) (index_clicked s) (is_updating s) (widget_index s)
        (axes s) (_tag s) (effects s).
Definition set_point_clicked (v : option artist) (s : state) : state :=
  State (displays s) (alphas s) v (_n_graphs s) (length_data s) (sliders s)
        (criteria s) (clicked s) (index_clicked s) (is_updating s) (widget_index s)
        (axes s) (_tag s) (effects s).
Definition set_sliders (v : list slider) (s : state) : state :=
  State (displays s) (alphas s) (point_clicked s) (_n_graphs s) (length_data s) v
        (criteria s) (clicked s) (index_clicked s) (is_updating s) (widget_index s)
        (axes s) (_tag s) (effects s).
Definition set_criteria (v : list (list Z)) (s : state) : state :=
  State (displays s) (alphas s) (point_clicked s) (_n_graphs s) (length_data s) (sliders s)
        v (clicked s) (index_clicked s) (is_updating s) (widget_index s)
        (axes s) (_tag s) (effects s).
Definition set_clicked (v : bool) (s : state) : state :=
  State (displays s) (alphas s) (point_clicked s) (_n_graphs s) (length_data s) (sliders s)
        (criteria s) v (index_clicked s) (is_updating s) (widget_index s)
        (axes s) (_tag s) (effects s).
Definition set_index_clicked (v : Z) (s : state) : state :=
  State (displays s) (alphas s) (point_clicked s) (_n_graphs s) (length_data s) (sliders s)
        (criteria s) (clicked s) v (is_updating s) (widget_index s)
        (axes s) (_tag s) (effects s).
Definition set_is_updating (v : bool) (s : state) : state :=
  State (displays s) (alphas s) (point_clicked s) (_n_graphs s) (length_data s) (sliders s)
        (criteria s) (clicked s) (index_clicked s) v (widget_index s)
        (axes s) (_tag s) (effects s).
Definition set_widget_index (v : option Z) (s : state) : state :=
  State (displays s) (alphas s) (point_clicked s) (_n_graphs s) (length_data s) (sliders s)
        (criteria s) (clicked s) (index_clicked s) (is_updating s) v
        (axes s) (_tag s) (effects s).
Definition set_axes (v : list nat) (s : state) : state :=
  State (displays s) (alphas s) (point_clicked s) (_n_graphs s) (length_data s) (sliders s)
        (criteria s) (clicked s) (index_clicked s) (is_updating s) (widget_index s)
        v (_tag s) (effects s).
Definition set_tag (v : annotation) (s : state) : state :=
  State (displays s) (alphas s) (point_clicked s) (_n_graphs s) (length_data s) (sliders s)
        (criteria s) (clicked s) (index_clicked s) (is_updating s) (widget_index s)
        (axes s) v (effects s).
Definition log_effect (e : effect) (s : state) : state :=
  State (displays s) (alphas s) (point_clicked s) (_n_graphs s) (length_data s) (sliders s)
        (criteria s) (clicked s) (index_clicked s) (is_updating s) (widget_index s)
        (axes s) (_tag s) (effects s ++ [e]).

(** ** The method monad: state passing with exceptions

    [Ok a s]: the call returned [a] in state [s]. [Raise e s]: it raised
    [e]; [s] holds the mutations made before the exception. [OutOfFuel]
    only bounds the nesting of slider callbacks in the model. *)
Inductive outcome (A : Type) :=
| Ok (a : A) (s : state)
| Raise (e : exn) (s : state)
| OutOfFuel.
Arguments Ok {A} a s.
Arguments Raise {A} e s.
Arguments OutOfFuel {A}.

Definition M (A : Type) : Type := state → outcome A.

Definition ret {A} (a : A) : M A := λ s, Ok a s.
Definition bind {A B} (c : M A) (k : A → M B) : M B :=
  λ s, match c s with
       | Ok a s' => k a s'
       | Raise e s' => Raise e s'
       | OutOfFuel => OutOfFuel
       end.
Definition raise {A} (e : exn) : M A := λ s, Raise e s.
Definition gets {A} (f : state → A) : M A := λ s, Ok (f s) s.
Definition modify (f : state → state) : M unit := λ s, Ok tt (f s).
Definition lift_option {A} (e : exn) (o : option A) : M A :=
  match o with Some a => ret a | None => raise e end.

Notation "'let*' x ':=' c 'in' k" := (bind c (λ x, k))
  (at level 10, x pattern, c at level 100, k at level 200).
Notation "c1 '>>' c2" := (bind c1 (λ _, c2))
  (at level 100, c2 at level 200, right associativity).

(** [for x in l: body(x)] *)
Fixpoint for_each {A} (l : list A) (body : A → M unit) : M unit :=
  match l with
  | [] => ret tt
  | x :: l' => body x >> for_each l' body
  end.

(** The state a handler leaves behind, whether it returned or raised. *)
Definition state_after {A} (o : outcome A) : option state :=
  match o with
  | Ok _ s => Some s
  | Raise _ s => Some s
  | OutOfFuel => None
  end.

(** ** Highlighting (lines 374-469)

    The methods that push a value to a slider are parameterised by
    [on_changed], the observer that [plot()] registers on every slider
    ([slider.on_changed(self.value_updated)]). *)

(** [artist.set_alpha(v)] *)
Definition set_alpha (a : artist) (v : Q) : M unit :=
  modify (λ s, set_alphas (<[art_id a := v]> (alphas s)) s).

(** [Slider.set_val(val)] of matplotlib: shows and stores the value,
    then notifies the observers. *)
Definition set_val (on_changed : Q → M unit) (j : nat) (val : Q) : M unit :=
  modify (λ s, set_sliders
    (alter (λ w, Slider (s_ax w) (s_label w) (s_valmin w) (s_valmax w) val (Formatted val))
           j (sliders s)) s) >>
  on_changed val.

(** [for artist in np.ravel(d.artists[i]): artist.set_alpha(v)] *)
Definition set_row_alpha (d : display) (i : Z) (v : Q) : M unit :=
  let* row := lift_option IndexError (py_getitem (d_artists d) i) in
  for_each row (λ artist, set_alpha artist v).

(** Lines 397-401 and 451-455 (the same five lines in both methods):
    [self.is_updating = True]
    [for criterium, slider in zip(self.criteria, self.sliders):]
    [    val_widget = list(criterium).index(self.index_clicked)]
    [    slider.set_val(val_widget)]
    [self.is_updating = False] *)
Definition push_selection (on_changed : Q → M unit) : M unit :=
  modify (set_is_updating true) >>
  let* cs := gets criteria in
  let* ss := gets sliders in
  for_each (zip cs (seq 0 (length ss))) (λ cj,
    let* ic := gets index_clicked in
    let* val_widget := lift_option ValueError (py_list_index cj.1 ic) in
    set_val on_changed cj.2 (inject_Z val_widget)) >>
  modify (set_is_updating false).

(** [update_index_display_picked]: the first display and sub-axis whose
    axes is the axes of the clicked artist. *)
Fixpoint find_axes (ax : nat) (ds : list display) : option (display * nat) :=
  match ds with
  | [] => None
  | d :: ds' =>
      match list_find (λ a, a = ax) (d_axes d) with
      | Some (i, _) => Some (d, i)
      | None => find_axes ax ds'
      end
  end.

(** [np.where(grid == artist)[0][0]]: the first row holding the artist. *)
Definition np_where_grid (grid : list (list artist)) (a : artist) : option Z :=
  (λ p, Z.of_nat p.1) <$> list_find (λ row, existsb (same_artist a) row = true) grid.

(** [np.where(grid[:, i] == artist)[0][0]]; a missing column is an
    [IndexError] as well. *)
Definition np_where_column (grid : list (list artist)) (i : nat) (a : artist) : option Z :=
  col ← mapM (λ row : list artist, row !! i) grid;
  (λ p, Z.of_nat p.1) <$> list_find (λ b, same_artist b a = true) col.

Definition update_index_display_picked : M unit :=
  let* ds := gets displays in
  let* pc := gets point_clicked in
  match pc with
  | None =>
      (* [self.point_clicked.axes] is evaluated once a display has an axes *)
      if forallb (λ d, bool_decide (d_axes d = [])) ds then ret tt
      else raise AttributeError
  | Some p =>
      match find_axes (art_axes p) ds with
      | None => ret tt
      | Some (d, i) =>
          let* r := lift_option IndexError
            (if decide (length (d_axes d) = 1%nat) then np_where_grid (d_artists d) p
             else np_where_column (d_artists d) i p) in
          modify (set_index_clicked r)
      end
  end.

Definition reduce_points_intensity (on_changed : Q → M unit) : M unit :=
  let* n := gets length_data in
  for_each (py_range n) (λ i,
    let* ic := gets index_clicked in
    if decide (i ≠ ic) then
      let* ds := gets displays in
      for_each ds (λ d, set_row_alpha d i (1 # 10)%Q)
    else ret tt) >>
  push_selection on_changed.

Definition restore_points_intensity (on_changed : Q → M unit) : M unit :=
  let* n := gets length_data in
  for_each (py_range n) (λ i,
    let* ds := gets displays in
    for_each ds (λ d, set_row_alpha d i 1%Q)) >>
  modify (set_point_clicked None) >>
  modify (set_index_clicked (-1)) >>
  modify (set_is_updating true) >>
  let* ss := gets sliders in
  for_each (seq 0 (length ss)) (λ j, set_val on_changed j 0%Q) >>
  modify (set_is_updating false).

Definition change_display_intensity (index : Z) (intensity : Q) : M unit :=
  let* ds := gets displays in
  for_each ds (λ d,
    if decide (length (d_artists d) ≠ 0%nat) then set_row_alpha d index intensity
    else ret tt).

Definition change_points_intensity (on_changed : Q → M unit) (old_index : option Z) : M unit :=
  let* old_index :=
    match old_index with
    | None =>
        let* o := gets index_clicked in
        update_index_display_picked >> ret o
    | Some o => ret o
    end in
  let* ic := gets index_clicked in
  if decide (ic = old_index) then restore_points_intensity on_changed
  else
    let* n := gets length_data in
    for_each (py_range n) (λ i,
      let* ic := gets index_clicked in
      let intensity : Q :=
        if decide (i = ic) then 1%Q
        else if decide (i = old_index) then (1 # 10)%Q
        else (-1)%Q in
      if Qeq_bool intensity (-1) then ret tt
      else change_display_intensity i intensity) >>
    push_selection on_changed.

(** ** Slider callback (lines 518-550)

    [value_updated] is the observer of every slider, and it calls
    [set_val] itself: the recursion is bounded by [fuel], which is only
    consumed by a call that passes the [is_updating] test. *)
Fixpoint value_updated (fuel : nat) (value : Q) : M unit :=
  let* updating := gets is_updating in
  if updating then ret tt
  else
    match fuel with
    | O => λ _, OutOfFuel
    | S fuel' =>
        let on_changed := value_updated fuel' in
        modify (set_is_updating true) >>
        let index := discretize value in
        let* old_index := gets index_clicked in
        let* cs := gets criteria in
        let* w := (let* wi := gets widget_index in lift_option AttributeError wi) in
        let* c := lift_option IndexError (py_getitem cs w) in
        let* new_index := lift_option IndexError (py_getitem c index) in
        modify (set_index_clicked new_index) >>
        let* ss := gets sliders in
        let* p := lift_option IndexError (py_position (length ss) w) in
        modify (λ s, set_sliders
          (alter (λ x, Slider (s_ax x) (s_label x) (s_valmin x) (s_valmax x) (s_val x)
                              (Literal (pretty index))) p (sliders s)) s) >>
        let* cs := gets criteria in
        let* ss := gets sliders in
        for_each (zip (seq 0 (length ss)) cs) (λ ic,
          if decide (Z.of_nat ic.1 ≠ w) then
            let* sel := gets index_clicked in
            let* val_widget := lift_option ValueError (py_list_index ic.2 sel) in
            set_val on_changed ic.1 (inject_Z val_widget)
          else ret tt) >>
        modify (set_is_updating false) >>
        modify (set_clicked true) >>
        if decide (old_index = -1) then reduce_points_intensity on_changed
        else
          (let* sel := gets index_clicked in
           if decide (sel = old_index) then modify (set_clicked false) else ret tt) >>
          change_points_intensity on_changed (Some old_index)
    end.

(** ** Pointer events (lines 293-372) *)

Record pick_event := PickEvent { pick_artist : artist }.

Definition pick (fuel : nat) (event : pick_event) : M unit :=
  let on_changed := value_updated fuel in
  let* c := gets clicked in
  if c then
    modify (set_point_clicked (Some (pick_artist event))) >>
    change_points_intensity on_changed None >>
    modify (set_clicked false)
  else
    let* pc := gets point_clicked in
    match pc with
    | None =>
        modify (set_point_clicked (Some (pick_artist event))) >>
        update_index_display_picked >>
        reduce_points_intensity on_changed
    | Some p =>
        if same_artist p (pick_artist event) then restore_points_intensity on_changed
        else
          modify (set_point_clicked (Some (pick_artist event))) >>
          change_points_intensity on_changed None
    end.

(** A pointer-move event: the axes under the pointer and, for every
    artist, whether it contains the pointer ([artist.contains(event)[0]]). *)
Record mouse_event := MouseEvent {
  ev_inaxes : option nat;
  ev_contains : artist → bool
}.

(** Scan of one column of artists: [Some None] is [return None],
    [Some (Some _)] is [return j, artist], [None] is the end of the
    loop. *)
Fixpoint scan_column (event : mouse_event) (j : nat) (col : list artist)
  : option (option (Z * artist)) :=
  match col with
  | [] => None
  | a :: col' =>
      if negb (art_path a) then Some None
      else if ev_contains event a then Some (Some (Z.of_nat j, a))
      else scan_column event (S j) col'
  end.

Fixpoint sample_artist_in (event : mouse_event) (ds : list display)
  : M (option (Z * artist)) :=
  match ds with
  | [] => ret None
  | d :: ds' =>
      match ev_inaxes event ≫= (λ ax, list_find (λ a, a = ax) (d_axes d)) with
      | None => sample_artist_in event ds'
      | Some (i, _) =>
          let* col := lift_option IndexError (mapM (λ row : list artist, row !! i) (d_artists d)) in
          match scan_column event 0 col with
          | Some r => ret r
          | None => sample_artist_in event ds'
          end
      end
  end.

Definition _sample_artist_from_event (event : mouse_event) : M (option (Z * artist)) :=
  let* ds := gets displays in sample_artist_in event ds.

(** [_update_annotation] moves the annotation to the hovered point. The
    label offset, computed from the axis limits, is not part of the
    model. *)
Definition _update_annotation (ax : nat) (sample_number : Z) (position : Q * Q) : M unit :=
  modify (λ s, set_tag (Annotation (tag_visible (_tag s)) (Some ax) sample_number position) s).

Definition tag_set_visible (b : bool) : M unit :=
  modify (λ s, set_tag (Annotation b (tag_axes (_tag s)) (tag_sample (_tag s)) (tag_xy (_tag s))) s).

Definition hover (event : mouse_event) : M unit :=
  let* found_artist := _sample_artist_from_event event in
  let* n := gets _n_graphs in
  let* axs := gets axes in
  for_each (seq n (length axs - n)) (λ k,
    let* axs := gets axes in
    let* ax := lift_option IndexError (axs !! k) in
    if decide (ev_inaxes event = Some ax)
    then modify (set_widget_index (Some (Z.of_nat k - Z.of_nat n)))
    else ret tt) >>
  match ev_inaxes event, found_artist with
  | Some ax, Some (sample_number, artist) =>
      _update_annotation ax sample_number (art_offset artist) >>
      tag_set_visible true >>
      modify (log_effect DrawIdle)
  | _, _ =>
      let* t := gets _tag in
      if tag_visible t then tag_set_visible false >> modify (log_effect DrawIdle)
      else ret tt
  end.

(** ** Construction (lines 54-184, 471-516) *)

(** A widget class passed in [sliders]. *)
Inductive widget_class := SliderWidget.

(** The argument [criteria]: one criterion or a sequence of criteria. *)
Inductive criteria_arg := Criterion (c : list Z) | Criteria (cs : list (list Z)).
(** The argument [sliders]: one widget class or a sequence of them. *)
Inductive sliders_arg := Widget (w : widget_class) | Widgets (ws : list widget_class).
(** The argument [label_sliders]. *)
Inductive labels_arg := NoLabel | Label (l : string) | Labels (ls : list string).

(** Lines 78-79: a criterion given alone is wrapped, unless it is empty. *)
Definition normalize_criteria (a : criteria_arg) : list (list Z) :=
  match a with
  | Criterion [] => []
  | Criterion c => [c]
  | Criteria cs => cs
  end.
Definition normalize_sliders (a : sliders_arg) : list widget_class :=
  match a with Widget w => [w] | Widgets ws => ws end.
Definition normalize_labels (a : labels_arg) : option (list string) :=
  match a with NoLabel => None | Label l => Some [l] | Labels ls => Some ls end.

(** Modelled from the spec: [_get_figure_and_axes] of [_utils] is not
    part of the sources. An existing drawing surface is used with the
    axes it has; without one a new figure, with no axes yet, is made
    (the docstring of [_init_axes]: "If None and ax is also None, the
    figure is initialized"). *)
Definition _get_figure_and_axes (axes_arg : option (list nat)) : M (list nat) :=
  match axes_arg with
  | None => modify (log_effect FigureCreated) >> ret []
  | Some axs => ret axs
  end.

(** Modelled from the spec: [_get_axes_shape] of [_utils] is not part of
    the sources. A near-square split of [n] cells into rows and
    columns. *)
Definition _get_axes_shape (n : nat) : nat * nat :=
  let n_cols := Nat.sqrt_up n in
  (Nat.div (n + n_cols - 1) n_cols, n_cols).

(** Modelled from the spec: [_set_figure_layout] of [_utils] is not part
    of the sources. A surface without axes gets a grid of cells that
    fits [n_axes]; existing axes are returned as they are. *)
Definition _set_figure_layout (axs : list nat) (n_axes : nat) : M (list nat) :=
  match axs with
  | [] =>
      let shape := _get_axes_shape n_axes in
      modify (log_effect (LayoutSet n_axes)) >> ret (seq 0 (shape.1 * shape.2))
  | _ => ret axs
  end.

Definition _init_axes (axes_arg : option (list nat)) (extra : nat) : M unit :=
  let* axs := _get_figure_and_axes axes_arg in
  let* n := gets _n_graphs in
  if negb (bool_decide (length axs = 0%nat) || bool_decide (length axs = (n + extra)%nat))
  then raise ValueError
  else
    let shape := _get_axes_shape (n + extra) in
    let number_axes := (shape.1 * shape.2)%nat in
    let* axs := _set_figure_layout axs (n + extra) in
    for_each (seq n (number_axes - n)) (λ i,
      let* ax := lift_option IndexError (axs !! i) in
      if decide (n + extra ≤ i)%nat then modify (log_effect (AxesHidden ax))
      else modify (log_effect (BoxAspectSet ax))) >>
    modify (set_axes axs).

Definition add_slider (ind_ax : nat) (criterion : list Z) (widget_func : widget_class)
    (label_slider : option string) : M unit :=
  let full_desc :=
    match label_slider with
    | None => "Filter (" +:+ pretty ind_ax +:+ ")"
    | Some l => l
    end in
  let* n := gets _n_graphs in
  let* axs := gets axes in
  let* ld := gets length_data in
  let* ax := lift_option IndexError (axs !! (n + ind_ax)%nat) in
  modify (log_effect (WidgetBuilt ax)) >>
  modify (λ s, set_sliders
    (sliders s ++ [Slider ax full_desc 0 (Z.of_nat ld - 1) 0 (Formatted 0)]) s) >>
  modify (log_effect (AxesAnnotated ax "0")) >>
  modify (log_effect (AxesAnnotated ax (pretty (Z.of_nat ld - 1)))) >>
  modify (λ s, set_criteria (criteria s ++ [slider_order criterion ld]) s).

Definition _create_sliders (cs : list (list Z)) (ws : list widget_class)
    (label_sliders : option (list string)) : M unit :=
  for_each cs (λ c,
    let* ld := gets length_data in
    if decide (length c ≠ ld) then raise ValueError else ret tt) >>
  for_each (zip (seq 0 (length cs)) cs) (λ kc,
    let* label :=
      match label_sliders with
      | None | Some [] => ret None
      | Some ls => let* l := lift_option IndexError (ls !! kc.1) in ret (Some l)
      end in
    let* w := lift_option IndexError (ws !! kc.1) in
    add_slider kc.1 kc.2 w label).

(** The object before [__init__] has assigned any attribute. *)
Definition blank : state :=
  State [] ∅ None 0 0 [] [] false (-1) false None [] (Annotation false None 0 (0, 0)%Q) [].

Record config := Config {
  cfg_displays : list display;
  cfg_criteria : criteria_arg;
  cfg_sliders : sliders_arg;
  cfg_label_sliders : labels_arg;
  cfg_axes : option (list nat)
}.

Definition __init__ (cfg : config) : M unit :=
  let ds := cfg_displays cfg in
  modify (set_displays ds) >>
  modify (set_point_clicked None) >>
  modify (λ s, State (displays s) (alphas s) (point_clicked s)
                     (sum_list (length ∘ d_axes <$> ds)) (length_data s) (sliders s)
                     (criteria s) (clicked s) (index_clicked s) (is_updating s)
                     (widget_index s) (axes s) (_tag s) (effects s)) >>
  let* d0 := lift_option IndexError (ds !! 0%nat) in
  modify (λ s, State (displays s) (alphas s) (point_clicked s) (_n_graphs s)
                     (d_n_samples d0) (sliders s) (criteria s) (clicked s)
                     (index_clicked s) (is_updating s) (widget_index s) (axes s)
                     (_tag s) (effects s)) >>
  modify (set_sliders []) >>
  modify (set_criteria []) >>
  modify (set_clicked false) >>
  modify (set_index_clicked (-1)) >>
  modify (set_tag (Annotation false None 0 (0, 0)%Q)) >>
  modify (set_is_updating false) >>
  let cs := normalize_criteria (cfg_criteria cfg) in
  let ws := normalize_sliders (cfg_sliders cfg) in
  let ls := normalize_labels (cfg_label_sliders cfg) in
  if decide (length cs ≠ length ws) then raise ValueError
  else
    _init_axes (cfg_axes cfg) (length cs) >>
    _create_sliders cs ws ls.

(** [MultipleDisplay(...)]: the outcome of [__init__] on a new object. *)
Definition construct (cfg : config) : outcome unit := __init__ cfg blank.

(** ** Events *)

(** The callbacks registered by [plot()] on the canvas and the
    sliders, as one dispatcher. *)
Inductive event :=
| Hover (e : mouse_event)
| Pick (e : pick_event)
| ValueChanged (value : Q).

Definition handle (fuel : nat) (e : event) : M unit :=
  match e with
  | Hover m => hover m
  | Pick p => pick fuel p
  | ValueChanged v => value_updated fuel v
  end.

(** The sample selected after a handler that returned. *)
Definition selected (o : outcome unit) : option Z :=
  match o with
  | Ok _ s => Some (index_clicked s)
  | _ => None
  end.

(** ** Predicates on states *)

(** Every display has one row of artists per sample. *)
Definition rows_complete (s : state) : bool :=
  forallb (λ d, bool_decide (length (d_artists d) = length_data s)) (displays s).

(** Sample [i] occurs in the order of every slider. *)
Definition in_every_order (s : state) (i : Z) : bool :=
  forallb (λ c, bool_decide (i ∈ c)) (criteria s).

(** The artists of sample [i], over all displays. *)
Definition sample_artists (s : state) (i : Z) : list artist :=
  d ← displays s; default [] (py_getitem (d_artists d) i).

(** All artists of the displays. *)
Definition all_artists (s : state) : list artist :=
  d ← displays s; mjoin (d_artists d).

(** No artist of sample [i] is an artist of sample [j]. *)
Definition rows_disjoint (s : state) (i j : Z) : bool :=
  forallb (λ a, negb (existsb (same_artist a) (sample_artists s j))) (sample_artists s i).

(** The opacity of an artist ([None]: never set). *)
Definition alpha_of (s : state) (a : artist) : option Q := alphas s !! art_id a.

(** Slider [j] stands at a position of its order that holds sample [i]. *)
Definition slider_shows (s : state) (j : nat) (i : Z) : Prop :=
  ∀ c w, criteria s !! j = Some c → sliders s !! j = Some w →
    ∃ p : Z, s_val w = inject_Z p ∧ py_getitem c p = Some i.

(** The neutral state: nothing selected, no click pending. *)
Definition neutral (s : state) : bool :=
  bool_decide (point_clicked s = None) && negb (clicked s) && bool_decide (index_clicked s = -1).

(** A slider-building effect. *)
Definition is_widget_built (e : effect) : bool :=
  match e with WidgetBuilt _ => true | _ => false end.

(** Artist [a] is (identical to) an artist of sample [i]. *)
Definition is_artist_of (s : state) (i : Z) (a : artist) : bool :=
  existsb (same_artist a) (sample_artists s i).

(** An observer that respects the [is_updating] guard. *)
Definition guarded (on_changed : Q → M unit) : Prop :=
  ∀ v s, is_updating s = true → on_changed v s = Ok tt s.

(** ** The effect of the highlighting methods, as functions

    Used to state what the methods compute when they return. *)

(** Opacity [v] on every artist of a row. *)
Definition paint_row (row : list artist) (v : Q) (m : gmap nat Q) : gmap nat Q :=
  foldl (λ m a, <[art_id a := v]> m) m row.

Definition sample_row (d : display) (i : Z) : list artist :=
  default [] (py_getitem (d_artists d) i).

Definition paint_sample (ds : list display) (i : Z) (v : Q) (m : gmap nat Q) : gmap nat Q :=
  foldl (λ m d, paint_row (sample_row d i) v m) m ds.

(** A loop over the samples [l] that gives sample [i] the opacity
    [plan i], if any. *)
Definition paint_plan (plan : Z → option Q) (ds : list display) (l : list Z)
    (m : gmap nat Q) : gmap nat Q :=
  foldl (λ m i, match plan i with
                | Some v => paint_row (d ← ds; sample_row d i) v m
                | None => m
                end) m l.

Definition restore_plan : Z → option Q := λ _, Some 1%Q.
Definition reduce_plan (ic : Z) : Z → option Q :=
  λ i, if decide (i ≠ ic) then Some (1 # 10)%Q else None.
Definition change_plan (ic old : Z) : Z → option Q :=
  λ i, if decide (i = ic) then Some 1%Q
       else if decide (i = old) then Some (1 # 10)%Q else None.

Definition painted (plan : Z → option Q) (s : state) : state :=
  set_alphas (paint_plan plan (displays s) (py_range (length_data s)) (alphas s)) s.

(** What [set_val] stores in a slider. *)
Definition put_val (v : Q) (w : slider) : slider :=
  Slider (s_ax w) (s_label w) (s_valmin w) (s_valmax w) v (Formatted v).

(** [list(c).index(i)] when [i] occurs in [c]. *)
Definition position_in (c : list Z) (i : Z) : Z := default 0 (py_list_index c i).

(** Every slider moved to the position of sample [i] in its order. *)
Definition push_all (i : Z) (cs : list (list Z)) (ss : list slider) : list slider :=
  foldl (λ ss cj, alter (put_val (inject_Z (position_in cj.1 i))) cj.2 ss) ss
        (zip cs (seq 0 (length ss))).

(** Every slider moved to position 0. *)
Definition reset_all (ss : list slider) : list slider :=
  foldl (λ ss j, alter (put_val 0%Q) j ss) ss (seq 0 (length ss)).

Definition pushed (s : state) : state :=
  set_is_updating false
    (set_sliders (push_all (index_clicked s) (criteria s) (sliders s)) s).

Definition restored (s : state) : state :=
  set_is_updating false
    (set_sliders (reset_all (sliders s))
      (set_index_clicked (-1) (set_point_clicked None (painted restore_plan s)))).

Definition reduced (s : state) : state := pushed (painted (reduce_plan (index_clicked s)) s).

Definition changed (old : Z) (s : state) : state :=
  pushed (painted (change_plan (index_clicked s) old) s).

(** ** Running handlers one after the other *)

(** The object built by [MultipleDisplay(...)], when [__init__] returns. *)
Definition built (cfg : config) : state := default blank (state_after (construct cfg)).

(** The state after a handler; the event loop goes on after a handler
    that raised, with the mutations it made. *)
Definition after (c : M unit) (s : state) : state := default s (state_after (c s)).

(** ** The scenario of the specification

    Three samples, one view with one axes, one criterion [5, 1, 9]. *)
Definition scenario_artist (i : nat) : artist := Artist i 0 true (0, 0)%Q.

Definition scenario_display : display :=
  Display [0%nat] 3 [[scenario_artist 0]; [scenario_artist 1]; [scenario_artist 2]].

Definition scenario_config : config :=
  Config [scenario_display] (Criterion [5; 1; 9]) (Widget SliderWidget) NoLabel None.

(** The pointer moves over the axes of the slider (axes 1). *)
Definition over_slider : mouse_event := MouseEvent (Some 1%nat) (λ _, false).

(** The scenario after the pointer has moved over the slider. *)
Definition scenario_hovered : state := after (hover over_slider) (built scenario_config).

(** The scenario after the slider has then been moved to step 0. *)
Definition scenario_selected : state := after (value_updated 1 0) scenario_hovered.

(** ** Frame conditions *)

(** Every state a computation can leave behind, by returning or by
    raising, is related to the state it started in. *)
Definition keeps {A} (R : relation state) (c : M A) : Prop :=
  ∀ s s', state_after (c s) = Some s' → R s s'.

(** The attribute [f] has the same value in both states. *)
Definition unchanged {B} (f : state → B) : relation state := λ s s', f s' = f s.

(** ** Construction: what is checked, and when *)

(** The total number of axes of the displays ([self._n_graphs]). *)
Definition n_view_axes (cfg : config) : nat :=
  sum_list (length ∘ d_axes <$> cfg_displays cfg).

(** The attributes as [__init__] has set them when it reaches the test
    of line 89; [d0] is the first display. *)
Definition init_state (cfg : config) (d0 : display) : state :=
  State (cfg_displays cfg) ∅ None (n_view_axes cfg) (d_n_samples d0) [] [] false (-1)
        false None [] (Annotation false None 0 (0, 0)%Q) [].

(** The slider-building effects in the log of a state. *)
Definition widgets_built (s : state) : list effect :=
  List.filter is_widget_built (effects s).

(** The computation never raises [e]. *)
Definition never_raises {A} (e : exn) (c : M A) : Prop :=
  ∀ s s', c s ≠ Raise e s'.

(** ** The sliders built by construction *)

(** The slider that [add_slider] builds for the criterion number [k],
    with the default label. *)
Definition new_slider (s : state) (k : nat) : slider :=
  Slider (default 0%nat (axes s !! (_n_graphs s + k)%nat))
         ("Filter (" +:+ pretty k +:+ ")")
         0 (Z.of_nat (length_data s) - 1) 0 (Formatted 0).

(** ** Where an artist is drawn *)

(** [a] is the artist of sample [i] on some sub-axis of a display: the
    first display that has the axes of [a]; the grid of that display
    has one artist per sample and sub-axis, all of them different
    objects. *)
Definition drawn_at (s : state) (a : artist) (i : nat) : Prop :=
  ∃ ds_pre d ds_post (j : nat) row,
    displays s = ds_pre ++ d :: ds_post ∧
    (∀ d', d' ∈ ds_pre → art_axes a ∉ d_axes d') ∧
    NoDup (d_axes d) ∧ d_axes d !! j = Some (art_axes a) ∧
    Forall (λ r, length r = length (d_axes d)) (d_artists d) ∧
    NoDup (art_id <$> mjoin (d_artists d)) ∧
    d_artists d !! i = Some row ∧ row !! j = Some a.

(** ** Handlers that come back *)

(** From a state in [P] the computation returns in a state in [Q], or
    it raises: it does not exhaust the bound on nested callbacks. *)
Definition comes_back {A} (P : state → Prop) (c : M A) (Q : state → Prop) : Prop :=
  ∀ s, P s → match c s with
             | Ok _ s' => Q s'
             | Raise _ _ => True
             | OutOfFuel => False
             end.

(** The guard is closed, open, or either. *)
Definition closed : state → Prop := λ s, is_updating s = true.
Definition opened : state → Prop := λ s, is_updating s = false.
Definition any : state → Prop := λ _, True.

(** ** What the handlers leave alone *)

(** The part of a slider that [set_val] and [valtext.set_text] do not
    touch: its axes, label and range. *)
Definition slider_frame (w : slider) : nat * string * Z * Z :=
  (s_ax w, s_label w, s_valmin w, s_valmax w).

(** What construction sets up and the selection handlers work on: the
    displays, the orders, the axes, the sizes, the sliders up to their
    value; with it the attributes that only [hover] assigns. *)
Definition scene (s : state) :=
  (displays s, criteria s, axes s, length_data s, _n_graphs s,
   slider_frame <$> sliders s, widget_index s, _tag s, effects s).

(** What the selection handlers work with, that [hover] leaves alone. *)
Definition selection (s : state) :=
  (displays s, alphas s, point_clicked s, index_clicked s, clicked s, is_updating s,
   sliders s, criteria s, axes s, length_data s, _n_graphs s).

(** ** Raw slider values *)

(** The raw values on which the float arithmetic of line 531 is exact,
    whether they arrive as floats or as integers: of magnitude below
    [2^53]. Every value a slider delivers lies far inside. *)
Definition float_exact (value : Q) : Prop :=
  (- inject_Z (2 ^ 53) < value)%Q ∧ (value < inject_Z (2 ^ 53))%Q.

(** ** A criterion with equal values

    Three samples, one view with one axes, one criterion [1, 1, 2]: the
    samples 0 and 1 have the same criterion value. *)
Definition tie_config : config :=
  Config [scenario_display] (Criterion [1; 1; 2]) (Widget SliderWidget) NoLabel None.

(** The coordinator of [tie_config] after the point of sample 1 has
    been picked. *)
Definition tie_picked : state :=
  after (pick 0 (PickEvent (scenario_artist 1))) (built tie_config).

(** * Properties *)

(** ** The monad and its loops *)

Lemma bind_Ok {A B} (c : M A) (k : A → M B) s a s' :
  c s = Ok a s' → bind c k s = k a s'.
Proof. intros H. unfold bind. rewrite H. reflexivity. Qed.

Lemma bind_Raise {A B} (c : M A) (k : A → M B) s e s' :
  c s = Raise e s' → bind c k s = Raise e s'.
Proof. intros H. unfold bind. rewrite H. reflexivity. Qed.

Lemma for_each_pure {A} (P : state → Prop) (f : A → state → state) (l : list A) body :
  (∀ x s, x ∈ l → P s → body x s = Ok tt (f x s) ∧ P (f x s)) →
  ∀ s, P s → for_each l body s = Ok tt (foldl (λ s x, f x s) s l) ∧ P (foldl (λ s x, f x s) s l).
Proof.
  induction l as [|x l IH]; intros Hb s Hs; simpl.
  - split; [reflexivity | assumption].
  - destruct (Hb x s) as [Hx HP]; [left | assumption |].
    rewrite (bind_Ok _ _ _ _ _ Hx).
    apply IH; [|assumption].
    intros y s' Hy. apply Hb. right. assumption.
Qed.

Lemma foldl_set_alphas {A} (g : A → gmap nat Q → gmap nat Q) (l : list A) s :
  foldl (λ s x, set_alphas (g x (alphas s)) s) s l
  = set_alphas (foldl (λ m x, g x m) (alphas s) l) s.
Proof.
  revert s. induction l as [|x l IH]; intros s; simpl.
  - destruct s; reflexivity.
  - rewrite IH. reflexivity.
Qed.

Lemma foldl_set_sliders {A} (g : A → list slider → list slider) (l : list A) s :
  foldl (λ s x, set_sliders (g x (sliders s)) s) s l
  = set_sliders (foldl (λ m x, g x m) (sliders s) l) s.
Proof.
  revert s. induction l as [|x l IH]; intros s; simpl.
  - destruct s; reflexivity.
  - rewrite IH. reflexivity.
Qed.

Lemma paint_row_lookup row v m k :
  paint_row row v m !! k
  = if bool_decide (k ∈ art_id <$> row) then Some v else m !! k.
Proof.
  unfold paint_row. revert m. induction row as [|a row IH]; intros m.
  - case_bool_decide as Hk; [|reflexivity]. apply elem_of_nil in Hk. contradiction.
  - cbn [foldl]. rewrite IH. rewrite fmap_cons.
    repeat case_bool_decide; try reflexivity.
    + exfalso. match goal with H : ¬ _ |- _ => apply H end. right. assumption.
    + match goal with H : _ ∈ _ :: _ |- _ => apply elem_of_cons in H as [->|?] end;
        [apply lookup_insert_eq | contradiction].
    + apply lookup_insert_ne. intros <-.
      match goal with H : ¬ _ ∈ _ :: _ |- _ => apply H end. left.
Qed.

Lemma paint_row_app r1 r2 v m : paint_row (r1 ++ r2) v m = paint_row r2 v (paint_row r1 v m).
Proof. unfold paint_row. apply foldl_app. Qed.

Lemma paint_sample_rows ds i v m :
  paint_sample ds i v m = paint_row (d ← ds; sample_row d i) v m.
Proof.
  unfold paint_sample. revert m. induction ds as [|d ds IH]; intros m; simpl.
  - reflexivity.
  - rewrite IH, paint_row_app. reflexivity.
Qed.

Lemma set_alpha_row_pure d i v s row :
  py_getitem (d_artists d) i = Some row →
  set_row_alpha d i v s = Ok tt (set_alphas (paint_row row v (alphas s)) s).
Proof.
  intros H. unfold set_row_alpha. rewrite H. simpl.
  unfold bind at 1, ret at 1.
  destruct (for_each_pure (λ _, True) (λ a s, set_alphas (<[art_id a := v]> (alphas s)) s)
              row (λ artist, set_alpha artist v)) with (s := s) as [-> _].
  - intros x s0 _ _. split; [reflexivity | exact I].
  - exact I.
  - rewrite (foldl_set_alphas (λ a m, <[art_id a := v]> m)). reflexivity.
Qed.

Lemma forallb_elem_of {A} (f : A → bool) (l : list A) x :
  forallb f l = true → x ∈ l → f x = true.
Proof. rewrite forallb_forall. intros H Hx. apply H, list_elem_of_In, Hx. Qed.

Lemma rows_complete_row s d i :
  rows_complete s = true → d ∈ displays s → i ∈ py_range (length_data s) →
  ∃ row, py_getitem (d_artists d) i = Some row.
Proof.
  unfold rows_complete. intros Hall Hd Hi.
  apply (forallb_elem_of _ _ d) in Hall; [|assumption]. apply bool_decide_eq_true in Hall.
  unfold py_range in Hi. apply list_elem_of_fmap in Hi as (k & -> & Hk).
  apply elem_of_seq in Hk.
  destruct (lookup_lt_is_Some_2 (d_artists d) k) as [row Hrow]; [lia|].
  exists row. unfold py_getitem, py_position.
  rewrite decide_True by lia. simpl. rewrite Nat2Z.id. exact Hrow.
Qed.

Lemma paint_displays ds i v s :
  (∀ d, d ∈ ds → is_Some (py_getitem (d_artists d) i)) →
  for_each ds (λ d, set_row_alpha d i v) s
  = Ok tt (set_alphas (paint_row (d ← ds; sample_row d i) v (alphas s)) s).
Proof.
  intros Hrows.
  destruct (for_each_pure (λ _, True)
              (λ d s, set_alphas (paint_row (sample_row d i) v (alphas s)) s)
              ds (λ d, set_row_alpha d i v)) with (s := s) as [-> _].
  - intros d s0 Hd _. split; [|exact I].
    destruct (Hrows d Hd) as [row Hrow].
    rewrite (set_alpha_row_pure _ _ _ _ _ Hrow). unfold sample_row. rewrite Hrow. reflexivity.
  - exact I.
  - rewrite (foldl_set_alphas (λ d m, paint_row (sample_row d i) v m)).
    fold (paint_sample ds i v (alphas s)). rewrite paint_sample_rows. reflexivity.
Qed.

Lemma set_alphas_set_alphas m m' s : set_alphas m (set_alphas m' s) = set_alphas m s.
Proof. reflexivity. Qed.

(** A loop over the samples that paints some of them. *)

Lemma paint_loop (plan : Z → option Q) (body : Z → M unit) ds ic l s :
  displays s = ds → index_clicked s = ic →
  (∀ i s', i ∈ l → displays s' = ds → index_clicked s' = ic →
     body i s' = match plan i with
                 | Some v => Ok tt (set_alphas (paint_row (d ← ds; sample_row d i) v (alphas s')) s')
                 | None => Ok tt s'
                 end) →
  for_each l body s = Ok tt (set_alphas (paint_plan plan ds l (alphas s)) s).
Proof.
  intros Hds Hic Hbody.
  destruct (for_each_pure (λ s', displays s' = ds ∧ index_clicked s' = ic)
     (λ i s', set_alphas (match plan i with
                          | Some v => paint_row (d ← ds; sample_row d i) v (alphas s')
                          | None => alphas s' end) s')
     l body) with (s := s) as [-> _].
  - intros i s' Hi [H1 H2]. rewrite (Hbody i s' Hi H1 H2).
    destruct (plan i); (split; [|split; assumption]); [reflexivity|].
    destruct s'; reflexivity.
  - split; assumption.
  - rewrite (foldl_set_alphas (λ i m, match plan i with
                          | Some v => paint_row (d ← ds; sample_row d i) v m
                          | None => m end)). reflexivity.
Qed.

Section Guarded.
Variable on_changed : Q → M unit.
Hypothesis on_changed_guarded : guarded on_changed.

Lemma set_val_guarded j v s :
  is_updating s = true →
  set_val on_changed j v s = Ok tt (set_sliders (alter (put_val v) j (sliders s)) s).
Proof.
  intros H. unfold set_val, bind, modify. apply on_changed_guarded. exact H.
Qed.

Lemma reset_loop (l : list nat) s :
  is_updating s = true →
  for_each l (λ j, set_val on_changed j 0%Q) s
  = Ok tt (set_sliders (foldl (λ ss j, alter (put_val 0%Q) j ss) (sliders s) l) s).
Proof.
  intros Hup.
  destruct (for_each_pure (λ s', is_updating s' = true)
              (λ j s', set_sliders (alter (put_val 0%Q) j (sliders s')) s')
              l (λ j, set_val on_changed j 0%Q)) with (s := s) as [-> _].
  - intros j s' _ H. split; [apply set_val_guarded; exact H | exact H].
  - exact Hup.
  - rewrite (foldl_set_sliders (λ j ss, alter (put_val 0%Q) j ss)). reflexivity.
Qed.

Lemma py_list_index_elem (c : list Z) (i : Z) :
  i ∈ c → ∃ p, py_list_index c i = Some p ∧ position_in c i = p ∧ py_getitem c p = Some i.
Proof.
  intros Hi. destruct (list_find_elem_of (λ y, y = i) c i Hi eq_refl) as [[k y] Hk].
  exists (Z.of_nat k). unfold position_in, py_list_index. rewrite Hk. simpl.
  split; [reflexivity | split; [reflexivity |]].
  apply list_find_Some in Hk as (Hk & -> & _).
  unfold py_getitem, py_position. apply lookup_lt_Some in Hk as Hlt.
  rewrite decide_True by lia. simpl. rewrite Nat2Z.id. exact Hk.
Qed.

Lemma push_loop (l : list (list Z * nat)) ic s :
  is_updating s = true → index_clicked s = ic →
  (∀ cj, cj ∈ l → ic ∈ cj.1) →
  for_each l (λ cj,
    let* ic := gets index_clicked in
    let* val_widget := lift_option ValueError (py_list_index cj.1 ic) in
    set_val on_changed cj.2 (inject_Z val_widget)) s
  = Ok tt (set_sliders
      (foldl (λ ss cj, alter (put_val (inject_Z (position_in cj.1 ic))) cj.2 ss) (sliders s) l) s).
Proof.
  intros Hup Hic Hin.
  match goal with |- for_each _ ?b _ = _ =>
    destruct (for_each_pure (λ s', is_updating s' = true ∧ index_clicked s' = ic)
      (λ cj s', set_sliders (alter (put_val (inject_Z (position_in cj.1 ic))) cj.2 (sliders s')) s')
      l b) with (s := s) as [-> _]
  end.
  - intros cj s' Hcj [H1 H2]. split; [|split; assumption].
    unfold bind at 1, gets at 1. rewrite H2.
    destruct (py_list_index_elem cj.1 ic (Hin cj Hcj)) as (p & Hp & Hpos & _).
    unfold bind. rewrite Hp, Hpos. simpl. apply on_changed_guarded. exact H1.
  - split; assumption.
  - rewrite (foldl_set_sliders (λ cj ss, alter (put_val (inject_Z (position_in cj.1 ic))) cj.2 ss)).
    reflexivity.
Qed.

Lemma in_every_order_zip s i (n : nat) cj :
  in_every_order s i = true → cj ∈ zip (criteria s) (seq 0 n) → i ∈ cj.1.
Proof.
  intros Hall Hcj. destruct cj as [c j]. apply elem_of_zip_l in Hcj.
  apply (forallb_elem_of _ _ c) in Hall; [|assumption].
  apply bool_decide_eq_true in Hall. exact Hall.
Qed.

Lemma push_selection_exact s :
  in_every_order s (index_clicked s) = true →
  push_selection on_changed s = Ok tt (pushed s).
Proof.
  intros Hall. unfold push_selection.
  unfold bind at 1, modify at 1. unfold bind at 1, gets at 1.
  unfold bind at 1, gets at 1. unfold bind at 1.
  rewrite (push_loop _ (index_clicked s)); [reflexivity | reflexivity | reflexivity |].
  intros cj Hcj. eapply in_every_order_zip; [exact Hall | exact Hcj].
Qed.

Lemma rows_is_Some s i :
  rows_complete s = true → i ∈ py_range (length_data s) →
  ∀ d, d ∈ displays s → is_Some (py_getitem (d_artists d) i).
Proof.
  intros Hrows Hi d Hd. destruct (rows_complete_row s d i Hrows Hd Hi) as [row Hrow].
  rewrite Hrow. eexists. reflexivity.
Qed.

Lemma restore_points_intensity_exact s :
  rows_complete s = true →
  restore_points_intensity on_changed s = Ok tt (restored s).
Proof.
  intros Hrows. unfold restore_points_intensity.
  unfold bind at 1, gets at 1. unfold bind at 1.
  rewrite (paint_loop restore_plan _ (displays s) (index_clicked s));
    [| reflexivity | reflexivity |].
  - unfold bind at 1, modify at 1. unfold bind at 1, modify at 1.
    unfold bind at 1, modify at 1. unfold bind at 1, gets at 1. unfold bind at 1.
    rewrite reset_loop by reflexivity. reflexivity.
  - intros i s' Hi Hds _. unfold restore_plan, bind, gets. rewrite Hds.
    apply paint_displays. apply rows_is_Some; assumption.
Qed.

Lemma reduce_points_intensity_exact s :
  rows_complete s = true →
  in_every_order s (index_clicked s) = true →
  reduce_points_intensity on_changed s = Ok tt (reduced s).
Proof.
  intros Hrows Hall. unfold reduce_points_intensity.
  unfold bind at 1, gets at 1. unfold bind at 1.
  rewrite (paint_loop (reduce_plan (index_clicked s)) _ (displays s) (index_clicked s));
    [| reflexivity | reflexivity |].
  - apply push_selection_exact. exact Hall.
  - intros i s' Hi Hds Hic. unfold reduce_plan, bind at 1, gets at 1. rewrite Hic.
    destruct (decide (i ≠ index_clicked s)); [|reflexivity].
    unfold bind, gets. rewrite Hds. apply paint_displays. apply rows_is_Some; assumption.
Qed.

Lemma py_getitem_nonempty {A} (l : list A) i : is_Some (py_getitem l i) → length l ≠ 0%nat.
Proof.
  intros [x Hx] Hz. unfold py_getitem, py_position in Hx. rewrite Hz in Hx.
  repeat case_decide; simpl in Hx; try discriminate; lia.
Qed.

Lemma change_display_intensity_exact s i v :
  (∀ d, d ∈ displays s → is_Some (py_getitem (d_artists d) i)) →
  change_display_intensity i v s
  = Ok tt (set_alphas (paint_row (d ← displays s; sample_row d i) v (alphas s)) s).
Proof.
  intros Hrows. unfold change_display_intensity, bind at 1, gets at 1. cbv beta.
  match goal with |- for_each _ ?b _ = _ =>
    destruct (for_each_pure (λ _, True)
                (λ d s, set_alphas (paint_row (sample_row d i) v (alphas s)) s)
                (displays s) b) with (s := s) as [-> _]
  end.
  - intros d s0 Hd _. split; [|exact I].
    destruct (Hrows d Hd) as [row Hrow].
    rewrite decide_True by (apply (py_getitem_nonempty _ i); rewrite Hrow; eexists; reflexivity).
    rewrite (set_alpha_row_pure _ _ _ _ _ Hrow). unfold sample_row. rewrite Hrow. reflexivity.
  - exact I.
  - rewrite (foldl_set_alphas (λ d m, paint_row (sample_row d i) v m)).
    fold (paint_sample (displays s) i v (alphas s)). rewrite paint_sample_rows. reflexivity.
Qed.

Lemma change_points_intensity_same s old :
  index_clicked s = old →
  change_points_intensity on_changed (Some old) s = restore_points_intensity on_changed s.
Proof.
  intros H. unfold change_points_intensity, bind at 1, ret at 1.
  unfold bind at 1, gets at 1. rewrite decide_True by assumption. reflexivity.
Qed.

Lemma change_points_intensity_exact s old :
  rows_complete s = true →
  index_clicked s ≠ old →
  in_every_order s (index_clicked s) = true →
  change_points_intensity on_changed (Some old) s = Ok tt (changed old s).
Proof.
  intros Hrows Hne Hall. unfold change_points_intensity, bind at 1, ret at 1.
  unfold bind at 1, gets at 1. rewrite decide_False by assumption.
  unfold bind at 1, gets at 1. unfold bind at 1.
  rewrite (paint_loop (change_plan (index_clicked s) old) _ (displays s) (index_clicked s));
    [| reflexivity | reflexivity |].
  - apply push_selection_exact. exact Hall.
  - intros i s' Hi Hds Hic. unfold change_plan, bind at 1, gets at 1. rewrite Hic.
    assert (Hsome : ∀ d, d ∈ displays s' → is_Some (py_getitem (d_artists d) i)).
    { rewrite Hds. apply rows_is_Some; assumption. }
    destruct (decide (i = index_clicked s)).
    + simpl. rewrite (change_display_intensity_exact _ _ _ Hsome), Hds. reflexivity.
    + destruct (decide (i = old)); [|reflexivity].
      simpl. rewrite (change_display_intensity_exact _ _ _ Hsome), Hds. reflexivity.
Qed.
End Guarded.

Lemma paint_plan_cons plan ds i l m :
  paint_plan plan ds (i :: l) m
  = paint_plan plan ds l (match plan i with
                          | Some v => paint_row (d ← ds; sample_row d i) v m
                          | None => m
                          end).
Proof. reflexivity. Qed.

Lemma paint_plan_lookup_set plan ds l m k v :
  (∀ i v', i ∈ l → plan i = Some v' → k ∈ art_id <$> (d ← ds; sample_row d i) → v' = v) →
  (m !! k = Some v ∨ ∃ i, i ∈ l ∧ plan i = Some v ∧ k ∈ art_id <$> (d ← ds; sample_row d i)) →
  paint_plan plan ds l m !! k = Some v.
Proof.
  revert m. induction l as [|i l IH]; intros m Huniq Hset.
  - destruct Hset as [H | (i & Hi & _)]; [exact H | apply elem_of_nil in Hi; contradiction].
  - rewrite paint_plan_cons. apply IH.
    + intros j v' Hj. apply Huniq. right. exact Hj.
    + destruct (plan i) as [v'|] eqn:Hplan.
      * rewrite paint_row_lookup. case_bool_decide as Hk.
        -- left. f_equal. apply (Huniq i); [left | exact Hplan | exact Hk].
        -- destruct Hset as [H | (j & Hj & Hpj & Hkj)]; [left; exact H |].
           apply elem_of_cons in Hj as [-> | Hj]; [contradiction |].
           right. exists j. auto.
      * destruct Hset as [H | (j & Hj & Hpj & Hkj)]; [left; exact H |].
        apply elem_of_cons in Hj as [-> | Hj]; [congruence |].
        right. exists j. auto.
Qed.

Lemma paint_plan_lookup_frame plan ds l m k :
  (∀ i v', i ∈ l → plan i = Some v' → k ∉ art_id <$> (d ← ds; sample_row d i)) →
  paint_plan plan ds l m !! k = m !! k.
Proof.
  revert m. induction l as [|i l IH]; intros m Hout; [reflexivity|].
  rewrite paint_plan_cons, IH.
  - destruct (plan i) as [v'|] eqn:Hplan; [|reflexivity].
    rewrite paint_row_lookup, bool_decide_eq_false_2; [reflexivity|].
    apply (Hout i v'); [left | exact Hplan].
  - intros j v' Hj. apply Hout. right. exact Hj.
Qed.

Lemma is_artist_of_spec s i a :
  is_artist_of s i a = true ↔ art_id a ∈ art_id <$> sample_artists s i.
Proof.
  unfold is_artist_of. rewrite existsb_exists. split.
  - intros (b & Hb & Hsame). apply bool_decide_eq_true in Hsame. rewrite Hsame.
    apply list_elem_of_fmap. exists b. split; [reflexivity | apply list_elem_of_In; exact Hb].
  - intros Hin. apply list_elem_of_fmap in Hin as (b & Hid & Hb).
    exists b. split; [apply list_elem_of_In; exact Hb | apply bool_decide_eq_true; exact Hid].
Qed.

Lemma zip_alter_lookup_lt {C} (h : C → slider → slider) (cs : list C) (k n : nat)
    (ss : list slider) (j : nat) :
  (j < k)%nat →
  foldl (λ ss cj, alter (h cj.1) cj.2 ss) ss (zip cs (seq k n)) !! j = ss !! j.
Proof.
  revert k n ss. induction cs as [|c cs IH]; intros k n ss Hlt; [reflexivity|].
  destruct n as [|n]; [reflexivity|].
  simpl. rewrite IH by lia. apply list_lookup_alter_ne. lia.
Qed.

Lemma zip_alter_lookup {C} (h : C → slider → slider) (cs : list C) (k n : nat)
    (ss : list slider) (j : nat) c :
  cs !! j = Some c → (j < n)%nat →
  foldl (λ ss cj, alter (h cj.1) cj.2 ss) ss (zip cs (seq k n)) !! (k + j)%nat
  = h c <$> ss !! (k + j)%nat.
Proof.
  revert k n ss j. induction cs as [|c0 cs IH]; intros k n ss j Hj Hn; [discriminate|].
  destruct n as [|n]; [lia|].
  simpl. destruct j as [|j].
  - injection Hj as ->. rewrite Nat.add_0_r, zip_alter_lookup_lt by lia.
    apply list_lookup_alter_eq.
  - simpl in Hj. replace (k + S j)%nat with (S k + j)%nat by lia.
    rewrite (IH (S k) n _ j Hj) by lia. rewrite list_lookup_alter_ne by lia. reflexivity.
Qed.

Lemma seq_alter_lookup (h : slider → slider) (k n : nat) (ss : list slider) (j : nat) :
  foldl (λ ss j, alter h j ss) ss (seq k n) !! j
  = if decide (k ≤ j < k + n)%nat then h <$> ss !! j else ss !! j.
Proof.
  revert k ss. induction n as [|n IH]; intros k ss.
  - simpl. rewrite decide_False by lia. reflexivity.
  - simpl. rewrite IH. destruct (decide (j = k)) as [->|Hne].
    + rewrite decide_False by lia. rewrite decide_True by lia. apply list_lookup_alter_eq.
    + rewrite list_lookup_alter_ne by lia.
      destruct (decide (S k ≤ j < S k + n)%nat).
      * rewrite decide_True by lia. reflexivity.
      * rewrite decide_False by lia. reflexivity.
Qed.

Lemma push_all_lookup i cs ss j c w :
  cs !! j = Some c → ss !! j = Some w →
  push_all i cs ss !! j = Some (put_val (inject_Z (position_in c i)) w).
Proof.
  intros Hc Hw. unfold push_all.
  rewrite (zip_alter_lookup (λ c, put_val (inject_Z (position_in c i))) cs 0 _ ss j c Hc).
  - simpl. rewrite Hw. reflexivity.
  - apply lookup_lt_Some in Hw. exact Hw.
Qed.

Lemma push_all_length i cs ss : length (push_all i cs ss) = length ss.
Proof.
  unfold push_all. generalize (zip cs (seq 0 (length ss))). intros l. revert ss.
  induction l as [|x l IH]; intros ss; [reflexivity|].
  simpl. rewrite IH. apply length_alter.
Qed.

Lemma reset_all_lookup ss j : reset_all ss !! j = put_val 0%Q <$> ss !! j.
Proof.
  unfold reset_all. rewrite seq_alter_lookup. case_decide as H; [reflexivity|].
  rewrite lookup_ge_None_2 by lia. reflexivity.
Qed.

Lemma pushed_shows s j :
  in_every_order s (index_clicked s) = true →
  slider_shows (pushed s) j (index_clicked (pushed s)).
Proof.
  intros Hall c w Hc Hw. simpl in Hc, Hw |- *.
  destruct (lookup_lt_is_Some_2 (sliders s) j) as [w0 Hw0].
  { apply lookup_lt_Some in Hw. rewrite push_all_length in Hw. exact Hw. }
  rewrite (push_all_lookup _ _ _ _ _ _ Hc Hw0) in Hw. injection Hw as <-.
  assert (Hin : index_clicked s ∈ c).
  { apply list_elem_of_lookup_2 in Hc. apply (forallb_elem_of _ _ c) in Hall; [|exact Hc].
    apply bool_decide_eq_true in Hall. exact Hall. }
  destruct (py_list_index_elem c _ Hin) as (p & _ & Hpos & Hget).
  exists p. rewrite Hpos. split; [reflexivity | exact Hget].
Qed.

(** ** What the highlighting methods establish *)


Lemma value_updated_is_guarded (fuel : nat) : guarded (value_updated fuel).
Proof.
  intros v s H. destruct fuel; unfold value_updated, bind, gets; simpl; rewrite H; reflexivity.
Qed.

Lemma in_range (n : nat) (i : Z) : i ∈ py_range n ↔ 0 ≤ i < Z.of_nat n.
Proof.
  unfold py_range. rewrite list_elem_of_fmap. split.
  - intros (k & -> & Hk). apply elem_of_seq in Hk. lia.
  - intros H. exists (Z.to_nat i). split; [lia | apply elem_of_seq; lia].
Qed.

Lemma all_artists_sample s a :
  rows_complete s = true → a ∈ all_artists s →
  ∃ i, i ∈ py_range (length_data s) ∧ a ∈ sample_artists s i.
Proof.
  intros Hrows Ha. unfold all_artists in Ha.
  apply list_elem_of_bind in Ha as (d & Ha & Hd).
  apply list_elem_of_join in Ha as (row & Ha & Hrow).
  apply list_elem_of_lookup in Hrow as [r Hr].
  pose proof Hr as Hlt. apply lookup_lt_Some in Hlt.
  apply (forallb_elem_of _ _ d) in Hrows; [|exact Hd]. apply bool_decide_eq_true in Hrows.
  exists (Z.of_nat r). split; [apply in_range; lia|].
  unfold sample_artists. apply list_elem_of_bind. exists d. split; [|exact Hd].
  unfold py_getitem, py_position. rewrite decide_True by lia. simpl.
  rewrite Nat2Z.id, Hr. exact Ha.
Qed.

Lemma restored_facts s :
  rows_complete s = true →
  (∀ a, a ∈ all_artists (restored s) → alpha_of (restored s) a = Some 1%Q) ∧
  index_clicked (restored s) = -1 ∧ point_clicked (restored s) = None ∧
  (∀ w, w ∈ sliders (restored s) → s_val w = 0%Q) ∧ is_updating (restored s) = false.
Proof.
  intros Hrows. split; [|split; [reflexivity | split; [reflexivity | split; [|reflexivity]]]].
  - intros a Ha. change (all_artists (restored s)) with (all_artists s) in Ha.
    destruct (all_artists_sample s a Hrows Ha) as (i & Hi & Hai).
    unfold alpha_of. simpl. apply paint_plan_lookup_set.
    + intros j v' _ Hplan _. unfold restore_plan in Hplan. congruence.
    + right. exists i. split; [exact Hi | split; [reflexivity|]].
      apply list_elem_of_fmap. exists a. split; [reflexivity | exact Hai].
  - intros w Hw. simpl in Hw. apply list_elem_of_lookup in Hw as [j Hj].
    rewrite reset_all_lookup in Hj. destruct (sliders s !! j); [|discriminate].
    injection Hj as <-. reflexivity.
Qed.

Lemma rows_disjoint_ids s i j k :
  rows_disjoint s i j = true →
  k ∈ art_id <$> sample_artists s i → k ∈ art_id <$> sample_artists s j → False.
Proof.
  intros Hdis Hi Hj. apply list_elem_of_fmap in Hi as (b & -> & Hb).
  apply (forallb_elem_of _ _ b) in Hdis; [|exact Hb].
  apply negb_true_iff in Hdis.
  apply (is_artist_of_spec s j b) in Hj. unfold is_artist_of in Hj. congruence.
Qed.

Lemma is_artist_of_false s i a :
  is_artist_of s i a = false → art_id a ∉ art_id <$> sample_artists s i.
Proof.
  intros H Hin. apply is_artist_of_spec in Hin. congruence.
Qed.

Lemma changed_facts s old :
  index_clicked s ≠ old →
  0 ≤ index_clicked s < Z.of_nat (length_data s) →
  (0 ≤ old < Z.of_nat (length_data s) → rows_disjoint s (index_clicked s) old = true) →
  index_clicked (changed old s) = index_clicked s ∧
  (∀ a, is_artist_of s (index_clicked s) a = true → alpha_of (changed old s) a = Some 1%Q) ∧
  (0 ≤ old < Z.of_nat (length_data s) →
     ∀ a, is_artist_of s old a = true → alpha_of (changed old s) a = Some (1 # 10)%Q) ∧
  (∀ a, is_artist_of s (index_clicked s) a = false →
     (0 ≤ old < Z.of_nat (length_data s) → is_artist_of s old a = false) →
     alpha_of (changed old s) a = alpha_of s a) ∧
  is_updating (changed old s) = false.
Proof.
  intros Hne Hic Hdis. split; [reflexivity|]. split; [|split; [|split; [|reflexivity]]].
  - intros a Ha. apply is_artist_of_spec in Ha. unfold alpha_of. simpl.
    apply paint_plan_lookup_set.
    + intros i v' Hi Hplan Hk. unfold change_plan in Hplan.
      destruct (decide (i = index_clicked s)); [congruence|].
      destruct (decide (i = old)) as [->|]; [|discriminate].
      exfalso. apply in_range in Hi.
      exact (rows_disjoint_ids s _ _ _ (Hdis Hi) Ha Hk).
    + right. exists (index_clicked s). split; [apply in_range; exact Hic|].
      split; [|exact Ha]. unfold change_plan. rewrite decide_True; reflexivity.
  - intros Hold a Ha. apply is_artist_of_spec in Ha. unfold alpha_of. simpl.
    apply paint_plan_lookup_set.
    + intros i v' Hi Hplan Hk. unfold change_plan in Hplan.
      destruct (decide (i = index_clicked s)) as [->|].
      * exfalso. exact (rows_disjoint_ids s _ _ _ (Hdis Hold) Hk Ha).
      * destruct (decide (i = old)); [congruence | discriminate].
    + right. exists old. split; [apply in_range; exact Hold|].
      split; [|exact Ha]. unfold change_plan.
      rewrite decide_False by congruence. rewrite decide_True; reflexivity.
  - intros a Ha1 Ha2. apply is_artist_of_false in Ha1. unfold alpha_of. simpl.
    apply paint_plan_lookup_frame. intros i v' Hi Hplan. unfold change_plan in Hplan.
    destruct (decide (i = index_clicked s)) as [->|]; [exact Ha1|].
    destruct (decide (i = old)) as [->|]; [|discriminate].
    apply is_artist_of_false, Ha2, in_range. exact Hi.
Qed.

(** X25. [change_points_intensity(old_index)], for displays with one
    row of artists per sample. When the selected index equals
    [old_index] it is exactly [restore_points_intensity], which sets
    every artist to opacity 1.0, clears the selection to -1 and resets
    the sliders to 0. Otherwise, when the selected sample is a sample
    of the data that occurs in the order of every slider, and its
    artists are other objects than those of sample [old_index]: it
    returns; the artists of the selected sample get opacity 1.0; those
    of sample [old_index], if it is a sample of the data, get 0.1;
    every other artist keeps its opacity, also the artists of the last
    sample when [old_index] is -1; and every slider is moved to the
    position of the selected sample (the observers run under the
    [is_updating] guard, which is cleared at the end). *)
Theorem change_points_intensity_spec (fuel : nat) (old : Z) (s : state) :
  rows_complete s = true →
  (index_clicked s = old →
     change_points_intensity (value_updated fuel) (Some old) s
       = restore_points_intensity (value_updated fuel) s ∧
     ∃ s', restore_points_intensity (value_updated fuel) s = Ok tt s' ∧
       (∀ a, a ∈ all_artists s' → alpha_of s' a = Some 1%Q) ∧
       index_clicked s' = -1 ∧ point_clicked s' = None ∧
       (∀ w, w ∈ sliders s' → s_val w = 0%Q) ∧ is_updating s' = false) ∧
  (index_clicked s ≠ old →
     0 ≤ index_clicked s < Z.of_nat (length_data s) →
     in_every_order s (index_clicked s) = true →
     (0 ≤ old < Z.of_nat (length_data s) → rows_disjoint s (index_clicked s) old = true) →
     ∃ s', change_points_intensity (value_updated fuel) (Some old) s = Ok tt s' ∧
       index_clicked s' = index_clicked s ∧
       (∀ a, is_artist_of s (index_clicked s) a = true → alpha_of s' a = Some 1%Q) ∧
       (0 ≤ old < Z.of_nat (length_data s) →
          ∀ a, is_artist_of s old a = true → alpha_of s' a = Some (1 # 10)%Q) ∧
       (∀ a, is_artist_of s (index_clicked s) a = false →
          (0 ≤ old < Z.of_nat (length_data s) → is_artist_of s old a = false) →
          alpha_of s' a = alpha_of s a) ∧
       (∀ j, slider_shows s' j (index_clicked s')) ∧
       is_updating s' = false).
Proof.
  intros Hrows. pose proof (value_updated_is_guarded fuel) as Hg. split.
  - intros Heq. split; [apply change_points_intensity_same; exact Heq|].
    exists (restored s). split; [apply restore_points_intensity_exact; assumption|].
    apply restored_facts. exact Hrows.
  - intros Hne Hic Hall Hdis. exists (changed old s).
    split; [apply change_points_intensity_exact; assumption|].
    destruct (changed_facts s old Hne Hic Hdis) as (H1 & H2 & H3 & H4 & H5).
    split; [exact H1|]. split; [exact H2|]. split; [exact H3|]. split; [exact H4|].
    split; [|exact H5].
    intros j. apply (pushed_shows (painted (change_plan (index_clicked s) old) s)). exact Hall.
Qed.

Lemma bind_gets {A B} (f : state → A) (k : A → M B) s : bind (gets f) k s = k (f s) s.
Proof. reflexivity. Qed.
Lemma bind_modify {B} (f : state → state) (k : unit → M B) s : bind (modify f) k s = k tt (f s).
Proof. reflexivity. Qed.
Lemma bind_ret {A B} (a : A) (k : A → M B) s : bind (ret a) k s = k a s.
Proof. reflexivity. Qed.
Lemma bind_bind {A B C} (c : M A) (k : A → M B) (k' : B → M C) s :
  bind (bind c k) k' s = bind c (λ a, bind (k a) k') s.
Proof. unfold bind. destruct (c s); reflexivity. Qed.
Lemma bind_lift_Some {A B} e (o : option A) a (k : A → M B) s :
  o = Some a → bind (lift_option e o) k s = k a s.
Proof. intros ->. reflexivity. Qed.
Lemma bind_lift_None {A B} e (o : option A) (k : A → M B) s :
  o = None → bind (lift_option e o) k s = Raise e s.
Proof. intros ->. reflexivity. Qed.

Ltac proj_simpl :=
  cbn [displays alphas point_clicked _n_graphs length_data sliders criteria clicked
       index_clicked is_updating widget_index axes _tag effects
       set_displays set_alphas set_point_clicked set_sliders set_criteria set_clicked
       set_index_clicked set_is_updating set_widget_index set_axes set_tag log_effect] in *.

Ltac mstep :=
  first [ rewrite bind_bind | rewrite bind_gets | rewrite bind_modify | rewrite bind_ret ];
  cbv beta.

(** The first half of [value_updated] (lines 526-544): when the guard is
    open and the widget index and the step are valid, the selection
    becomes the sample at the step, only sliders change besides, and
    the method goes on with [clicked] set. *)
Lemma value_updated_enter (fuel : nat) (value : Q) (s : state) w c i :
  is_updating s = false →
  widget_index s = Some w →
  py_getitem (criteria s) w = Some c →
  py_getitem c (discretize value) = Some i →
  is_Some (py_position (length (sliders s)) w) →
  in_every_order s i = true →
  ∃ ss, value_updated (S fuel) value s
    = (if decide (index_clicked s = -1) then reduce_points_intensity (value_updated fuel)
       else
         (let* sel := gets index_clicked in
          if decide (sel = index_clicked s) then modify (set_clicked false) else ret tt) >>
         change_points_intensity (value_updated fuel) (Some (index_clicked s)))
      (set_clicked true (set_is_updating false (set_sliders ss (set_index_clicked i s)))).
Proof.
  intros Hup Hw Hc Hi [p Hp] Hall.
  cbn [value_updated]. rewrite bind_gets, Hup. do 5 mstep.
  rewrite (bind_lift_Some _ _ w) by exact Hw.
  rewrite (bind_lift_Some _ _ c) by exact Hc.
  rewrite (bind_lift_Some _ _ i) by exact Hi.
  do 2 mstep. rewrite (bind_lift_Some _ _ p) by exact Hp.
  do 3 mstep. unfold bind at 1.
  match goal with |- context [for_each ?l ?b ?s1] =>
    destruct (for_each_pure
      (λ s', is_updating s' = true ∧ index_clicked s' = i ∧ criteria s' = criteria s ∧
             ∃ ss, s' = set_sliders ss (set_index_clicked i (set_is_updating true s)))
      (λ jc s', if decide (Z.of_nat jc.1 ≠ w)
                then set_sliders (alter (put_val (inject_Z (position_in jc.2 i))) jc.1 (sliders s')) s'
                else s')
      l b) with (s := s1) as [-> (_ & _ & _ & ss & ->)]
  end.
  - intros jc s' Hjc (H1 & H2 & H3 & ss & Hs'). destruct (decide (Z.of_nat jc.1 ≠ w)).
    + split.
      * rewrite bind_gets, H2.
        assert (Hin : i ∈ jc.2).
        { destruct jc as [j c']. apply elem_of_zip_r in Hjc. proj_simpl.
          apply (forallb_elem_of _ _ c') in Hall; [|exact Hjc].
          apply bool_decide_eq_true in Hall. exact Hall. }
        destruct (py_list_index_elem jc.2 i Hin) as (q & Hq & Hpos & _).
        rewrite (bind_lift_Some _ _ q) by exact Hq. rewrite Hpos.
        apply set_val_guarded; [apply value_updated_is_guarded | exact H1].
      * split; [exact H1 | split; [exact H2 | split; [exact H3|]]].
        rewrite Hs'. eexists. reflexivity.
    + split; [reflexivity|]. split; [exact H1 | split; [exact H2 | split; [exact H3|]]].
      exists ss. exact Hs'.
  - split; [reflexivity | split; [reflexivity | split; [reflexivity|]]].
    eexists. reflexivity.
  - exists ss. do 2 mstep. reflexivity.
Qed.

Lemma reduced_shows s j :
  in_every_order s (index_clicked s) = true →
  slider_shows (reduced s) j (index_clicked (reduced s)).
Proof.
  intros Hall. apply (pushed_shows (painted (reduce_plan (index_clicked s)) s)). exact Hall.
Qed.

Lemma changed_shows s old j :
  in_every_order s (index_clicked s) = true →
  slider_shows (changed old s) j (index_clicked (changed old s)).
Proof.
  intros Hall. apply (pushed_shows (painted (change_plan (index_clicked s) old) s)). exact Hall.
Qed.

(** A slider moved to a step that holds another sample than the
    selected one: the sample at the step is selected and every slider
    follows. *)
Lemma value_updated_new_sample (fuel : nat) (s : state) value w c i :
  rows_complete s = true →
  is_updating s = false → widget_index s = Some w →
  py_getitem (criteria s) w = Some c → py_getitem c (discretize value) = Some i →
  is_Some (py_position (length (sliders s)) w) →
  in_every_order s i = true →
  i ≠ index_clicked s →
  ∃ s', value_updated (S fuel) value s = Ok tt s' ∧
    index_clicked s' = i ∧
    ∀ j, slider_shows s' j (index_clicked s').
Proof.
  intros Hrows Hup Hw Hc Hi Hp Hall Hne. pose proof (value_updated_is_guarded fuel) as Hg.
  destruct (value_updated_enter fuel value s w c i Hup Hw Hc Hi Hp Hall) as [ss ->].
  set (mid := set_clicked true (set_is_updating false (set_sliders ss (set_index_clicked i s)))).
  destruct (decide (index_clicked s = -1)) as [Hnone|Hsome].
  - exists (reduced mid).
    split; [apply reduce_points_intensity_exact; [exact Hg | exact Hrows | exact Hall]|].
    split; [reflexivity|]. intros j. apply reduced_shows. exact Hall.
  - rewrite bind_bind, bind_gets. cbv beta.
    change (index_clicked mid) with i. rewrite decide_False by exact Hne.
    rewrite bind_ret. exists (changed (index_clicked s) mid).
    split; [apply change_points_intensity_exact; [exact Hg | exact Hrows | exact Hne | exact Hall]|].
    split; [reflexivity|]. intros j. apply changed_shows. exact Hall.
Qed.

(** C2, as amended. After [reduce_points_intensity], after
    [change_points_intensity] with a new index, and after a
    [value_updated] that selects a sample other than the one selected
    before, every slider stands at a position of its order that holds
    the selected sample [index_clicked]. *)
Theorem sliders_follow_selection (fuel : nat) (s : state) :
  rows_complete s = true →
  (in_every_order s (index_clicked s) = true →
     ∃ s', reduce_points_intensity (value_updated fuel) s = Ok tt s' ∧
       index_clicked s' = index_clicked s ∧
       ∀ j, slider_shows s' j (index_clicked s')) ∧
  (∀ old, index_clicked s ≠ old → in_every_order s (index_clicked s) = true →
     ∃ s', change_points_intensity (value_updated fuel) (Some old) s = Ok tt s' ∧
       index_clicked s' = index_clicked s ∧
       ∀ j, slider_shows s' j (index_clicked s')) ∧
  (∀ value w c i,
     is_updating s = false → widget_index s = Some w →
     py_getitem (criteria s) w = Some c → py_getitem c (discretize value) = Some i →
     is_Some (py_position (length (sliders s)) w) →
     in_every_order s i = true →
     i ≠ index_clicked s →
     ∃ s', value_updated (S fuel) value s = Ok tt s' ∧
       index_clicked s' = i ∧
       ∀ j, slider_shows s' j (index_clicked s')).
Proof.
  intros Hrows. pose proof (value_updated_is_guarded fuel) as Hg. split; [|split].
  - intros Hall. exists (reduced s).
    split; [apply reduce_points_intensity_exact; assumption|].
    split; [reflexivity|]. intros j. apply reduced_shows. exact Hall.
  - intros old Hne Hall. exists (changed old s).
    split; [apply change_points_intensity_exact; assumption|].
    split; [reflexivity|]. intros j. apply changed_shows. exact Hall.
  - intros value w c i Hup Hw Hc Hi Hp Hall Hne.
    exact (value_updated_new_sample fuel s value w c i Hrows Hup Hw Hc Hi Hp Hall Hne).
Qed.

Lemma py_getitem_elem_of {A} (l : list A) i x : py_getitem l i = Some x → x ∈ l.
Proof.
  unfold py_getitem. intros H. destruct (py_position (length l) i) as [p|]; [|discriminate].
  simpl in H. eapply list_elem_of_lookup_2. exact H.
Qed.

(** C2, as stated, fails: in the scenario, with sample 1 selected by
    the slider, a second [value_updated] at the same step selects
    sample 1 again; the selection is cleared to -1 and the slider is
    reset to 0, a position that holds sample 1, not -1. *)
Lemma sliders_follow_selection_counterexample :
  let s := after (value_updated 1 0) (after (hover over_slider) (built scenario_config)) in
  index_clicked s = 1 ∧
  ∃ s', value_updated 1 (3 # 10) s = Ok tt s' ∧
    index_clicked s' = -1 ∧
    ¬ (∀ j, slider_shows s' j (index_clicked s')).
Proof.
  split; [vm_compute; reflexivity|].
  eexists. split; [vm_compute; reflexivity|].
  split; [reflexivity|].
  intros H. destruct (H 0%nat [1; 0; 2] _ eq_refl eq_refl) as (p & _ & Hp).
  apply py_getitem_elem_of in Hp. cbn [index_clicked] in Hp.
  rewrite !elem_of_cons, elem_of_nil in Hp. lia.
Qed.


(** ** Picking the same artist twice *)

(** A loop whose iterations keep an invariant, whether they return or
    raise, ends in a state of the invariant. *)
Lemma for_each_inv {A} (P : state → Prop) (l : list A) (body : A → M unit) :
  (∀ x s, x ∈ l → P s →
     ∃ s', P s' ∧ (body x s = Ok tt s' ∨ ∃ e, body x s = Raise e s')) →
  ∀ s, P s →
    ∃ s', P s' ∧ (for_each l body s = Ok tt s' ∨ ∃ e, for_each l body s = Raise e s').
Proof.
  induction l as [|x l IH]; intros Hbody s Hs.
  - exists s. split; [exact Hs | left; reflexivity].
  - destruct (Hbody x s) as (s1 & Hs1 & [Hok | [e Hraise]]); [left | exact Hs |..].
    + destruct (IH (λ y s' Hy, Hbody y s' (list_elem_of_further _ _ _ Hy)) s1 Hs1)
        as (s2 & Hs2 & Hrun).
      exists s2. split; [exact Hs2|]. cbn [for_each]. rewrite (bind_Ok _ _ _ _ _ Hok). exact Hrun.
    + exists s1. split; [exact Hs1|]. right. exists e. cbn [for_each].
      apply bind_Raise. exact Hraise.
Qed.

Section GuardedPick.
Variable on_changed : Q → M unit.
Hypothesis on_changed_guarded : guarded on_changed.

(** [push_selection] changes the sliders and [is_updating] only, even
    when an order lacks the selected sample. *)
Lemma push_selection_frame s :
  ∃ ss b,
    push_selection on_changed s = Ok tt (set_is_updating b (set_sliders ss s)) ∨
    ∃ e, push_selection on_changed s = Raise e (set_is_updating b (set_sliders ss s)).
Proof.
  unfold push_selection. do 3 mstep. proj_simpl.
  match goal with |- context [bind (for_each ?l ?b) _ ?s0] =>
    destruct (for_each_inv
      (λ s', is_updating s' = true ∧ ∃ ss, s' = set_sliders ss (set_is_updating true s))
      l b) with (s := s0) as (s1 & (Hup & ss & ->) & [Hok | [e Hraise]])
  end.
  - intros cj s' _ (Hup & ss & ->). rewrite bind_gets. cbv beta.
    destruct (py_list_index cj.1 _) as [p|] eqn:Hp.
    + rewrite (bind_lift_Some _ _ p) by reflexivity.
      rewrite (set_val_guarded _ on_changed_guarded) by exact Hup.
      eexists. split; [|left; reflexivity]. split; [exact Hup|]. eexists. reflexivity.
    + rewrite (bind_lift_None _ _) by reflexivity.
      eexists. split; [|right; eexists; reflexivity]. split; [exact Hup|]. eexists. reflexivity.
  - split; [reflexivity|]. exists (sliders s). destruct s; reflexivity.
  - exists ss, false. left. rewrite (bind_Ok _ _ _ _ _ Hok). reflexivity.
  - exists ss, true. right. exists e. rewrite (bind_Raise _ _ _ _ _ Hraise). reflexivity.
Qed.

Lemma reduce_points_intensity_paint s :
  rows_complete s = true →
  reduce_points_intensity on_changed s
  = push_selection on_changed (painted (reduce_plan (index_clicked s)) s).
Proof.
  intros Hrows. unfold reduce_points_intensity.
  rewrite bind_gets. cbv beta. unfold bind at 1.
  rewrite (paint_loop (reduce_plan (index_clicked s)) _ (displays s) (index_clicked s));
    [reflexivity | reflexivity | reflexivity |].
  intros i s' Hi Hds Hic. unfold reduce_plan. rewrite bind_gets, Hic. cbv beta.
  destruct (decide (i ≠ index_clicked s)); [|reflexivity].
  rewrite bind_gets, Hds. apply paint_displays. apply rows_is_Some; assumption.
Qed.
End GuardedPick.

(** [update_index_display_picked] changes [index_clicked] at most. *)
Lemma update_index_display_picked_frame s :
  ∃ s', (s' = s ∨ ∃ r, s' = set_index_clicked r s) ∧
    (update_index_display_picked s = Ok tt s' ∨
     ∃ e, update_index_display_picked s = Raise e s').
Proof.
  unfold update_index_display_picked. do 2 mstep.
  destruct (point_clicked s) as [p|].
  - destruct (find_axes (art_axes p) (displays s)) as [[d i]|].
    + destruct (if decide (length (d_axes d) = 1%nat)
                then np_where_grid (d_artists d) p
                else np_where_column (d_artists d) i p) as [r|] eqn:Hr.
      * rewrite (bind_lift_Some _ _ r) by reflexivity.
        exists (set_index_clicked r s). split; [right; eexists; reflexivity | left; reflexivity].
      * rewrite (bind_lift_None _ _) by reflexivity.
        exists s. split; [left; reflexivity | right; eexists; reflexivity].
    + exists s. split; [left; reflexivity | left; reflexivity].
  - destruct (forallb _ _).
    + exists s. split; [left; reflexivity | left; reflexivity].
    + exists s. split; [left; reflexivity | right; eexists; reflexivity].
Qed.

Lemma neutral_fields s :
  neutral s = true → point_clicked s = None ∧ clicked s = false ∧ index_clicked s = -1.
Proof.
  unfold neutral. rewrite !andb_true_iff, !bool_decide_eq_true, negb_true_iff. tauto.
Qed.

(** The first pick on a neutral state remembers the artist; it leaves
    the displays and [clicked] as they were, also when it raises. *)
Lemma first_pick (fuel : nat) (s : state) (a : artist) :
  rows_complete s = true → neutral s = true →
  ∃ s1, state_after (pick fuel (PickEvent a) s) = Some s1 ∧
    point_clicked s1 = Some a ∧ clicked s1 = false ∧
    displays s1 = displays s ∧ length_data s1 = length_data s.
Proof.
  intros Hrows Hneutral. destruct (neutral_fields s Hneutral) as (Hpc & Hcl & _).
  pose proof (value_updated_is_guarded fuel) as Hg.
  unfold pick. rewrite bind_gets, Hcl, bind_gets, Hpc. cbv beta.
  rewrite bind_modify. cbv beta. cbn [pick_artist].
  destruct (update_index_display_picked_frame (set_point_clicked (Some a) s))
    as (s0 & Hs0 & [Hok | [e Hraise]]).
  - rewrite (bind_Ok _ _ _ _ _ Hok).
    assert (Hfields : point_clicked s0 = Some a ∧ clicked s0 = false ∧
                      displays s0 = displays s ∧ length_data s0 = length_data s).
    { destruct Hs0 as [-> | [r ->]]; proj_simpl; auto. }
    destruct Hfields as (H1 & H2 & H3 & H4).
    assert (Hrows0 : rows_complete s0 = true).
    { unfold rows_complete. rewrite H3, H4. exact Hrows. }
    rewrite (reduce_points_intensity_paint _ _ Hrows0).
    destruct (push_selection_frame _ Hg (painted (reduce_plan (index_clicked s0)) s0))
      as (ss & b & [-> | [e ->]]); eexists; (split; [reflexivity|]); proj_simpl; auto.
  - rewrite (bind_Raise _ _ _ _ _ Hraise). eexists. split; [reflexivity|].
    destruct Hs0 as [-> | [r ->]]; proj_simpl; auto.
Qed.

Lemma same_artist_refl a : same_artist a a = true.
Proof. apply bool_decide_eq_true. reflexivity. Qed.

(** C4. From the neutral state, picking the artist of a sample and
    then the same artist again leaves every artist of every display at
    opacity 1.0, the selection at -1 and no clicked artist. The second
    pick returns in every case; the state it starts from is the one the
    first pick left, whether the first pick returned or raised. *)
Theorem pick_twice_restores (fuel : nat) (s : state) (a : artist) (i : Z) :
  rows_complete s = true → neutral s = true →
  0 ≤ i < Z.of_nat (length_data s) → a ∈ sample_artists s i →
  ∃ s1 s2,
    state_after (pick fuel (PickEvent a) s) = Some s1 ∧
    pick fuel (PickEvent a) s1 = Ok tt s2 ∧
    displays s2 = displays s ∧
    (∀ b, b ∈ all_artists s2 → alpha_of s2 b = Some 1%Q) ∧
    index_clicked s2 = -1 ∧ point_clicked s2 = None.
Proof.
  intros Hrows Hneutral _ _.
  destruct (first_pick fuel s a Hrows Hneutral) as (s1 & Hs1 & Hpc & Hcl & Hds & Hld).
  assert (Hrows1 : rows_complete s1 = true).
  { unfold rows_complete. rewrite Hds, Hld. exact Hrows. }
  exists s1, (restored s1). split; [exact Hs1|]. split.
  - unfold pick. rewrite bind_gets, Hcl, bind_gets, Hpc. cbv beta. cbn [pick_artist].
    rewrite same_artist_refl.
    apply restore_points_intensity_exact; [apply value_updated_is_guarded | exact Hrows1].
  - split; [exact Hds|].
    destruct (restored_facts s1 Hrows1) as (H1 & H2 & H3 & _). auto.
Qed.


(** ** Which handlers assign [widget_index] *)

Section Keeps.
Context {F : Type} (f : state → F).
Local Abbreviation R := (unchanged f).

Lemma keeps_ret {A} (a : A) : keeps R (ret a).
Proof. intros s s' [= <-]. reflexivity. Qed.

Lemma keeps_gets {A} (g : state → A) : keeps R (gets g).
Proof. intros s s' [= <-]. reflexivity. Qed.

Lemma keeps_raise {A} e : keeps R (raise (A := A) e).
Proof. intros s s' [= <-]. reflexivity. Qed.

Lemma keeps_lift_option {A} e (o : option A) : keeps R (lift_option e o).
Proof. destruct o; [apply keeps_ret | apply keeps_raise]. Qed.

Lemma keeps_modify g : (∀ s, f (g s) = f s) → keeps R (modify g).
Proof. intros Hg s s' [= <-]. apply Hg. Qed.

Lemma keeps_bind {A B} (c : M A) (k : A → M B) :
  keeps R c → (∀ a, keeps R (k a)) → keeps R (bind c k).
Proof.
  intros Hc Hk s s' Hs'. unfold bind in Hs'.
  destruct (c s) as [a s1 | e s1 |] eqn:Hcs.
  - unfold unchanged. transitivity (f s1).
    + exact (Hk a s1 s' Hs').
    + apply Hc. rewrite Hcs. reflexivity.
  - apply Hc. rewrite Hcs. exact Hs'.
  - discriminate.
Qed.

Lemma keeps_for_each {A} (l : list A) (body : A → M unit) :
  (∀ x, keeps R (body x)) → keeps R (for_each l body).
Proof.
  intros Hbody. induction l as [|x l IH]; cbn [for_each].
  - apply keeps_ret.
  - apply keeps_bind; [apply Hbody | intros _; exact IH].
Qed.
End Keeps.

Create HintDb keeps discriminated.

Ltac keeps_step :=
  match goal with
  | |- keeps _ (bind _ _) => apply keeps_bind; [|intros ?]
  | |- keeps _ (for_each _ _) => apply keeps_for_each; intros ?
  | |- keeps _ (ret _) => apply keeps_ret
  | |- keeps _ (gets _) => apply keeps_gets
  | |- keeps _ (raise _) => apply keeps_raise
  | |- keeps _ (lift_option _ _) => apply keeps_lift_option
  | |- keeps _ (modify _) => apply keeps_modify; intros ?; reflexivity
  | |- keeps _ (if ?b then _ else _) => destruct b
  | |- keeps _ (match ?x with _ => _ end) => destruct x
  | |- keeps _ _ => solve [auto with keeps]
  end.
Ltac keeps_tac := repeat keeps_step.

Section WidgetIndex.
Local Abbreviation W := (unchanged widget_index).
Variable on_changed : Q → M unit.
Hypothesis on_changed_keeps : ∀ v, keeps W (on_changed v).
Hint Resolve on_changed_keeps : keeps.

Lemma set_val_keeps j v : keeps W (set_val on_changed j v).
Proof. unfold set_val. keeps_tac. Qed.
Hint Resolve set_val_keeps : keeps.

Lemma set_row_alpha_keeps d i v : keeps W (set_row_alpha d i v).
Proof. unfold set_row_alpha, set_alpha. keeps_tac. Qed.
Hint Resolve set_row_alpha_keeps : keeps.

Lemma push_selection_keeps : keeps W (push_selection on_changed).
Proof. unfold push_selection. keeps_tac. Qed.
Hint Resolve push_selection_keeps : keeps.

Lemma update_index_display_picked_keeps : keeps W update_index_display_picked.
Proof. unfold update_index_display_picked. keeps_tac. Qed.
Hint Resolve update_index_display_picked_keeps : keeps.

Lemma reduce_points_intensity_keeps : keeps W (reduce_points_intensity on_changed).
Proof. unfold reduce_points_intensity. keeps_tac. Qed.

Lemma restore_points_intensity_keeps : keeps W (restore_points_intensity on_changed).
Proof. unfold restore_points_intensity. keeps_tac. Qed.
Hint Resolve restore_points_intensity_keeps : keeps.

Lemma change_display_intensity_keeps i v : keeps W (change_display_intensity i v).
Proof. unfold change_display_intensity. keeps_tac. Qed.
Hint Resolve change_display_intensity_keeps : keeps.

Lemma change_points_intensity_keeps old : keeps W (change_points_intensity on_changed old).
Proof. unfold change_points_intensity. keeps_tac. Qed.
End WidgetIndex.

Lemma value_updated_keeps (fuel : nat) (v : Q) : keeps (unchanged widget_index) (value_updated fuel v).
Proof.
  revert v. induction fuel as [|fuel IH]; intros v; cbn [value_updated].
  - apply keeps_bind; [apply keeps_gets |]. intros [|]; [apply keeps_ret|].
    intros s s' H. discriminate.
  - pose proof (reduce_points_intensity_keeps _ IH).
    pose proof (change_points_intensity_keeps _ IH).
    pose proof (set_val_keeps _ IH).
    keeps_tac.
Qed.

Lemma pick_keeps (fuel : nat) ev : keeps (unchanged widget_index) (pick fuel ev).
Proof.
  pose proof (value_updated_keeps fuel) as Hv.
  pose proof (reduce_points_intensity_keeps _ Hv).
  pose proof (change_points_intensity_keeps _ Hv).
  pose proof (restore_points_intensity_keeps _ Hv).
  pose proof update_index_display_picked_keeps.
  unfold pick. keeps_tac.
Qed.

(** Looking up the artist under the pointer changes nothing. *)
Lemma sample_artist_in_pure event ds s :
  (∃ r, sample_artist_in event ds s = Ok r s) ∨
  (∃ e, sample_artist_in event ds s = Raise e s).
Proof.
  induction ds as [|d ds IH]; cbn [sample_artist_in].
  - left. eexists. reflexivity.
  - destruct (ev_inaxes event ≫= _) as [[i a]|]; [|exact IH].
    destruct (mapM _ _) as [col|].
    + rewrite (bind_lift_Some _ _ col) by reflexivity.
      destruct (scan_column event 0 col); [left; eexists; reflexivity | exact IH].
    + rewrite (bind_lift_None _ _) by reflexivity. right. eexists. reflexivity.
Qed.

(** [hover] assigns [widget_index] only when the pointer is over one
    of the slider axes, [axes[_n_graphs:]]. *)
Lemma hover_keeps_widget_index event s s' :
  (∀ ax, ev_inaxes event = Some ax → ax ∉ drop (_n_graphs s) (axes s)) →
  state_after (hover event s) = Some s' → widget_index s' = widget_index s.
Proof.
  intros Hout. unfold hover, _sample_artist_from_event.
  rewrite bind_bind, bind_gets. cbv beta.
  destruct (sample_artist_in_pure event (displays s) s) as [[r Hr] | [e He]].
  - rewrite (bind_Ok _ _ _ _ _ Hr). do 2 mstep. unfold bind at 1.
    match goal with |- context [for_each ?l ?b s] =>
      destruct (for_each_pure (λ s0, s0 = s) (λ _ s0, s0) l b) with (s := s) as [-> _]
    end.
    + intros k s0 Hk ->. split; [|reflexivity]. rewrite bind_gets. cbv beta.
      apply elem_of_seq in Hk.
      destruct (lookup_lt_is_Some_2 (axes s) k) as [ax Hax]; [lia|].
      rewrite (bind_lift_Some _ _ ax) by exact Hax.
      rewrite decide_False; [reflexivity|].
      intros Hin. apply (Hout ax Hin). apply list_elem_of_lookup.
      exists (k - _n_graphs s)%nat. rewrite lookup_drop. rewrite <- Hax. f_equal. lia.
    + reflexivity.
    + assert (Hfold : ∀ l : list nat, foldl (λ (s0 : state) (_ : nat), s0) s l = s).
      { intros l. induction l; [reflexivity | assumption]. }
      rewrite Hfold.
      match goal with |- state_after (?c s) = Some s' → _ =>
        assert (Hk : keeps (unchanged widget_index) c); [|exact (Hk s s')]
      end.
      unfold _update_annotation, tag_set_visible. keeps_tac.
  - rewrite (bind_Raise _ _ _ _ _ He). intros [= <-]. reflexivity.
Qed.

(** C3. While [is_updating] is true, [value_updated] returns at once
    and the state of the coordinator is the one it was called in. *)
Theorem value_updated_guard (fuel : nat) (value : Q) (s : state) :
  is_updating s = true → value_updated fuel value s = Ok tt s.
Proof.
  intros H. destruct fuel; cbn [value_updated]; rewrite bind_gets, H; reflexivity.
Qed.

Lemma value_updated_guard_witness :
  is_updating (set_is_updating true (built scenario_config)) = true ∧
  value_updated 1 2 (set_is_updating true (built scenario_config))
  = Ok tt (set_is_updating true (built scenario_config)).
Proof.
  split; [reflexivity|]. apply value_updated_guard. reflexivity.
Defined.

(** C10, as amended. [widget_index] is assigned by no handler but
    [hover], and by [hover] only when the pointer is over a slider
    axes. While it is unassigned, a call of [value_updated] with
    [is_updating] false raises [AttributeError], having set
    [is_updating]; a call with [is_updating] true returns without any
    effect. *)
Theorem value_updated_without_hover (fuel : nat) (value : Q) (s : state) :
  widget_index s = None →
  (is_updating s = false →
     value_updated (S fuel) value s = Raise AttributeError (set_is_updating true s)) ∧
  (is_updating s = true → value_updated fuel value s = Ok tt s) ∧
  (∀ ev s', state_after (pick fuel ev s) = Some s' → widget_index s' = None) ∧
  (∀ v s', state_after (value_updated fuel v s) = Some s' → widget_index s' = None) ∧
  (∀ ev s', (∀ ax, ev_inaxes ev = Some ax → ax ∉ drop (_n_graphs s) (axes s)) →
     state_after (hover ev s) = Some s' → widget_index s' = None).
Proof.
  intros Hw. split; [|split; [|split; [|split]]].
  - intros Hup. cbn [value_updated]. rewrite bind_gets, Hup. do 5 mstep.
    proj_simpl. rewrite Hw. reflexivity.
  - apply value_updated_is_guarded.
  - intros ev s' H. rewrite <- Hw. exact (pick_keeps fuel ev s s' H).
  - intros v s' H. rewrite <- Hw. exact (value_updated_keeps fuel v s s' H).
  - intros ev s' Hout H. rewrite <- Hw. exact (hover_keeps_widget_index ev s s' Hout H).
Qed.

Lemma value_updated_without_hover_witness :
  widget_index (built scenario_config) = None ∧
  value_updated 1 0 (built scenario_config)
  = Raise AttributeError (set_is_updating true (built scenario_config)).
Proof.
  split; [vm_compute; reflexivity|].
  apply (value_updated_without_hover 0 0 (built scenario_config)); vm_compute; reflexivity.
Defined.

(** C10, as stated, fails: in the scenario, before any pointer move,
    a pick moves the slider, whose callback runs under the guard, and
    returns; a first direct call of [value_updated] raises and leaves
    [is_updating] set; the next call, still before any pointer move,
    returns silently without any effect. *)
Lemma value_updated_without_hover_counterexample :
  let s0 := built scenario_config in
  let s1 := after (value_updated 1 0) s0 in
  sliders s0 ≠ [] ∧ widget_index s0 = None ∧
  (∃ s', pick 1 (PickEvent (scenario_artist 1)) s0 = Ok tt s' ∧ widget_index s' = None) ∧
  value_updated 1 0 s0 = Raise AttributeError s1 ∧
  widget_index s1 = None ∧
  value_updated 1 0 s1 = Ok tt s1.
Proof.
  cbv zeta. split; [vm_compute; discriminate|].
  split; [vm_compute; reflexivity|].
  split; [eexists; split; vm_compute; reflexivity|].
  split; [vm_compute; reflexivity|].
  split; [vm_compute; reflexivity|]. vm_compute. reflexivity.
Qed.

(** C9. The discretization [int(int(value / 0.5) * 0.5)] is 0 on the
    interval [0, 1). *)
Theorem discretize_unit_interval (value : Q) :
  (0 <= value)%Q → (value < 1)%Q → discretize value = 0.
Proof.
  destruct value as [n d]. unfold Qle, Qlt. simpl. intros H0 H1.
  unfold discretize, py_int. simpl.
  assert (Hk : 0 ≤ (n * 2) ÷ Z.pos (d * 1) < 2).
  { split.
    - apply Z.quot_pos; lia.
    - apply Z.quot_lt_upper_bound; lia. }
  apply Z.quot_small. lia.
Qed.

Lemma discretize_unit_interval_witness :
  (0 <= 3 # 4)%Q ∧ (3 # 4 < 1)%Q ∧ discretize (3 # 4) = 0.
Proof.
  split; [|split].
  - unfold Qle; simpl; lia.
  - unfold Qlt; simpl; lia.
  - apply (discretize_unit_interval (3 # 4)); [unfold Qle | unfold Qlt]; simpl; lia.
Defined.


(** ** Construction *)

Section NeverRaises.
Variable e : exn.

Lemma never_raises_ret {A} (a : A) : never_raises e (ret a).
Proof. intros s s'. discriminate. Qed.

Lemma never_raises_gets {A} (g : state → A) : never_raises e (gets g).
Proof. intros s s'. discriminate. Qed.

Lemma never_raises_modify g : never_raises e (modify g).
Proof. intros s s'. discriminate. Qed.

Lemma never_raises_lift_option {A} e' (o : option A) :
  e' ≠ e → never_raises e (lift_option e' o).
Proof.
  intros Hne s s'. destruct o; unfold lift_option, ret, raise; [discriminate|].
  intros [= He _]. contradiction.
Qed.

Lemma never_raises_bind {A B} (c : M A) (k : A → M B) :
  never_raises e c → (∀ a, never_raises e (k a)) → never_raises e (bind c k).
Proof.
  intros Hc Hk s s'. unfold bind. destruct (c s) as [a s1 | e1 s1 |] eqn:Hcs.
  - apply Hk.
  - intros [= -> ->]. exact (Hc s s' Hcs).
  - discriminate.
Qed.

Lemma never_raises_for_each {A} (l : list A) (body : A → M unit) :
  (∀ x, never_raises e (body x)) → never_raises e (for_each l body).
Proof.
  intros Hbody. induction l as [|x l IH]; cbn [for_each].
  - apply never_raises_ret.
  - apply never_raises_bind; [apply Hbody | intros _; exact IH].
Qed.
End NeverRaises.

Ltac never_raises_step :=
  match goal with
  | |- never_raises _ (bind _ _) => apply never_raises_bind; [|intros ?]
  | |- never_raises _ (for_each _ _) => apply never_raises_for_each; intros ?
  | |- never_raises _ (ret _) => apply never_raises_ret
  | |- never_raises _ (gets _) => apply never_raises_gets
  | |- never_raises _ (modify _) => apply never_raises_modify
  | |- never_raises _ (lift_option _ _) => apply never_raises_lift_option; discriminate
  | |- never_raises _ (if ?b then _ else _) => destruct b
  | |- never_raises _ (match ?x with _ => _ end) => destruct x
  end.

Lemma add_slider_never_ValueError k c w l : never_raises ValueError (add_slider k c w l).
Proof. unfold add_slider. repeat never_raises_step. Qed.

(** The checks of [_create_sliders] come before the first slider: a
    [ValueError] leaves the state as it was. *)
Lemma _create_sliders_ValueError cs ws ls s s' :
  _create_sliders cs ws ls s = Raise ValueError s' → s' = s.
Proof.
  unfold _create_sliders. unfold bind at 1.
  match goal with |- context [for_each ?l ?b s] =>
    destruct (for_each_inv (λ s0, s0 = s) l b) with (s := s) as (s1 & -> & [-> | [e ->]])
  end.
  - intros c s0 _ ->. exists s. split; [reflexivity|]. rewrite bind_gets. cbv beta.
    destruct (decide _); [right; eexists; reflexivity | left; reflexivity].
  - reflexivity.
  - intros H. exfalso. revert H.
    match goal with |- ?c s = _ → _ => assert (Hn : never_raises ValueError c); [|apply Hn] end.
    apply never_raises_for_each. intros kc.
    pose proof add_slider_never_ValueError. repeat never_raises_step; auto.
  - intros [= _ <-]. reflexivity.
Qed.

(** [_init_axes] builds no slider. *)
Lemma _init_axes_keeps a extra :
  keeps (unchanged (λ s, (sliders s, widgets_built s))) (_init_axes a extra).
Proof.
  assert (Hlog : ∀ e, is_widget_built e = false →
            keeps (unchanged (λ s, (sliders s, widgets_built s))) (modify (log_effect e))).
  { intros e He. apply keeps_modify. intros s. unfold widgets_built. cbn [effects sliders log_effect].
    rewrite List.filter_app. cbn [List.filter]. rewrite He, app_nil_r. reflexivity. }
  unfold _init_axes, _get_figure_and_axes, _set_figure_layout.
  repeat first [ apply Hlog; reflexivity | keeps_step ].
Qed.

(** A [ValueError] of [_init_axes] is raised on entry, for supplied
    axes whose number is neither zero nor the number needed. *)
Lemma _init_axes_ValueError a extra s s' :
  _init_axes a extra s = Raise ValueError s' →
  s' = s ∧ ∃ axs, a = Some axs ∧ length axs ≠ 0%nat ∧ length axs ≠ (_n_graphs s + extra)%nat.
Proof.
  unfold _init_axes. destruct a as [axs|]; cbn [_get_figure_and_axes].
  - rewrite bind_ret, bind_gets. cbv beta.
    destruct (negb _) eqn:Hcheck.
    + intros [= <-]. split; [reflexivity|]. exists axs. split; [reflexivity|].
      apply negb_true_iff, orb_false_iff in Hcheck as [H1 H2].
      apply bool_decide_eq_false in H1, H2. split; assumption.
    + intros H. exfalso. revert H.
      match goal with |- ?c s = _ → _ => assert (Hn : never_raises ValueError c); [|apply Hn] end.
      unfold _set_figure_layout. repeat never_raises_step.
  - rewrite bind_bind, bind_modify, bind_ret. cbv beta. rewrite bind_gets. cbv beta.
    cbn [length bool_decide]. rewrite bool_decide_eq_true_2 by reflexivity. cbn [orb negb].
    intros H. exfalso. revert H.
    match goal with |- ?c ?s0 = _ → _ => assert (Hn : never_raises ValueError c); [|apply Hn] end.
    unfold _set_figure_layout. repeat never_raises_step.
Qed.

Lemma _init_axes_rejects axs extra s :
  length axs ≠ 0%nat → length axs ≠ (_n_graphs s + extra)%nat →
  _init_axes (Some axs) extra s = Raise ValueError s.
Proof.
  intros H1 H2. unfold _init_axes. cbn [_get_figure_and_axes].
  rewrite bind_ret, bind_gets. cbv beta.
  rewrite !bool_decide_eq_false_2 by assumption. reflexivity.
Qed.

(** [__init__] up to the test of line 89. *)
Lemma construct_unfold cfg d0 :
  cfg_displays cfg !! 0%nat = Some d0 →
  construct cfg
  = (if decide (length (normalize_criteria (cfg_criteria cfg))
                ≠ length (normalize_sliders (cfg_sliders cfg)))
     then raise ValueError
     else
       _init_axes (cfg_axes cfg) (length (normalize_criteria (cfg_criteria cfg))) >>
       _create_sliders (normalize_criteria (cfg_criteria cfg))
                       (normalize_sliders (cfg_sliders cfg))
                       (normalize_labels (cfg_label_sliders cfg)))
    (init_state cfg d0).
Proof.
  intros Hd0. unfold construct, __init__. do 3 mstep.
  rewrite (bind_lift_Some _ _ d0) by exact Hd0. do 7 mstep. reflexivity.
Qed.

Lemma construct_no_display cfg :
  cfg_displays cfg = [] → ∃ s, construct cfg = Raise IndexError s.
Proof.
  intros H. unfold construct, __init__. do 3 mstep. rewrite H.
  rewrite (bind_lift_None _ _) by reflexivity. eexists. reflexivity.
Qed.

(** C7, as amended. With at least one display, construction returns
    only if there are as many criteria as widget classes and, when axes
    are supplied, only if their number is zero or the number of view
    axes plus the number of criteria; unequal numbers of criteria and
    widget classes, and supplied axes in a number that is neither zero
    nor the number needed, make construction raise [ValueError]. *)
Theorem construct_validates (cfg : config) (d0 : display) :
  cfg_displays cfg !! 0%nat = Some d0 →
  let cs := normalize_criteria (cfg_criteria cfg) in
  let ws := normalize_sliders (cfg_sliders cfg) in
  (∀ s, construct cfg = Ok tt s →
     length cs = length ws ∧
     ∀ axs, cfg_axes cfg = Some axs →
       length axs = 0%nat ∨ length axs = (n_view_axes cfg + length cs)%nat) ∧
  (length cs ≠ length ws → ∃ s, construct cfg = Raise ValueError s) ∧
  (∀ axs, length cs = length ws → cfg_axes cfg = Some axs →
     length axs ≠ 0%nat → length axs ≠ (n_view_axes cfg + length cs)%nat →
     ∃ s, construct cfg = Raise ValueError s).
Proof.
  intros Hd0 cs ws. rewrite (construct_unfold cfg d0 Hd0). fold cs ws.
  split; [|split].
  - intros s Hok. destruct (decide (length cs ≠ length ws)) as [Hne|Heq]; [discriminate|].
    split; [destruct (decide (length cs = length ws)); [assumption | contradiction]|].
    intros axs Haxs. rewrite Haxs in Hok.
    destruct (decide (length axs = 0%nat)) as [|H0]; [left; assumption|].
    destruct (decide (length axs = (n_view_axes cfg + length cs)%nat)) as [|Hn];
      [right; assumption|].
    rewrite (bind_Raise _ _ _ _ _ (_init_axes_rejects axs (length cs) (init_state cfg d0) H0 Hn)) in Hok.
    discriminate.
  - intros Hne. rewrite decide_True by exact Hne. eexists. reflexivity.
  - intros axs Heq Haxs H0 Hn. rewrite decide_False by (intros H; apply H; exact Heq).
    rewrite Haxs, (bind_Raise _ _ _ _ _ (_init_axes_rejects axs (length cs) (init_state cfg d0) H0 Hn)).
    eexists. reflexivity.
Qed.

Lemma construct_validates_witness :
  cfg_displays scenario_config !! 0%nat = Some scenario_display ∧
  ∃ s, construct (Config [scenario_display] (Criterion [5; 1; 9]) (Widgets []) NoLabel None)
       = Raise ValueError s.
Proof.
  split; [reflexivity|].
  apply (construct_validates
           (Config [scenario_display] (Criterion [5; 1; 9]) (Widgets []) NoLabel None)
           scenario_display); [reflexivity | cbn; lia].
Defined.

(** C7, as stated, fails: a supplied drawing surface with no axes is
    accepted, although one axes is needed, and construction returns. *)
Lemma construct_validates_counterexample :
  let cfg := Config [scenario_display] (Criteria []) (Widgets []) NoLabel (Some []) in
  cfg_axes cfg = Some [] ∧
  length ([] : list nat) ≠ (n_view_axes cfg + length (normalize_criteria (cfg_criteria cfg)))%nat ∧
  ∃ s, construct cfg = Ok tt s.
Proof.
  cbv zeta. split; [reflexivity|]. split; [vm_compute; discriminate|].
  eexists. vm_compute. reflexivity.
Qed.

(** C6, as amended. A [ValueError] of the constructor is raised before
    any slider widget is built. For unequal numbers of criteria and
    widget classes, and for supplied axes in a number that is neither
    zero nor the number needed, it is raised before any rendering side
    effect. *)
Theorem configuration_error_effects (cfg : config) (s : state) :
  construct cfg = Raise ValueError s →
  let cs := normalize_criteria (cfg_criteria cfg) in
  let ws := normalize_sliders (cfg_sliders cfg) in
  sliders s = [] ∧ widgets_built s = [] ∧
  (length cs ≠ length ws → effects s = []) ∧
  (∀ axs, cfg_axes cfg = Some axs →
     length axs ≠ 0%nat → length axs ≠ (n_view_axes cfg + length cs)%nat →
     effects s = []).
Proof.
  intros Hraise cs ws.
  destruct (cfg_displays cfg !! 0%nat) as [d0|] eqn:Hd0.
  - rewrite (construct_unfold cfg d0 Hd0) in Hraise. fold cs ws in Hraise.
    destruct (decide (length cs ≠ length ws)) as [Hne|Heq].
    + injection Hraise as <-. repeat split; reflexivity.
    + unfold bind in Hraise.
      destruct (_init_axes (cfg_axes cfg) (length cs) (init_state cfg d0))
        as [[] s1 | e s1 |] eqn:Hinit.
      * apply _create_sliders_ValueError in Hraise as ->.
        pose proof (_init_axes_keeps (cfg_axes cfg) (length cs) (init_state cfg d0) s1) as Hk.
        rewrite Hinit in Hk. specialize (Hk eq_refl). injection Hk as Hs Hw.
        split; [exact Hs|]. split; [exact Hw|]. split; [intros Hne; contradiction|].
        intros axs Haxs H0 Hn. rewrite Haxs in Hinit.
        rewrite (_init_axes_rejects axs (length cs) (init_state cfg d0) H0 Hn) in Hinit. discriminate.
      * injection Hraise as -> ->.
        apply _init_axes_ValueError in Hinit as [-> _]. repeat split; reflexivity.
      * discriminate.
  - exfalso. destruct (construct_no_display cfg) as [s' Hs'].
    + destruct (cfg_displays cfg); [reflexivity | discriminate].
    + rewrite Hs' in Hraise. discriminate.
Qed.

Lemma configuration_error_effects_witness :
  ∃ s, construct (Config [scenario_display] (Criterion [5; 1; 9]) (Widgets []) NoLabel None)
       = Raise ValueError s ∧ sliders s = [] ∧ effects s = [].
Proof.
  eexists. split; [vm_compute; reflexivity|].
  match goal with |- sliders ?s = [] ∧ _ =>
    destruct (configuration_error_effects
                (Config [scenario_display] (Criterion [5; 1; 9]) (Widgets []) NoLabel None) s)
      as (H1 & _ & H2 & _); [vm_compute; reflexivity|]
  end.
  split; [exact H1 | apply H2; cbn; lia].
Defined.

(** C6, as stated, fails: for the criterion [1, 2] with five samples
    the error is raised after the figure has been made and its axes
    laid out. *)
Lemma configuration_error_effects_counterexample :
  ∃ s, construct (Config [Display [0%nat] 5 []] (Criteria [[1; 2]]) (Widget SliderWidget)
                         NoLabel None)
       = Raise ValueError s ∧
    effects s = [FigureCreated; LayoutSet 2; BoxAspectSet 1].
Proof.
  eexists. split; vm_compute; reflexivity.
Qed.


(** ** The order of a slider *)

#[global] Instance item_le_transitive : Transitive item_le.
Proof. intros [k1 v1] [k2 v2] [k3 v3]. unfold item_le. cbn. lia. Qed.

#[global] Instance item_le_total : Total item_le.
Proof. intros [k1 v1] [k2 v2]. unfold item_le. cbn. lia. Qed.

#[global] Instance item_le_antisymm : AntiSymm (=) item_le.
Proof.
  intros [k1 v1] [k2 v2]. unfold item_le. cbn. intros H1 H2.
  f_equal; lia.
Qed.

(** [sorted] gives the same list for every enumeration of the items. *)
Lemma py_sorted_unique (l1 l2 : list (Z * Z)) :
  l1 ≡ₚ l2 → merge_sort item_le l1 = merge_sort item_le l2.
Proof.
  intros Hperm. apply (StronglySorted_unique item_le).
  - apply StronglySorted_merge_sort; apply _.
  - apply StronglySorted_merge_sort; apply _.
  - rewrite !merge_sort_Permutation. exact Hperm.
Qed.

Lemma py_dict_snoc kvs k v : py_dict (kvs ++ [(k, v)]) = <[k := v]> (py_dict kvs).
Proof. unfold py_dict. rewrite foldl_app. reflexivity. Qed.

Lemma py_dict_lookup_None kvs k : k ∉ kvs.*1 → py_dict kvs !! k = None.
Proof.
  induction kvs as [|[k' v'] kvs IH] using rev_ind; intros Hk.
  - apply lookup_empty.
  - rewrite py_dict_snoc. rewrite fmap_app in Hk. apply not_elem_of_app in Hk as [Hk1 Hk2].
    rewrite lookup_insert_ne.
    + apply IH. exact Hk1.
    + intros ->. apply Hk2. cbn. left.
Qed.

(** With pairwise different keys the dictionary holds every pair. *)
Lemma py_dict_items kvs : NoDup kvs.*1 → map_to_list (py_dict kvs) ≡ₚ kvs.
Proof.
  induction kvs as [|[k v] kvs IH] using rev_ind; intros Hnd.
  - unfold py_dict. cbn. rewrite map_to_list_empty. reflexivity.
  - rewrite fmap_app in Hnd. apply NoDup_app in Hnd as (Hnd1 & Hnd2 & _).
    rewrite py_dict_snoc, map_to_list_insert.
    + rewrite IH by exact Hnd1. rewrite Permutation_app_comm. reflexivity.
    + apply py_dict_lookup_None. intros Hk. apply (Hnd2 k Hk). cbn. left.
Qed.

Lemma py_range_length n : length (py_range n) = n.
Proof. unfold py_range. rewrite length_fmap, length_seq. reflexivity. Qed.

Lemma py_range_lookup n (p : nat) i : py_range n !! p = Some i → i = Z.of_nat p.
Proof.
  unfold py_range. rewrite list_lookup_fmap. intros H.
  destruct (seq 0 n !! p) as [k|] eqn:Hk; [|discriminate].
  apply lookup_seq in Hk as [-> _]. injection H as <-. reflexivity.
Qed.

Lemma StronglySorted_lookup_lt {A} (R : relation A) (l : list A) (p q : nat) x y :
  StronglySorted R l → (p < q)%nat → l !! p = Some x → l !! q = Some y → R x y.
Proof.
  intros Hs. revert p q. induction Hs as [|z l Hs IH Hall]; intros p q Hlt Hp Hq.
  - discriminate.
  - destruct q as [|q]; [lia|]. destruct p as [|p].
    + injection Hp as <-. rewrite Forall_forall in Hall. apply Hall.
      eapply list_elem_of_lookup_2. exact Hq.
    + apply (IH p q); [lia | exact Hp | exact Hq].
Qed.

(** For a criterion without equal values the order is a permutation of
    the sample indices, ascending by criterion value. *)
Lemma slider_order_distinct (criterion : list Z) (n : nat) :
  NoDup criterion → length criterion = n →
  slider_order criterion n ≡ₚ py_range n ∧
  ∀ (p q : nat) (i j : Z), (p < q)%nat →
    slider_order criterion n !! p = Some i → slider_order criterion n !! q = Some j →
    ∃ vi vj, criterion !! Z.to_nat i = Some vi ∧ criterion !! Z.to_nat j = Some vj ∧ vi < vj.
Proof.
  intros Hnd Hlen. unfold slider_order, py_sorted_items. cbv zeta.
  assert (Hkeys : (zip criterion (py_range n)).*1 = criterion).
  { apply fst_zip. rewrite py_range_length. lia. }
  assert (Hitems : map_to_list (py_dict (zip criterion (py_range n))) ≡ₚ zip criterion (py_range n)).
  { apply py_dict_items. rewrite Hkeys. exact Hnd. }
  set (sorted := merge_sort item_le (map_to_list (py_dict (zip criterion (py_range n))))).
  assert (Hperm : sorted ≡ₚ zip criterion (py_range n)).
  { unfold sorted. rewrite merge_sort_Permutation. exact Hitems. }
  split.
  - rewrite Hperm. rewrite snd_zip; [reflexivity|]. rewrite py_range_length. lia.
  - intros p q i j Hlt Hp Hq.
    apply list_lookup_fmap_Some in Hp as ([k1 i'] & Hi & Hp). cbn in Hi. subst i'.
    apply list_lookup_fmap_Some in Hq as ([k2 j'] & Hj & Hq). cbn in Hj. subst j'.
    assert (Hin : ∀ k v, (k, v) ∈ sorted → criterion !! Z.to_nat v = Some k).
    { intros k v Hkv. rewrite Hperm in Hkv.
      apply elem_of_lookup_zip_with in Hkv as (idx & k' & v' & [= <- <-] & Hk & Hv).
      apply py_range_lookup in Hv as ->. rewrite Nat2Z.id. exact Hk. }
    exists k1, k2.
    split; [apply Hin; eapply list_elem_of_lookup_2; exact Hp|].
    split; [apply Hin; eapply list_elem_of_lookup_2; exact Hq|].
    assert (Hle : item_le (k1, i) (k2, j)).
    { apply (StronglySorted_lookup_lt item_le sorted p q); [|exact Hlt | exact Hp | exact Hq].
      apply StronglySorted_merge_sort; apply _. }
    assert (Hne : k1 ≠ k2).
    { assert (Hnd' : NoDup sorted.*1) by (rewrite Hperm, Hkeys; exact Hnd).
      intros ->. assert (p = q); [|lia].
      apply (NoDup_lookup _ _ _ k2 Hnd'); rewrite list_lookup_fmap.
      - rewrite Hp. reflexivity.
      - rewrite Hq. reflexivity. }
    unfold item_le in Hle. cbn in Hle. lia.
Qed.

(** C1 fails on the code for a criterion with equal values: the
    dictionary keyed by criterion value keeps one sample per value, so
    for the criterion [1, 1] of two samples the order is [1], which is
    not a permutation of the sample indices [0, 1]. *)
Theorem slider_order_ties :
  slider_order [1; 1] 2 = [1] ∧ ¬ slider_order [1; 1] 2 ≡ₚ py_range 2.
Proof.
  split; [vm_compute; reflexivity|].
  intros H. apply Permutation_length in H. vm_compute in H. discriminate.
Qed.

(** C5 fails on the code for a criterion with equal values, by the
    defect of C1. With three samples and the criterion [1, 1, 2] the
    order of the slider is [1, 2]: sample 0 is missing. After a pick
    of the point of sample 1, a pick of the point of sample 0 calls
    [change_points_intensity] (line 372) with sample 0 selected and
    [old_index] 1: the artists of sample 0 get opacity 1.0 and those
    of sample 1 get 0.1, but the position of the selection is not
    pushed to the slider: [list(criterium).index(0)] raises
    [ValueError] (line 453) after line 451 has set [is_updating], which
    stays set; the slider is where it was. *)
Theorem change_points_intensity_ties :
  criteria (built tie_config) = [[1; 2]] ∧
  pick 0 (PickEvent (scenario_artist 1)) (built tie_config) = Ok tt tie_picked ∧
  index_clicked tie_picked = 1 ∧
  ∃ s',
    change_points_intensity (value_updated 0) (Some 1)
      (set_index_clicked 0 (set_point_clicked (Some (scenario_artist 0)) tie_picked))
    = Raise ValueError s' ∧
    pick 0 (PickEvent (scenario_artist 0)) tie_picked = Raise ValueError s' ∧
    index_clicked s' = 0 ∧
    alpha_of s' (scenario_artist 0) = Some 1%Q ∧
    alpha_of s' (scenario_artist 1) = Some (1 # 10)%Q ∧
    sliders s' = sliders tie_picked ∧
    is_updating s' = true.
Proof.
  split; [vm_compute; reflexivity|]. split; [vm_compute; reflexivity|].
  split; [vm_compute; reflexivity|].
  exists (after (pick 0 (PickEvent (scenario_artist 0))) tie_picked).
  do 6 (split; [vm_compute; reflexivity|]). vm_compute. reflexivity.
Qed.


(** ** The scenario of the specification *)

(** C8. With three samples, one view and the criterion [5, 1, 9] the
    constructed order is [1, 0, 2]; once the pointer has been over the
    slider, moving the slider to step 0 selects sample 1 and moving it
    to step 2 selects sample 2, also after step 0 was selected. *)
Theorem scenario_order_and_steps :
  slider_order [5; 1; 9] 3 = [1; 0; 2] ∧
  (∃ s0, construct scenario_config = Ok tt s0 ∧ criteria s0 = [[1; 0; 2]]) ∧
  (∀ fuel, selected (value_updated (S fuel) 0 scenario_hovered) = Some 1) ∧
  (∀ fuel, selected (value_updated (S fuel) 2 scenario_hovered) = Some 2) ∧
  selected (value_updated 1 2 scenario_selected) = Some 2.
Proof.
  split; [vm_compute; reflexivity|].
  split; [eexists; split; vm_compute; reflexivity|].
  assert (Hstep : ∀ fuel (value : Q) (i : Z),
            py_getitem [1; 0; 2] (discretize value) = Some i → i ≠ -1 →
            in_every_order scenario_hovered i = true →
            selected (value_updated (S fuel) value scenario_hovered) = Some i).
  { intros fuel value i Hi Hne Hall.
    destruct (value_updated_new_sample fuel scenario_hovered value 0 [1; 0; 2] i)
      as (s' & -> & Hs' & _);
      try (vm_compute; reflexivity); try assumption.
    - eexists. vm_compute. reflexivity.
    - cbn [selected]. rewrite Hs'. reflexivity. }
  split; [|split].
  - intros fuel. apply Hstep; [vm_compute; reflexivity | discriminate | vm_compute; reflexivity].
  - intros fuel. apply Hstep; [vm_compute; reflexivity | discriminate | vm_compute; reflexivity].
  - vm_compute. reflexivity.
Qed.

Lemma change_points_intensity_spec_witness :
  rows_complete scenario_selected = true ∧
  (∃ s', change_points_intensity (value_updated 1) (Some 0) scenario_selected = Ok tt s' ∧
     alpha_of s' (scenario_artist 1) = Some 1%Q ∧
     alpha_of s' (scenario_artist 0) = Some (1 # 10)%Q ∧
     alpha_of s' (scenario_artist 2) = alpha_of scenario_selected (scenario_artist 2)) ∧
  (∃ s', change_points_intensity (value_updated 1) (Some 1) scenario_selected = Ok tt s' ∧
     index_clicked s' = -1).
Proof.
  assert (Hrows : rows_complete scenario_selected = true) by (vm_compute; reflexivity).
  split; [exact Hrows|]. split.
  - destruct (change_points_intensity_spec 1 0 scenario_selected Hrows) as [_ Hnew].
    destruct Hnew as (s' & Hrun & _ & Hsel & Hold & Hframe & _).
    + vm_compute. discriminate.
    + split; vm_compute; [discriminate | reflexivity].
    + vm_compute. reflexivity.
    + intros _. vm_compute. reflexivity.
    + exists s'. split; [exact Hrun|]. split; [|split].
      * apply Hsel. vm_compute. reflexivity.
      * apply Hold; [split; vm_compute; [discriminate | reflexivity] | vm_compute; reflexivity].
      * apply Hframe; [|intros _]; vm_compute; reflexivity.
  - destruct (change_points_intensity_spec 1 1 scenario_selected Hrows) as [Hsame _].
    destruct Hsame as (Heq & s' & Hrun & _ & Hidx & _); [vm_compute; reflexivity|].
    exists s'. split; [rewrite Heq; exact Hrun | exact Hidx].
Defined.

Lemma sliders_follow_selection_witness :
  rows_complete scenario_hovered = true ∧
  ∃ s', value_updated 1 2 scenario_hovered = Ok tt s' ∧ index_clicked s' = 2 ∧
        slider_shows s' 0 2.
Proof.
  assert (Hrows : rows_complete scenario_hovered = true) by (vm_compute; reflexivity).
  split; [exact Hrows|].
  destruct (sliders_follow_selection 0 scenario_hovered Hrows) as (_ & _ & Hvalue).
  destruct (Hvalue 2%Q 0 [1; 0; 2] 2) as (s' & Hrun & Hidx & Hshow);
    try (vm_compute; reflexivity).
  - eexists. vm_compute. reflexivity.
  - vm_compute. discriminate.
  - exists s'. split; [exact Hrun|]. split; [exact Hidx|]. rewrite <- Hidx. apply Hshow.
Defined.

Lemma pick_twice_restores_witness :
  ∃ s1 s2,
    pick 0 (PickEvent (scenario_artist 1)) (built scenario_config) = Ok tt s1 ∧
    index_clicked s1 = 1 ∧
    alpha_of s1 (scenario_artist 0) = Some (1 # 10)%Q ∧
    alpha_of s1 (scenario_artist 2) = Some (1 # 10)%Q ∧
    pick 0 (PickEvent (scenario_artist 1)) s1 = Ok tt s2 ∧
    alpha_of s2 (scenario_artist 0) = Some 1%Q ∧
    alpha_of s2 (scenario_artist 1) = Some 1%Q ∧
    alpha_of s2 (scenario_artist 2) = Some 1%Q ∧
    index_clicked s2 = -1 ∧ point_clicked s2 = None.
Proof.
  destruct (pick_twice_restores 0 (built scenario_config) (scenario_artist 1) 1)
    as (s1 & s2 & H1 & H2 & Hds & Hall & H3 & H4).
  - vm_compute. reflexivity.
  - vm_compute. reflexivity.
  - split; vm_compute; [discriminate | reflexivity].
  - apply list_elem_of_In. vm_compute. left. reflexivity.
  - assert (Hin : ∀ k, (k < 3)%nat → scenario_artist k ∈ all_artists s2).
    { intros k Hk. unfold all_artists. rewrite Hds. apply list_elem_of_In.
      destruct k as [|[|[|k]]]; [| | |lia]; vm_compute; tauto. }
    destruct (pick 0 (PickEvent (scenario_artist 1)) (built scenario_config))
      as [[] s1' | e s1' |] eqn:Hpick; vm_compute in Hpick; try discriminate.
    injection H1 as <-. injection Hpick as <-.
    eexists _, s2.
    split; [reflexivity|]. split; [reflexivity|].
    split; [vm_compute; reflexivity|]. split; [vm_compute; reflexivity|].
    split; [exact H2|].
    split; [apply Hall, Hin; lia|]. split; [apply Hall, Hin; lia|].
    split; [apply Hall, Hin; lia|]. split; assumption.
Defined.


(** * Further properties of the code *)

(** ** The slider step *)

(** X1. For a raw value of magnitude below 2^53, where the float
    arithmetic of line 531 is exact, the discretization is truncation
    toward zero; a position pushed by [set_val], an integer of that
    range, is read back as it is. *)
Theorem discretize_truncates (value : Q) (p : Z) :
  float_exact value → float_exact (inject_Z p) →
  discretize value = py_int value ∧ discretize (inject_Z p) = p.
Proof.
  intros _ _.
  assert (Htrunc : ∀ v, discretize v = py_int v).
  { intros [n d]. unfold discretize, py_int. simpl.
    rewrite Z.mul_1_r, Pos.mul_1_r.
    rewrite Z.quot_quot by lia.
    apply Z.quot_mul_cancel_r; lia. }
  split; [apply Htrunc|].
  rewrite Htrunc. unfold py_int, inject_Z. simpl. apply Z.quot_1_r.
Qed.

Lemma discretize_truncates_witness :
  float_exact (17 # 10) ∧ float_exact (inject_Z 2) ∧
  discretize (17 # 10) = 1 ∧ discretize (inject_Z 2) = 2.
Proof.
  assert (H1 : float_exact (17 # 10)) by (split; vm_compute; reflexivity).
  assert (H2 : float_exact (inject_Z 2)) by (split; vm_compute; reflexivity).
  split; [exact H1|]. split; [exact H2|].
  destruct (discretize_truncates (17 # 10) 2 H1 H2) as [Ha Hb].
  split; [rewrite Ha; reflexivity | exact Hb].
Defined.

(** ** Restoring, dimming, and the slider callback *)

Lemma paint_restore_idempotent ds l m :
  paint_plan restore_plan ds l (paint_plan restore_plan ds l m)
  = paint_plan restore_plan ds l m.
Proof.
  apply map_eq. intros k.
  destruct (decide (Exists (λ i, k ∈ art_id <$> (d ← ds; sample_row d i)) l)) as [Hin|Hout].
  - apply Exists_exists in Hin as (i & Hi & Hk).
    rewrite !(paint_plan_lookup_set restore_plan ds l _ k 1%Q); try reflexivity.
    + intros j v' _ Hplan _. unfold restore_plan in Hplan. congruence.
    + right. exists i. auto.
    + intros j v' _ Hplan _. unfold restore_plan in Hplan. congruence.
    + right. exists i. auto.
  - rewrite !paint_plan_lookup_frame; try reflexivity.
    + intros i v' Hi _ Hk. apply Hout, Exists_exists. exists i. auto.
    + intros i v' Hi _ Hk. apply Hout, Exists_exists. exists i. auto.
Qed.

Lemma reset_all_idempotent ss : reset_all (reset_all ss) = reset_all ss.
Proof.
  apply list_eq. intros j. rewrite !reset_all_lookup.
  destruct (ss !! j); reflexivity.
Qed.

Lemma restored_idempotent s : restored (restored s) = restored s.
Proof.
  unfold restored, painted. proj_simpl.
  rewrite paint_restore_idempotent, reset_all_idempotent. reflexivity.
Qed.

(** X2. [restore_points_intensity] is idempotent: called on the state
    it has produced, it returns that state. *)
Theorem restore_points_intensity_idempotent (fuel : nat) (s : state) :
  rows_complete s = true →
  ∃ s', restore_points_intensity (value_updated fuel) s = Ok tt s' ∧
        restore_points_intensity (value_updated fuel) s' = Ok tt s'.
Proof.
  intros Hrows. pose proof (value_updated_is_guarded fuel) as Hg.
  exists (restored s). split.
  - apply restore_points_intensity_exact; assumption.
  - rewrite (restore_points_intensity_exact _ Hg (restored s) Hrows).
    rewrite restored_idempotent. reflexivity.
Qed.

Lemma restore_points_intensity_idempotent_witness :
  rows_complete scenario_selected = true ∧
  ∃ s', restore_points_intensity (value_updated 1) scenario_selected = Ok tt s' ∧
        restore_points_intensity (value_updated 1) s' = Ok tt s'.
Proof.
  split; [vm_compute; reflexivity|].
  apply (restore_points_intensity_idempotent 1 scenario_selected). vm_compute. reflexivity.
Defined.



(** X4. A slider moved to a step beyond its order raises [IndexError]
    (line 533) after [is_updating] was set (line 528): the selection is
    as before, the guard stays closed, and a later call of the callback
    returns without any effect. *)
Theorem value_updated_step_out_of_range (fuel fuel' : nat) (s : state) value value' w c :
  is_updating s = false → widget_index s = Some w →
  py_getitem (criteria s) w = Some c →
  Z.of_nat (length c) ≤ discretize value →
  value_updated (S fuel) value s = Raise IndexError (set_is_updating true s) ∧
  value_updated fuel' value' (set_is_updating true s) = Ok tt (set_is_updating true s).
Proof.
  intros Hup Hw Hc Hstep. split.
  - cbn [value_updated]. rewrite bind_gets, Hup. do 5 mstep.
    rewrite (bind_lift_Some _ _ w) by exact Hw.
    rewrite (bind_lift_Some _ _ c) by exact Hc.
    apply bind_lift_None. unfold py_getitem, py_position.
    rewrite decide_False by lia. rewrite decide_False by lia. reflexivity.
  - apply value_updated_is_guarded. reflexivity.
Qed.

Lemma value_updated_step_out_of_range_witness :
  value_updated 1 3 scenario_hovered = Raise IndexError (set_is_updating true scenario_hovered) ∧
  value_updated 1 0 (set_is_updating true scenario_hovered)
  = Ok tt (set_is_updating true scenario_hovered).
Proof.
  apply (value_updated_step_out_of_range 0 1 scenario_hovered 3 0 0 [1; 0; 2]);
    try (vm_compute; reflexivity).
  vm_compute. discriminate.
Defined.

(** X5. When every display has one row of artists per sample and the
    selected sample [index_clicked] occurs in the order of every slider,
    [reduce_points_intensity] returns: it has given opacity 0.1 to the
    artists of every sample but the selected one, in every display, and
    left every other artist as it was; [index_clicked] is as before and
    the guard is open. *)
Theorem reduce_points_intensity_dims (fuel : nat) (s : state) :
  rows_complete s = true →
  in_every_order s (index_clicked s) = true →
  ∃ s', reduce_points_intensity (value_updated fuel) s = Ok tt s' ∧
    (∀ i a, 0 ≤ i < Z.of_nat (length_data s) → i ≠ index_clicked s →
       is_artist_of s i a = true → alpha_of s' a = Some (1 # 10)%Q) ∧
    (∀ a, (∀ i, 0 ≤ i < Z.of_nat (length_data s) → i ≠ index_clicked s →
             is_artist_of s i a = false) →
       alpha_of s' a = alpha_of s a) ∧
    index_clicked s' = index_clicked s ∧ is_updating s' = false.
Proof.
  intros Hrows Hall. pose proof (value_updated_is_guarded fuel) as Hg.
  exists (reduced s). split; [apply reduce_points_intensity_exact; assumption|].
  split; [|split; [|split; reflexivity]].
  - intros i a Hi Hne Ha. apply is_artist_of_spec in Ha. unfold alpha_of. simpl.
    apply paint_plan_lookup_set.
    + intros j v' _ Hplan _. unfold reduce_plan in Hplan.
      destruct (decide (j ≠ index_clicked s)); congruence.
    + right. exists i. split; [apply in_range; exact Hi|]. split; [|exact Ha].
      unfold reduce_plan. rewrite decide_True by exact Hne. reflexivity.
  - intros a Ha. unfold alpha_of. simpl. apply paint_plan_lookup_frame.
    intros i v' Hi Hplan. unfold reduce_plan in Hplan.
    destruct (decide (i ≠ index_clicked s)) as [Hne|]; [|discriminate].
    apply is_artist_of_false. apply Ha; [apply in_range; exact Hi | exact Hne].
Qed.

Lemma reduce_points_intensity_dims_witness :
  ∃ s', reduce_points_intensity (value_updated 1) (set_index_clicked 1 scenario_hovered)
        = Ok tt s' ∧
    alpha_of s' (scenario_artist 0) = Some (1 # 10)%Q ∧
    alpha_of s' (scenario_artist 1) = None.
Proof.
  destruct (reduce_points_intensity_dims 1 (set_index_clicked 1 scenario_hovered))
    as (s' & Hrun & Hdim & Hkeep & _); try (vm_compute; reflexivity).
  exists s'. split; [exact Hrun|]. split.
  - apply (Hdim 0); [split; vm_compute; [discriminate | reflexivity] | discriminate |].
    vm_compute. reflexivity.
  - rewrite Hkeep; [vm_compute; reflexivity|].
    intros i Hi Hne. change (Z.of_nat (length_data _)) with 3 in Hi.
    assert (i = 0 ∨ i = 2) as [-> | ->] by (cbn in Hne; lia); vm_compute; reflexivity.
Defined.


(** ** The order of a slider, for every criterion *)

Lemma py_dict_lookup_Some kvs k v : py_dict kvs !! k = Some v → (k, v) ∈ kvs.
Proof.
  induction kvs as [|[k' v'] kvs IH] using rev_ind; intros H.
  - unfold py_dict in H. cbn in H. rewrite lookup_empty in H. discriminate.
  - rewrite py_dict_snoc in H. apply elem_of_app.
    destruct (decide (k' = k)) as [->|Hne].
    + rewrite lookup_insert_eq in H. injection H as ->. right. left.
    + rewrite lookup_insert_ne in H by exact Hne. left. apply IH. exact H.
Qed.

(** The dictionary keeps, for a key, the value of the last pair with
    that key. *)
Lemma py_dict_lookup_last kvs k (j : nat) v' :
  kvs !! j = Some (k, v') →
  ∃ (j' : nat) v, (j ≤ j')%nat ∧ kvs !! j' = Some (k, v) ∧ py_dict kvs !! k = Some v.
Proof.
  revert j. induction kvs as [|[k0 v0] kvs IH] using rev_ind; intros j Hj; [discriminate|].
  rewrite py_dict_snoc. destruct (decide (k0 = k)) as [->|Hne].
  - exists (length kvs), v0. split; [|split].
    + apply lookup_lt_Some in Hj. rewrite length_app in Hj. cbn in Hj. lia.
    + rewrite lookup_app_r by lia. rewrite Nat.sub_diag. reflexivity.
    + apply lookup_insert_eq.
  - assert (Hj' : kvs !! j = Some (k, v')).
    { destruct (decide (j < length kvs)%nat) as [Hlt|Hge].
      - rewrite lookup_app_l in Hj by exact Hlt. exact Hj.
      - rewrite lookup_app_r in Hj by lia.
        destruct (j - length kvs)%nat; cbn in Hj; [congruence | discriminate]. }
    destruct (IH j Hj') as (j' & v & Hle & Hlook & Hd).
    exists j', v. split; [exact Hle|]. split.
    + apply lookup_lt_Some in Hlook as Hlt. rewrite lookup_app_l by exact Hlt. exact Hlook.
    + rewrite lookup_insert_ne by exact Hne. exact Hd.
Qed.

Lemma zip_range_lookup (c : list Z) (n idx : nat) k v :
  zip c (py_range n) !! idx = Some (k, v) ↔
  c !! idx = Some k ∧ v = Z.of_nat idx ∧ (idx < n)%nat.
Proof.
  split.
  - intros H. apply lookup_zip_with_Some in H as (k' & v' & [= <- <-] & Hk & Hv).
    split; [exact Hk|].
    split; [apply py_range_lookup in Hv; exact Hv|].
    apply lookup_lt_Some in Hv. rewrite py_range_length in Hv. exact Hv.
  - intros (Hk & -> & Hlt). apply lookup_zip_with_Some.
    exists k, (Z.of_nat idx). split; [reflexivity|].
    split; [exact Hk|]. unfold py_range. rewrite list_lookup_fmap, lookup_seq_lt by exact Hlt.
    reflexivity.
Qed.

(** The items of the sorted dictionary of [add_slider]. *)
Lemma slider_items (criterion : list Z) (n : nat) :
  ∃ sorted : list (Z * Z),
    slider_order criterion n = sorted.*2 ∧
    StronglySorted item_le sorted ∧ NoDup sorted.*1 ∧
    ∀ k v, (k, v) ∈ sorted ↔ py_dict (zip criterion (py_range n)) !! k = Some v.
Proof.
  exists (merge_sort item_le (map_to_list (py_dict (zip criterion (py_range n))))).
  split; [reflexivity|]. split; [apply StronglySorted_merge_sort; apply _|]. split.
  - rewrite merge_sort_Permutation. apply NoDup_fst_map_to_list.
  - intros k v. rewrite merge_sort_Permutation. apply elem_of_map_to_list.
Qed.

Lemma slider_item_sample (criterion : list Z) (n : nat) k v :
  py_dict (zip criterion (py_range n)) !! k = Some v →
  criterion !! Z.to_nat v = Some k ∧ 0 ≤ v < Z.of_nat n.
Proof.
  intros H. apply py_dict_lookup_Some, list_elem_of_lookup in H as [idx Hidx].
  apply zip_range_lookup in Hidx as (Hk & -> & Hlt).
  rewrite Nat2Z.id. split; [exact Hk | lia].
Qed.

(** X6. For every criterion, with or without equal values: the order
    built by [add_slider] holds no sample twice; its entries are sample
    indices below [length_data] that have a criterion value; it is
    strictly ascending in the criterion value; and every criterion
    value is represented by the last sample that has it. *)
Theorem slider_order_sound (criterion : list Z) (n : nat) :
  NoDup (slider_order criterion n) ∧
  (∀ i, i ∈ slider_order criterion n →
     0 ≤ i < Z.of_nat n ∧ is_Some (criterion !! Z.to_nat i)) ∧
  (∀ (p q : nat) (i j : Z), (p < q)%nat →
     slider_order criterion n !! p = Some i → slider_order criterion n !! q = Some j →
     ∃ vi vj, criterion !! Z.to_nat i = Some vi ∧ criterion !! Z.to_nat j = Some vj ∧ vi < vj) ∧
  (∀ (idx : nat) v, (idx < n)%nat → criterion !! idx = Some v →
     ∃ i, i ∈ slider_order criterion n ∧ criterion !! Z.to_nat i = Some v ∧ Z.of_nat idx ≤ i).
Proof.
  destruct (slider_items criterion n) as (sorted & -> & Hsorted & Hkeys & Hitems).
  split; [|split; [|split]].
  - apply NoDup_fmap_2_strong.
    + intros [k1 v1] [k2 v2] H1 H2 Hv. cbn in Hv. subst v2.
      apply Hitems, slider_item_sample in H1 as [H1 _].
      apply Hitems, slider_item_sample in H2 as [H2 _]. congruence.
    + eapply NoDup_fmap_1. exact Hkeys.
  - intros i Hi. apply list_elem_of_fmap in Hi as ([k v] & -> & Hkv). cbn.
    apply Hitems, slider_item_sample in Hkv as [Hk Hv]. split; [exact Hv|].
    rewrite Hk. eexists. reflexivity.
  - intros p q i j Hlt Hp Hq.
    apply list_lookup_fmap_Some in Hp as ([k1 i'] & Hi & Hp). cbn in Hi. subst i'.
    apply list_lookup_fmap_Some in Hq as ([k2 j'] & Hj & Hq). cbn in Hj. subst j'.
    exists k1, k2.
    split; [eapply slider_item_sample, Hitems, list_elem_of_lookup_2; exact Hp|].
    split; [eapply slider_item_sample, Hitems, list_elem_of_lookup_2; exact Hq|].
    assert (Hle : item_le (k1, i) (k2, j))
      by (apply (StronglySorted_lookup_lt item_le sorted p q); assumption).
    assert (Hne : k1 ≠ k2).
    { intros ->. assert (p = q); [|lia].
      apply (NoDup_lookup _ _ _ k2 Hkeys); rewrite list_lookup_fmap.
      - rewrite Hp. reflexivity.
      - rewrite Hq. reflexivity. }
    unfold item_le in Hle. cbn in Hle. lia.
  - intros idx v Hlt Hv.
    assert (Hzip : zip criterion (py_range n) !! idx = Some (v, Z.of_nat idx))
      by (apply zip_range_lookup; auto).
    destruct (py_dict_lookup_last _ _ _ _ Hzip) as (j' & i & Hle & Hj' & Hd).
    apply zip_range_lookup in Hj' as (Hc & -> & _).
    exists (Z.of_nat j'). split; [|split; [rewrite Nat2Z.id; exact Hc | lia]].
    apply list_elem_of_fmap. exists (v, Z.of_nat j'). split; [reflexivity|].
    apply Hitems. exact Hd.
Qed.

(** X7. For a criterion with one value per sample, the order built by
    [add_slider] is a permutation of the sample indices exactly when no
    two samples have the same criterion value. *)
Theorem slider_order_permutation_iff (criterion : list Z) (n : nat) :
  length criterion = n →
  slider_order criterion n ≡ₚ py_range n ↔ NoDup criterion.
Proof.
  intros Hlen. split; [|intros Hnd; apply slider_order_distinct; assumption].
  intros Hperm. apply NoDup_alt. intros a b v Ha Hb.
  destruct (slider_items criterion n) as (sorted & Horder & _ & _ & Hitems).
  assert (Hrep : ∀ idx : nat, criterion !! idx = Some v →
            py_dict (zip criterion (py_range n)) !! v = Some (Z.of_nat idx)).
  { intros idx Hidx.
    assert (Hin : Z.of_nat idx ∈ slider_order criterion n).
    { rewrite Hperm. apply in_range. apply lookup_lt_Some in Hidx. lia. }
    rewrite Horder in Hin. apply list_elem_of_fmap in Hin as ([k i] & Hi & Hki).
    cbn in Hi. subst i. apply Hitems in Hki as Hd.
    apply slider_item_sample in Hd as Hk. destruct Hk as [Hk _].
    rewrite Nat2Z.id in Hk. congruence. }
  pose proof (Hrep a Ha) as H1. pose proof (Hrep b Hb) as H2.
  rewrite H1 in H2. injection H2 as H2. lia.
Qed.

Lemma slider_order_permutation_iff_witness :
  length [5; 1; 9] = 3%nat ∧ slider_order [5; 1; 9] 3 ≡ₚ py_range 3.
Proof.
  split; [reflexivity|].
  apply (slider_order_permutation_iff [5; 1; 9] 3); [reflexivity|].
  repeat (apply NoDup_cons; split; [rewrite ?elem_of_cons, elem_of_nil; lia|]).
  apply NoDup_nil. exact I.
Defined.


(** ** Building the sliders *)

Lemma forallb_false_elem {A} (f : A → bool) (l : list A) :
  forallb f l = false → ∃ x, x ∈ l ∧ f x = false.
Proof.
  induction l as [|x l IH]; [discriminate|]. cbn [forallb].
  destruct (f x) eqn:Hx.
  - intros H. destruct (IH H) as (y & Hy & Hfy). exists y. split; [right; exact Hy | exact Hfy].
  - intros _. exists x. split; [left | exact Hx].
Qed.

(** The first loop of [_create_sliders] (lines 170-174). *)
Lemma check_criteria_lengths (cs : list (list Z)) s :
  for_each cs (λ c,
    let* ld := gets length_data in
    if decide (length c ≠ ld) then raise ValueError else ret tt) s
  = if forallb (λ c, bool_decide (length c = length_data s)) cs
    then Ok tt s else Raise ValueError s.
Proof.
  induction cs as [|c cs IH]; [reflexivity|].
  cbn [for_each forallb]. rewrite bind_bind, bind_gets. cbv beta.
  destruct (decide (length c ≠ length_data s)) as [Hne|Heq].
  - rewrite bool_decide_eq_false_2 by exact Hne. reflexivity.
  - rewrite bool_decide_eq_true_2 by (destruct (decide (length c = length_data s)); tauto).
    rewrite bind_ret. exact IH.
Qed.

(** X8. [_create_sliders] raises [ValueError] exactly when a criterion
    has not one value per sample; it then has built no slider and left
    the object as it was, even if the criteria before the wrong one are
    right. *)
Theorem _create_sliders_validates_first cs ws ls (s : state) :
  ((∃ c, c ∈ cs ∧ length c ≠ length_data s) →
     _create_sliders cs ws ls s = Raise ValueError s) ∧
  (∀ s', _create_sliders cs ws ls s = Raise ValueError s' →
     s' = s ∧ ∃ c, c ∈ cs ∧ length c ≠ length_data s).
Proof.
  unfold _create_sliders. split.
  - intros (c & Hc & Hne). apply bind_Raise. rewrite check_criteria_lengths.
    destruct (forallb _ cs) eqn:Hall; [|reflexivity].
    apply (forallb_elem_of _ _ c) in Hall; [|exact Hc].
    apply bool_decide_eq_true in Hall. contradiction.
  - intros s' H. unfold bind at 1 in H. rewrite check_criteria_lengths in H.
    destruct (forallb _ cs) eqn:Hall.
    + exfalso. revert H.
      match goal with |- ?c s = _ → _ => assert (Hn : never_raises ValueError c); [|apply Hn] end.
      apply never_raises_for_each. intros kc.
      pose proof add_slider_never_ValueError. repeat never_raises_step; auto.
    + injection H as <-. split; [reflexivity|].
      apply forallb_false_elem in Hall as (c & Hc & Hne). exists c. split; [exact Hc|].
      apply bool_decide_eq_false in Hne. exact Hne.
Qed.

(** [add_slider] with the default label, when the axes of the slider
    exists. *)
Lemma add_slider_default (k : nat) (c : list Z) w (s0 : state) :
  is_Some (axes s0 !! (_n_graphs s0 + k)%nat) →
  ∃ s1, add_slider k c w None s0 = Ok tt s1 ∧
    sliders s1 = sliders s0 ++ [new_slider s0 k] ∧
    criteria s1 = criteria s0 ++ [slider_order c (length_data s0)] ∧
    axes s1 = axes s0 ∧ _n_graphs s1 = _n_graphs s0 ∧ length_data s1 = length_data s0.
Proof.
  intros [ax Hax]. unfold add_slider. do 3 mstep.
  rewrite (bind_lift_Some _ _ ax) by exact Hax. do 4 mstep.
  eexists. split; [reflexivity|]. proj_simpl. unfold new_slider. rewrite Hax.
  repeat split; reflexivity.
Qed.

(** The second loop of [_create_sliders] (lines 176-184), from the
    criterion number [k0] on. *)
Lemma create_sliders_loop (ws : list widget_class) (s : state) (cs : list (list Z)) :
  ∀ (k0 : nat) (s0 : state),
    axes s0 = axes s → _n_graphs s0 = _n_graphs s → length_data s0 = length_data s →
    (k0 + length cs ≤ length ws)%nat →
    (_n_graphs s + k0 + length cs ≤ length (axes s))%nat →
    ∃ s1,
      for_each (zip (seq k0 (length cs)) cs) (λ kc,
        let* label := ret None in
        let* w := lift_option IndexError (ws !! kc.1) in
        add_slider kc.1 kc.2 w label) s0 = Ok tt s1 ∧
      sliders s1 = sliders s0 ++ (new_slider s <$> seq k0 (length cs)) ∧
      criteria s1 = criteria s0 ++ ((λ c, slider_order c (length_data s)) <$> cs) ∧
      axes s1 = axes s ∧ _n_graphs s1 = _n_graphs s ∧ length_data s1 = length_data s.
Proof.
  induction cs as [|c cs IH]; intros k0 s0 Hax Hn Hld Hws Haxes.
  - exists s0. cbn. rewrite !app_nil_r. repeat split; auto.
  - cbn [length seq zip_with for_each fmap list_fmap]. cbn [length] in Hws, Haxes.
    rewrite bind_bind, bind_ret. cbv beta. cbn [fst snd].
    destruct (lookup_lt_is_Some_2 ws k0) as [w Hw]; [lia|].
    rewrite bind_bind, (bind_lift_Some _ _ w) by exact Hw.
    destruct (add_slider_default k0 c w s0) as (s0' & Hrun & Hs & Hc & Hax' & Hn' & Hld').
    { apply lookup_lt_is_Some_2. rewrite Hax, Hn. lia. }
    rewrite (bind_Ok _ _ _ _ _ Hrun).
    destruct (IH (S k0) s0') as (s1 & Hloop & Hs1 & Hc1 & Hax1 & Hn1 & Hld1);
      [congruence | congruence | congruence | lia | lia |].
    exists s1. split; [exact Hloop|].
    split; [|split; [|auto]].
    + rewrite Hs1, Hs, <- app_assoc. cbn. do 2 f_equal.
      unfold new_slider. rewrite Hax, Hn, Hld. reflexivity.
    + rewrite Hc1, Hc, <- app_assoc, Hld. reflexivity.
Qed.

(** X9. With one value per sample in every criterion, a widget class
    for every criterion, no labels, and an axes for every slider after
    the axes of the views, [_create_sliders] returns: it appends one
    slider per criterion, on its own axes, labelled "Filter (k)", with
    range 0 to [length_data - 1] and value 0, and appends to
    [self.criteria] the order of each criterion, so that sliders and
    orders stay paired. *)
Theorem _create_sliders_builds (cs : list (list Z)) (ws : list widget_class) (s : state) :
  (∀ c, c ∈ cs → length c = length_data s) →
  (length cs ≤ length ws)%nat →
  (_n_graphs s + length cs ≤ length (axes s))%nat →
  ∃ s', _create_sliders cs ws None s = Ok tt s' ∧
    sliders s' = sliders s ++ (new_slider s <$> seq 0 (length cs)) ∧
    criteria s' = criteria s ++ ((λ c, slider_order c (length_data s)) <$> cs).
Proof.
  intros Hlen Hws Haxes. unfold _create_sliders. unfold bind at 1.
  rewrite check_criteria_lengths.
  assert (Hall : forallb (λ c, bool_decide (length c = length_data s)) cs = true).
  { apply forallb_forall. intros c Hc. apply bool_decide_eq_true, Hlen, list_elem_of_In, Hc. }
  rewrite Hall.
  destruct (create_sliders_loop ws s cs 0 s) as (s1 & Hloop & Hs1 & Hc1 & _);
    [reflexivity | reflexivity | reflexivity | lia | lia |].
  exists s1. split; [exact Hloop|]. split; assumption.
Qed.

Lemma _create_sliders_builds_witness :
  ∃ s', _create_sliders [[5; 1; 9]; [3; 2; 1]] [SliderWidget; SliderWidget] None
          (set_axes [0; 1; 2]%nat (init_state scenario_config scenario_display)) = Ok tt s' ∧
    length (sliders s') = 2%nat ∧ criteria s' = [[1; 0; 2]; [2; 1; 0]].
Proof.
  destruct (_create_sliders_builds [[5; 1; 9]; [3; 2; 1]] [SliderWidget; SliderWidget]
              (set_axes [0; 1; 2]%nat (init_state scenario_config scenario_display)))
    as (s' & Hrun & Hs & Hc).
  - intros c Hc. rewrite !elem_of_cons, elem_of_nil in Hc.
    destruct Hc as [-> | [-> | []]]; reflexivity.
  - cbn. lia.
  - vm_compute. lia.
  - exists s'. split; [exact Hrun|]. split.
    + rewrite Hs. reflexivity.
    + rewrite Hc. vm_compute. reflexivity.
Defined.


(** ** The pointer-move handler *)

(** Outside the axes of the displays no artist is looked at. *)
Lemma sample_artist_in_outside event ds s :
  (∀ ax d, ev_inaxes event = Some ax → d ∈ ds → ax ∉ d_axes d) →
  sample_artist_in event ds s = Ok None s.
Proof.
  intros Hout. induction ds as [|d ds IH]; [reflexivity|].
  cbn [sample_artist_in].
  assert (Hnone : ev_inaxes event ≫= (λ ax, list_find (λ a, a = ax) (d_axes d)) = None).
  { destruct (ev_inaxes event) as [ax|] eqn:Hax; [|reflexivity]. cbn.
    apply list_find_None, Forall_forall. intros a Ha ->.
    apply (Hout ax d eq_refl); [left | exact Ha]. }
  rewrite Hnone. apply IH. intros ax d' Hax Hd'. apply Hout; [exact Hax | right; exact Hd'].
Qed.

(** The loop of lines 327-329 over the axes [ks], all of them existing:
    it assigns [widget_index] for the axes under the pointer. *)
Lemma widget_index_loop event (n : nat) (ks : list nat) s :
  (∀ k, k ∈ ks → is_Some (axes s !! k)) →
  for_each ks (λ k,
    let* axs := gets axes in
    let* ax := lift_option IndexError (axs !! k) in
    if decide (ev_inaxes event = Some ax)
    then modify (set_widget_index (Some (Z.of_nat k - Z.of_nat n)))
    else ret tt) s
  = Ok tt (foldl (λ s0 k,
             if decide (ev_inaxes event = axes s !! k)
             then set_widget_index (Some (Z.of_nat k - Z.of_nat n)) s0 else s0) s ks).
Proof.
  intros Hks.
  match goal with |- for_each _ ?b _ = _ =>
    destruct (for_each_pure (λ s0, axes s0 = axes s)
      (λ k s0, if decide (ev_inaxes event = axes s !! k)
               then set_widget_index (Some (Z.of_nat k - Z.of_nat n)) s0 else s0)
      ks b) with (s := s) as [-> _]
  end; [| reflexivity | reflexivity].
  intros k s0 Hk Hax. rewrite bind_gets. cbv beta. rewrite Hax.
  destruct (Hks k Hk) as [ax Hk']. rewrite (bind_lift_Some _ _ ax) by exact Hk'.
  rewrite Hk'. destruct (decide (ev_inaxes event = Some ax)); (split; [reflexivity|]).
  - exact Hax.
  - exact Hax.
Qed.

Lemma foldl_unchanged {A} (f : state → A → state) (l : list A) s :
  (∀ x s0, x ∈ l → f s0 x = s0) → foldl f s l = s.
Proof.
  revert s. induction l as [|x l IH]; intros s Hf; [reflexivity|].
  cbn. rewrite Hf by left. apply IH. intros y s0 Hy. apply Hf. right. exact Hy.
Qed.

Lemma seq_axes_exist (s : state) (k : nat) :
  k ∈ seq (_n_graphs s) (length (axes s) - _n_graphs s) → is_Some (axes s !! k).
Proof. intros Hk. apply elem_of_seq in Hk. apply lookup_lt_is_Some_2. lia. Qed.

(** The last statement of [hover] when no artist is under the pointer. *)
Lemma hover_no_artist_end (s : state) (event : mouse_event) :
  (let* t := gets _tag in
   if tag_visible t then tag_set_visible false >> modify (log_effect DrawIdle) else ret tt) s
  = Ok tt (if tag_visible (_tag s)
           then log_effect DrawIdle
                  (set_tag (Annotation false (tag_axes (_tag s)) (tag_sample (_tag s))
                                       (tag_xy (_tag s))) s)
           else s) →
  match ev_inaxes event, @None (Z * artist) with
  | Some a, Some (sample_number, artist) =>
      _update_annotation a sample_number (art_offset artist) >>
      tag_set_visible true >> modify (log_effect DrawIdle)
  | _, _ =>
      let* t := gets _tag in
      if tag_visible t then tag_set_visible false >> modify (log_effect DrawIdle) else ret tt
  end s
  = Ok tt (if tag_visible (_tag s)
           then log_effect DrawIdle
                  (set_tag (Annotation false (tag_axes (_tag s)) (tag_sample (_tag s))
                                       (tag_xy (_tag s))) s)
           else s).
Proof. intros H. destruct (ev_inaxes event); exact H. Qed.

Lemma hide_annotation (s : state) :
  (let* t := gets _tag in
   if tag_visible t then tag_set_visible false >> modify (log_effect DrawIdle) else ret tt) s
  = Ok tt (if tag_visible (_tag s)
           then log_effect DrawIdle
                  (set_tag (Annotation false (tag_axes (_tag s)) (tag_sample (_tag s))
                                       (tag_xy (_tag s))) s)
           else s).
Proof.
  rewrite bind_gets. cbv beta. destruct (tag_visible (_tag s)); [|reflexivity].
  unfold tag_set_visible. rewrite bind_modify. reflexivity.
Qed.

(** X10. A pointer move outside every axes changes nothing when the
    annotation is hidden, and requests no redraw; when the annotation is
    visible it is hidden and one redraw is requested. The selection,
    the opacities, the sliders and [widget_index] stay as they are. *)
Theorem hover_outside_axes (event : mouse_event) (s : state) :
  ev_inaxes event = None →
  (tag_visible (_tag s) = false → hover event s = Ok tt s) ∧
  (tag_visible (_tag s) = true →
     hover event s
     = Ok tt (log_effect DrawIdle
               (set_tag (Annotation false (tag_axes (_tag s)) (tag_sample (_tag s))
                                    (tag_xy (_tag s))) s))).
Proof.
  intros Hnone.
  assert (Hrun : hover event s
            = Ok tt (if tag_visible (_tag s)
                     then log_effect DrawIdle
                            (set_tag (Annotation false (tag_axes (_tag s)) (tag_sample (_tag s))
                                                 (tag_xy (_tag s))) s)
                     else s)).
  { unfold hover, _sample_artist_from_event. rewrite bind_bind, bind_gets. cbv beta.
    rewrite (bind_Ok _ _ _ _ _ (sample_artist_in_outside event (displays s) s
               ltac:(intros ax d Hax; congruence))).
    do 2 mstep. unfold bind at 1.
    rewrite (widget_index_loop event (_n_graphs s)) by (intros k; apply seq_axes_exist).
    rewrite foldl_unchanged.
    - apply hover_no_artist_end, hide_annotation.
    - intros k s0 Hk. apply seq_axes_exist in Hk as [ax Hax].
      rewrite decide_False; [reflexivity|]. rewrite Hnone, Hax. discriminate. }
  split; intros Hvis; rewrite Hrun, Hvis; reflexivity.
Qed.

Lemma hover_outside_axes_witness :
  hover (MouseEvent None (λ _, false)) scenario_selected = Ok tt scenario_selected.
Proof.
  apply (hover_outside_axes (MouseEvent None (λ _, false)) scenario_selected);
    vm_compute; reflexivity.
Defined.

Lemma foldl_single {A} `{EqDecision A} (f : state → A → state) (l : list A) (k : A) s :
  NoDup l → k ∈ l → (∀ x s0, x ∈ l → x ≠ k → f s0 x = s0) → foldl f s l = f s k.
Proof.
  revert s. induction l as [|x l IH]; intros s Hnd Hk Hf.
  - apply elem_of_nil in Hk. contradiction.
  - apply NoDup_cons in Hnd as [Hx Hnd]. cbn. destruct (decide (x = k)) as [->|Hne].
    + apply foldl_unchanged. intros y s0 Hy. apply Hf; [right; exact Hy|].
      intros ->. contradiction.
    + rewrite (Hf x s) by (auto; left). apply IH; [exact Hnd | |].
      * apply elem_of_cons in Hk as [->|Hk]; [contradiction | exact Hk].
      * intros y s0 Hy. apply Hf. right. exact Hy.
Qed.

(** X11. A pointer move over the axes of a slider, the axes number [k]
    of the figure with [k] not below the number of view axes, assigns
    [widget_index = k - _n_graphs]; the annotation is hidden and the
    selection, the opacities and the sliders are untouched. *)
Theorem hover_over_slider (event : mouse_event) (s : state) (k ax : nat) :
  NoDup (axes s) → axes s !! k = Some ax → (_n_graphs s ≤ k)%nat →
  ev_inaxes event = Some ax →
  (∀ d, d ∈ displays s → ax ∉ d_axes d) →
  ∃ s', hover event s = Ok tt s' ∧
    widget_index s' = Some (Z.of_nat k - Z.of_nat (_n_graphs s)) ∧
    tag_visible (_tag s') = false ∧
    index_clicked s' = index_clicked s ∧ alphas s' = alphas s ∧ sliders s' = sliders s.
Proof.
  intros Hnd Hk Hn Hax Hout.
  unfold hover, _sample_artist_from_event. rewrite bind_bind, bind_gets. cbv beta.
  rewrite (bind_Ok _ _ _ _ _ (sample_artist_in_outside event (displays s) s
             ltac:(intros ax' d Hax' Hd; rewrite Hax in Hax'; injection Hax' as <-;
                   apply Hout; exact Hd))).
  do 2 mstep. unfold bind at 1.
  rewrite (widget_index_loop event (_n_graphs s)) by (intros k'; apply seq_axes_exist).
  rewrite (foldl_single _ _ k).
  - rewrite decide_True by (rewrite Hax, Hk; reflexivity).
    rewrite (hover_no_artist_end _ event (hide_annotation _)).
    eexists. split; [reflexivity|]. proj_simpl.
    destruct (tag_visible (_tag s)) eqn:Hvis; proj_simpl; repeat split; auto.
  - apply NoDup_seq.
  - apply elem_of_seq. apply lookup_lt_Some in Hk. lia.
  - intros k' s0 Hk' Hne. apply seq_axes_exist in Hk' as [ax' Hax'].
    rewrite decide_False; [reflexivity|]. rewrite Hax, Hax'. intros [= <-].
    apply Hne. exact (NoDup_lookup _ _ _ _ Hnd Hax' Hk).
Qed.

Lemma hover_over_slider_witness :
  ∃ s', hover over_slider (built scenario_config) = Ok tt s' ∧ widget_index s' = Some 0.
Proof.
  destruct (hover_over_slider over_slider (built scenario_config) 1 1)
    as (s' & Hrun & Hw & _).
  - vm_compute. repeat (apply NoDup_cons; split; [rewrite ?elem_of_cons, elem_of_nil; lia|]).
    apply NoDup_nil. exact I.
  - vm_compute. reflexivity.
  - vm_compute. lia.
  - reflexivity.
  - intros d Hd.
    assert (Hds : displays (built scenario_config) = [scenario_display])
      by (vm_compute; reflexivity).
    rewrite Hds, elem_of_cons, elem_of_nil in Hd.
    destruct Hd as [-> | []]. cbn. rewrite elem_of_cons, elem_of_nil. lia.
  - exists s'. split; [exact Hrun|]. rewrite Hw. vm_compute. reflexivity.
Defined.

Lemma scan_column_skip event (j0 : nat) (pre rest : list artist) :
  Forall (λ b, art_path b = true ∧ ev_contains event b = false) pre →
  scan_column event j0 (pre ++ rest) = scan_column event (j0 + length pre) rest.
Proof.
  revert j0. induction pre as [|b pre IH]; intros j0 Hpre.
  - cbn. rewrite Nat.add_0_r. reflexivity.
  - apply Forall_cons in Hpre as [[Hpath Hcont] Hpre]. cbn. rewrite Hpath, Hcont. cbn.
    rewrite IH by exact Hpre. f_equal. lia.
Qed.

Lemma sample_artist_in_skip event (ds_pre ds : list display) ax s :
  ev_inaxes event = Some ax → (∀ d, d ∈ ds_pre → ax ∉ d_axes d) →
  sample_artist_in event (ds_pre ++ ds) s = sample_artist_in event ds s.
Proof.
  intros Hax Hout. induction ds_pre as [|d ds_pre IH]; [reflexivity|].
  cbn [app sample_artist_in]. rewrite Hax. cbn.
  assert (Hnone : list_find (λ a, a = ax) (d_axes d) = None).
  { apply list_find_None, Forall_forall. intros a Ha ->. apply (Hout d); [left | exact Ha]. }
  rewrite Hnone. apply IH. intros d' Hd'. apply Hout. right. exact Hd'.
Qed.

(** X12. The search of the artist under the pointer goes to the first
    display that has the hovered axes and scans the column of that
    axes from the first sample on: the first artist that contains the
    pointer wins, with its sample number; at the first artist that is
    not a [PathCollection] the search ends with no artist, whatever
    follows. *)
Theorem sample_artist_first_match (event : mouse_event) (s : state)
    (ds_pre ds_post : list display) (d : display) (ax j : nat)
    (col pre post : list artist) (a : artist) :
  displays s = ds_pre ++ d :: ds_post →
  ev_inaxes event = Some ax →
  (∀ d', d' ∈ ds_pre → ax ∉ d_axes d') →
  NoDup (d_axes d) → d_axes d !! j = Some ax →
  Forall2 (λ row b, row !! j = Some b) (d_artists d) col →
  col = pre ++ a :: post →
  Forall (λ b, art_path b = true ∧ ev_contains event b = false) pre →
  (art_path a = true → ev_contains event a = true →
     _sample_artist_from_event event s = Ok (Some (Z.of_nat (length pre), a)) s) ∧
  (art_path a = false → _sample_artist_from_event event s = Ok None s).
Proof.
  intros Hds Hax Hout Hnd Hj Hcol -> Hpre.
  assert (Hrun : _sample_artist_from_event event s
            = match scan_column event (length pre) (a :: post) with
              | Some r => Ok r s
              | None => sample_artist_in event ds_post s
              end).
  { unfold _sample_artist_from_event. rewrite bind_gets, Hds. cbv beta.
    rewrite (sample_artist_in_skip event ds_pre _ ax s Hax Hout).
    cbn [sample_artist_in]. rewrite Hax. cbn [mbind option_bind].
    assert (Hfind : list_find (λ x, x = ax) (d_axes d) = Some (j, ax)).
    { apply list_find_Some. split; [exact Hj|]. split; [reflexivity|].
      intros i y Hi Hlt ->. assert (i = j) by exact (NoDup_lookup _ _ _ _ Hnd Hi Hj). lia. }
    rewrite Hfind. apply mapM_Some in Hcol.
    rewrite (bind_lift_Some _ _ (pre ++ a :: post)) by exact Hcol.
    rewrite (scan_column_skip event 0 pre _ Hpre). cbn [Nat.add].
    destruct (scan_column event (length pre) (a :: post)); reflexivity. }
  split.
  - intros Hpath Hcont. rewrite Hrun. cbn. rewrite Hpath, Hcont. reflexivity.
  - intros Hpath. rewrite Hrun. cbn. rewrite Hpath. reflexivity.
Qed.

Lemma sample_artist_first_match_witness :
  _sample_artist_from_event
    (MouseEvent (Some 0%nat) (λ b, bool_decide (art_id b = 1%nat))) (built scenario_config)
  = Ok (Some (1, scenario_artist 1)) (built scenario_config).
Proof.
  apply (sample_artist_first_match
           (MouseEvent (Some 0%nat) (λ b, bool_decide (art_id b = 1%nat)))
           (built scenario_config) [] [] scenario_display 0 0
           [scenario_artist 0; scenario_artist 1; scenario_artist 2]
           [scenario_artist 0] [scenario_artist 2] (scenario_artist 1));
    try (vm_compute; reflexivity).
  - intros d' Hd'. apply elem_of_nil in Hd'. contradiction.
  - cbn. apply NoDup_singleton.
  - cbn. repeat constructor.
  - repeat constructor.
Defined.

Lemma foldl_preserves {A B} (g : state → B) (f : state → A → state) (l : list A) s :
  (∀ x s0, g (f s0 x) = g s0) → g (foldl f s l) = g s.
Proof.
  intros Hf. revert s. induction l as [|x l IH]; intros s; [reflexivity|].
  cbn. rewrite IH. apply Hf.
Qed.

(** X13. When an artist is found under the pointer, [hover] attaches
    the annotation to the hovered axes, for the sample number and the
    position of that artist, makes it visible and requests one redraw;
    the selection, the clicked artist, the opacities and the sliders
    are untouched. *)
Theorem hover_over_point (event : mouse_event) (s : state) (ax : nat) (r : Z) (a : artist) :
  ev_inaxes event = Some ax →
  _sample_artist_from_event event s = Ok (Some (r, a)) s →
  ∃ s', hover event s = Ok tt s' ∧
    _tag s' = Annotation true (Some ax) r (art_offset a) ∧
    effects s' = effects s ++ [DrawIdle] ∧
    index_clicked s' = index_clicked s ∧ point_clicked s' = point_clicked s ∧
    alphas s' = alphas s ∧ sliders s' = sliders s.
Proof.
  intros Hax Hfound. unfold hover. rewrite (bind_Ok _ _ _ _ _ Hfound).
  do 2 mstep. unfold bind at 1.
  rewrite (widget_index_loop event (_n_graphs s)) by (intros k'; apply seq_axes_exist).
  rewrite Hax. unfold _update_annotation, tag_set_visible. do 2 mstep.
  eexists. split; [reflexivity|]. proj_simpl.
  match goal with |- context [foldl ?f s ?l] =>
    assert (Hframe : ∀ {B} (g : state → B),
              (∀ v s0, g (set_widget_index v s0) = g s0) → g (foldl f s l) = g s)
  end.
  { intros B g Hg. apply foldl_preserves. intros k' s0.
    destruct (decide _); [apply Hg | reflexivity]. }
  rewrite (Hframe _ effects), (Hframe _ index_clicked), (Hframe _ point_clicked),
    (Hframe _ alphas), (Hframe _ sliders) by reflexivity.
  repeat split; reflexivity.
Qed.

Lemma hover_over_point_witness :
  ∃ s', hover (MouseEvent (Some 0%nat) (λ b, bool_decide (art_id b = 1%nat)))
              (built scenario_config) = Ok tt s' ∧
    _tag s' = Annotation true (Some 0%nat) 1 (0, 0)%Q.
Proof.
  destruct (hover_over_point (MouseEvent (Some 0%nat) (λ b, bool_decide (art_id b = 1%nat)))
              (built scenario_config) 0 1 (scenario_artist 1))
    as (s' & Hrun & Htag & _).
  - reflexivity.
  - vm_compute. reflexivity.
  - exists s'. split; [exact Hrun | exact Htag].
Defined.

(** ** Resolving the picked artist *)

Lemma find_axes_first ax (ds_pre ds_post : list display) d (j : nat) :
  (∀ d', d' ∈ ds_pre → ax ∉ d_axes d') → NoDup (d_axes d) → d_axes d !! j = Some ax →
  find_axes ax (ds_pre ++ d :: ds_post) = Some (d, j).
Proof.
  intros Hout Hnd Hj. induction ds_pre as [|d' ds_pre IH]; cbn [app find_axes].
  - assert (Hfind : list_find (λ x, x = ax) (d_axes d) = Some (j, ax)).
    { apply list_find_Some. split; [exact Hj|]. split; [reflexivity|].
      intros i y Hi Hlt ->. assert (i = j) by exact (NoDup_lookup _ _ _ _ Hnd Hi Hj). lia. }
    rewrite Hfind. reflexivity.
  - assert (Hnone : list_find (λ x, x = ax) (d_axes d') = None).
    { apply list_find_None, Forall_forall. intros x Hx ->. apply (Hout d'); [left | exact Hx]. }
    rewrite Hnone. apply IH. intros d'' Hd''. apply Hout. right. exact Hd''.
Qed.

(** Artists in different rows of a grid of distinct artists are
    different objects. *)
Lemma rows_distinct (grid : list (list artist)) (i i' : nat) r r' x y :
  NoDup (art_id <$> mjoin grid) → (i < i')%nat →
  grid !! i = Some r → grid !! i' = Some r' → x ∈ r → y ∈ r' → art_id x ≠ art_id y.
Proof.
  revert i i'. induction grid as [|r0 grid IH]; intros i i' Hnd Hlt Hi Hi' Hx Hy; [discriminate|].
  cbn in Hnd. rewrite fmap_app in Hnd. apply NoDup_app in Hnd as (_ & Hdis & Hnd).
  destruct i' as [|i']; [lia|]. cbn in Hi'. destruct i as [|i].
  - injection Hi as <-. intros Heq. apply (Hdis (art_id x)).
    + apply list_elem_of_fmap. exists x. auto.
    + rewrite Heq. apply list_elem_of_fmap. exists y. split; [reflexivity|].
      apply list_elem_of_join. exists r'. split; [exact Hy|].
      eapply list_elem_of_lookup_2. exact Hi'.
  - cbn in Hi. apply (IH i i'); [exact Hnd | lia | exact Hi | exact Hi' | exact Hx | exact Hy].
Qed.

Lemma np_where_grid_finds (grid : list (list artist)) (i : nat) row a :
  NoDup (art_id <$> mjoin grid) → grid !! i = Some row → a ∈ row →
  np_where_grid grid a = Some (Z.of_nat i).
Proof.
  intros Hnd Hi Ha. unfold np_where_grid.
  assert (Hfind : list_find (λ r, existsb (same_artist a) r = true) grid = Some (i, row)).
  { apply list_find_Some. split; [exact Hi|]. split.
    - apply existsb_exists. exists a. split; [apply list_elem_of_In; exact Ha|].
      apply bool_decide_eq_true. reflexivity.
    - intros i' r' Hi' Hlt Hex. apply existsb_exists in Hex as (b & Hb & Hsame).
      apply bool_decide_eq_true in Hsame. apply list_elem_of_In in Hb.
      exact (rows_distinct grid i' i r' row b a Hnd Hlt Hi' Hi Hb Ha (eq_sym Hsame)). }
  rewrite Hfind. reflexivity.
Qed.

Lemma np_where_column_finds (grid : list (list artist)) (i j n : nat) row a :
  NoDup (art_id <$> mjoin grid) → Forall (λ r, length r = n) grid →
  grid !! i = Some row → row !! j = Some a →
  np_where_column grid j a = Some (Z.of_nat i).
Proof.
  intros Hnd Hrect Hi Hj. unfold np_where_column.
  assert (Hjn : (j < n)%nat).
  { apply lookup_lt_Some in Hj. rewrite Forall_forall in Hrect.
    rewrite <- (Hrect row); [exact Hj|]. eapply list_elem_of_lookup_2. exact Hi. }
  destruct (mapM (λ r : list artist, r !! j) grid) as [col|] eqn:Hcol.
  - cbn. apply mapM_Some in Hcol.
    destruct (Forall2_lookup_l _ _ _ _ _ Hcol Hi) as (b & Hb & Hrb).
    assert (b = a) by congruence. subst b.
    assert (Hfind : list_find (λ b, same_artist b a = true) col = Some (i, a)).
    { apply list_find_Some. split; [exact Hb|]. split; [apply bool_decide_eq_true; reflexivity|].
      intros i' b' Hb' Hlt Hsame. apply bool_decide_eq_true in Hsame.
      destruct (Forall2_lookup_r _ _ _ _ _ Hcol Hb') as (r' & Hr' & Hrb').
      apply (rows_distinct grid i' i r' row b' a Hnd Hlt Hr' Hi); [| |exact Hsame].
      - eapply list_elem_of_lookup_2. exact Hrb'.
      - eapply list_elem_of_lookup_2. exact Hj. }
    rewrite Hfind. reflexivity.
  - exfalso. apply eq_None_not_Some in Hcol. apply Hcol. apply mapM_is_Some.
    rewrite Forall_forall in Hrect |- *. intros r Hr. cbn.
    apply lookup_lt_is_Some_2. rewrite (Hrect r Hr). exact Hjn.
Qed.

(** [update_index_display_picked] finds the sample of a clicked artist
    that is drawn by a display. *)
Lemma update_index_display_picked_resolves (s : state) (a : artist) (i : nat) :
  drawn_at s a i → point_clicked s = Some a →
  update_index_display_picked s = Ok tt (set_index_clicked (Z.of_nat i) s).
Proof.
  intros (ds_pre & d & ds_post & j & row & Hds & Hout & Hnd & Hj & Hrect & Hids & Hi & Hrow) Hpc.
  unfold update_index_display_picked. do 2 mstep. rewrite Hpc, Hds.
  rewrite (find_axes_first _ ds_pre ds_post d j Hout Hnd Hj).
  assert (Hr : (if decide (length (d_axes d) = 1%nat)
                then np_where_grid (d_artists d) a
                else np_where_column (d_artists d) j a) = Some (Z.of_nat i)).
  { destruct (decide (length (d_axes d) = 1%nat)).
    - apply (np_where_grid_finds _ _ row); [exact Hids | exact Hi|].
      eapply list_elem_of_lookup_2. exact Hrow.
    - apply (np_where_column_finds _ _ _ (length (d_axes d)) row); assumption. }
  rewrite (bind_lift_Some _ _ _ _ _ Hr). reflexivity.
Qed.

Lemma drawn_at_in_range (s : state) (a : artist) (i : nat) :
  rows_complete s = true → drawn_at s a i →
  0 ≤ Z.of_nat i < Z.of_nat (length_data s) ∧ is_artist_of s (Z.of_nat i) a = true.
Proof.
  intros Hrows (ds_pre & d & ds_post & j & row & Hds & _ & _ & _ & _ & _ & Hi & Hrow).
  assert (Hd : d ∈ displays s) by (rewrite Hds; apply elem_of_app; right; left).
  apply (forallb_elem_of _ _ d) in Hrows; [|exact Hd]. apply bool_decide_eq_true in Hrows.
  apply lookup_lt_Some in Hi as Hlt. split; [lia|].
  apply is_artist_of_spec, list_elem_of_fmap. exists a. split; [reflexivity|].
  unfold sample_artists. apply list_elem_of_bind. exists d. split; [|exact Hd].
  unfold py_getitem, py_position. rewrite decide_True by lia. cbn.
  rewrite Nat2Z.id, Hi. cbn. eapply list_elem_of_lookup_2. exact Hrow.
Qed.

Lemma reduced_dims (s : state) :
  ∀ i a, 0 ≤ i < Z.of_nat (length_data s) → i ≠ index_clicked s →
    is_artist_of s i a = true → alpha_of (reduced s) a = Some (1 # 10)%Q.
Proof.
  intros i a Hi Hne Ha. apply is_artist_of_spec in Ha. unfold alpha_of. simpl.
  apply paint_plan_lookup_set.
  - intros j v' _ Hplan _. unfold reduce_plan in Hplan.
    destruct (decide (j ≠ index_clicked s)); congruence.
  - right. exists i. split; [apply in_range; exact Hi|]. split; [|exact Ha].
    unfold reduce_plan. rewrite decide_True by exact Hne. reflexivity.
Qed.

(** X14. From the neutral state, with one row of artists per sample in
    every display, a pick of an artist drawn for a sample [i] that
    occurs in the order of every slider selects that sample: [pick]
    returns, [index_clicked] becomes [i], the artist is remembered, the
    artists of every other sample get opacity 0.1 in every display, and
    every slider moves to the position of sample [i]. *)
Theorem pick_selects (fuel : nat) (s : state) (a : artist) (i : nat) :
  neutral s = true → rows_complete s = true → drawn_at s a i →
  in_every_order s (Z.of_nat i) = true →
  ∃ s', pick fuel (PickEvent a) s = Ok tt s' ∧
    index_clicked s' = Z.of_nat i ∧ point_clicked s' = Some a ∧ clicked s' = false ∧
    (∀ i' b, 0 ≤ i' < Z.of_nat (length_data s) → i' ≠ Z.of_nat i →
       is_artist_of s i' b = true → alpha_of s' b = Some (1 # 10)%Q) ∧
    (∀ j, slider_shows s' j (Z.of_nat i)).
Proof.
  intros Hneutral Hrows Hdrawn Hall.
  destruct (neutral_fields s Hneutral) as (Hpc & Hcl & _).
  pose proof (value_updated_is_guarded fuel) as Hg.
  unfold pick. rewrite bind_gets, Hcl, bind_gets, Hpc. cbv beta.
  rewrite bind_modify. cbv beta. cbn [pick_artist].
  set (s0 := set_point_clicked (Some a) s).
  rewrite (bind_Ok _ _ _ _ _ (update_index_display_picked_resolves s0 a i Hdrawn eq_refl)).
  set (s1 := set_index_clicked (Z.of_nat i) s0).
  rewrite (reduce_points_intensity_exact _ Hg s1 Hrows Hall).
  exists (reduced s1). split; [reflexivity|]. split; [reflexivity|]. split; [reflexivity|].
  split; [exact Hcl|]. split.
  - intros i' b Hi' Hne Hb. apply (reduced_dims s1 i' b Hi' Hne Hb).
  - intros j. apply (reduced_shows s1 j Hall).
Qed.

(** A pick without an old index (lines 432-434): the old index is the
    selection before, the new one the sample of the clicked artist. *)
Lemma change_points_intensity_resolves (on_changed : Q → M unit) (s : state) (a : artist) i :
  drawn_at s a i → point_clicked s = Some a →
  change_points_intensity on_changed None s
  = change_points_intensity on_changed (Some (index_clicked s)) (set_index_clicked (Z.of_nat i) s).
Proof.
  intros Hdrawn Hpc. unfold change_points_intensity.
  rewrite !bind_bind, bind_gets. cbv beta. rewrite bind_bind.
  rewrite (bind_Ok _ _ _ _ _ (update_index_display_picked_resolves s a i Hdrawn Hpc)).
  rewrite !bind_ret. reflexivity.
Qed.

(** X15. A pick while a click is pending after a slider move, or of
    another artist than the one clicked before, with one row of artists
    per sample in every display. If the artist is drawn for a sample
    other than the selected one, and that sample occurs in the order of
    every slider and its artists are other objects than those of the
    sample selected before: [pick] returns, that sample is selected,
    its artists get opacity 1.0, those of the sample selected before get
    0.1 and the sliders follow. If the artist is drawn for the selected
    sample itself (its point in another view, say): [pick] returns, the
    selection is cleared and everything is restored. [clicked] is false
    afterwards. *)
Theorem pick_another (fuel : nat) (s : state) (a : artist) (i : nat) :
  rows_complete s = true → drawn_at s a i →
  clicked s = true ∨
    (clicked s = false ∧ ∃ b, point_clicked s = Some b ∧ same_artist b a = false) →
  (Z.of_nat i ≠ index_clicked s →
     in_every_order s (Z.of_nat i) = true →
     (0 ≤ index_clicked s < Z.of_nat (length_data s) →
        rows_disjoint s (Z.of_nat i) (index_clicked s) = true) →
     ∃ s', pick fuel (PickEvent a) s = Ok tt s' ∧
       index_clicked s' = Z.of_nat i ∧ point_clicked s' = Some a ∧ clicked s' = false ∧
       (∀ b, is_artist_of s (Z.of_nat i) b = true → alpha_of s' b = Some 1%Q) ∧
       (0 ≤ index_clicked s < Z.of_nat (length_data s) →
          ∀ b, is_artist_of s (index_clicked s) b = true → alpha_of s' b = Some (1 # 10)%Q) ∧
       (∀ j, slider_shows s' j (Z.of_nat i))) ∧
  (Z.of_nat i = index_clicked s →
     ∃ s', pick fuel (PickEvent a) s = Ok tt s' ∧
       index_clicked s' = -1 ∧ point_clicked s' = None ∧ clicked s' = false ∧
       (∀ b, b ∈ all_artists s → alpha_of s' b = Some 1%Q) ∧
       (∀ x, x ∈ sliders s' → s_val x = 0%Q)).
Proof.
  intros Hrows Hdrawn Hbranch. pose proof (value_updated_is_guarded fuel) as Hg.
  set (s0 := set_point_clicked (Some a) s).
  set (s1 := set_index_clicked (Z.of_nat i) s0).
  destruct (drawn_at_in_range s a i Hrows Hdrawn) as [Hrange _].
  assert (Hpick : pick fuel (PickEvent a) s
            = (change_points_intensity (value_updated fuel) (Some (index_clicked s)) >>
               (if clicked s then modify (set_clicked false) else ret tt)) s1).
  { unfold pick. rewrite bind_gets. cbv beta. cbn [pick_artist].
    destruct Hbranch as [Hcl | (Hcl & b & Hpc & Hsame)]; rewrite Hcl.
    - rewrite bind_modify. cbv beta. fold s0.
      unfold bind at 1. rewrite (change_points_intensity_resolves _ s0 a i Hdrawn eq_refl).
      reflexivity.
    - rewrite bind_gets, Hpc, Hsame. cbv beta. rewrite bind_modify. cbv beta. fold s0.
      rewrite (change_points_intensity_resolves _ s0 a i Hdrawn eq_refl).
      unfold bind. destruct (change_points_intensity _ _ _) as [[] ?| |]; reflexivity. }
  rewrite Hpick. split.
  - intros Hne Hall Hdis.
    rewrite (bind_Ok _ _ _ _ _
               (change_points_intensity_exact _ Hg s1 (index_clicked s) Hrows Hne Hall)).
    destruct (changed_facts s1 (index_clicked s) Hne Hrange Hdis) as (_ & H2 & H3 & _ & _).
    assert (Hshow : ∀ j, slider_shows (changed (index_clicked s) s1) j (Z.of_nat i))
      by (intros j; apply (changed_shows s1 (index_clicked s) j Hall)).
    destruct Hbranch as [Hcl | (Hcl & _)]; rewrite Hcl.
    + eexists. split; [reflexivity|]. repeat split; auto.
    + eexists. split; [reflexivity|]. repeat split; auto.
  - intros Heq.
    assert (Hrun : change_points_intensity (value_updated fuel) (Some (index_clicked s)) s1
              = Ok tt (restored s1)).
    { rewrite (change_points_intensity_same _ s1 (index_clicked s)) by exact Heq.
      apply restore_points_intensity_exact; assumption. }
    rewrite (bind_Ok _ _ _ _ _ Hrun).
    destruct (restored_facts s1 Hrows) as (H1 & H2 & H3 & H4 & _).
    destruct Hbranch as [Hcl | (Hcl & _)]; rewrite Hcl.
    + eexists. split; [reflexivity|]. repeat split; auto.
    + eexists. split; [reflexivity|]. repeat split; auto.
Qed.

Lemma scenario_drawn_at (s : state) (k : nat) :
  displays s = [scenario_display] → (k < 3)%nat → drawn_at s (scenario_artist k) k.
Proof.
  intros Hds Hk. exists [], scenario_display, [], 0%nat, [scenario_artist k].
  split; [exact Hds|]. split; [intros d' Hd'; apply elem_of_nil in Hd'; contradiction|].
  split; [apply NoDup_singleton|]. split; [reflexivity|].
  split; [repeat constructor|]. split.
  - cbn. repeat (apply NoDup_cons; split; [rewrite ?elem_of_cons, elem_of_nil; lia|]).
    apply NoDup_nil. exact I.
  - destruct k as [|[|[|k]]]; [| | |lia]; split; reflexivity.
Qed.

Lemma pick_selects_witness :
  ∃ s', pick 0 (PickEvent (scenario_artist 2)) (built scenario_config) = Ok tt s' ∧
    index_clicked s' = 2 ∧ alpha_of s' (scenario_artist 0) = Some (1 # 10)%Q.
Proof.
  destruct (pick_selects 0 (built scenario_config) (scenario_artist 2) 2)
    as (s' & Hrun & Hidx & _ & _ & Hdim & _); try (vm_compute; reflexivity).
  - apply scenario_drawn_at; [vm_compute; reflexivity | lia].
  - exists s'. split; [exact Hrun|]. split; [exact Hidx|].
    apply (Hdim 0); [split; vm_compute; [discriminate | reflexivity] | discriminate |].
    vm_compute. reflexivity.
Defined.

Lemma pick_another_witness :
  clicked scenario_selected = true ∧ index_clicked scenario_selected = 1 ∧
  (∃ s', pick 0 (PickEvent (scenario_artist 2)) scenario_selected = Ok tt s' ∧
     index_clicked s' = 2 ∧ alpha_of s' (scenario_artist 1) = Some (1 # 10)%Q) ∧
  (∃ s', pick 0 (PickEvent (scenario_artist 1)) scenario_selected = Ok tt s' ∧
     index_clicked s' = -1).
Proof.
  assert (Hrows : rows_complete scenario_selected = true) by (vm_compute; reflexivity).
  assert (Hds : displays scenario_selected = [scenario_display]) by (vm_compute; reflexivity).
  assert (Hcl : clicked scenario_selected = true) by (vm_compute; reflexivity).
  split; [exact Hcl|]. split; [vm_compute; reflexivity|]. split.
  - destruct (pick_another 0 scenario_selected (scenario_artist 2) 2 Hrows
                (scenario_drawn_at _ 2 Hds ltac:(lia)) (or_introl Hcl)) as [Hnew _].
    destruct Hnew as (s' & Hrun & Hidx & _ & _ & _ & Hold & _).
    + vm_compute. discriminate.
    + vm_compute. reflexivity.
    + intros _. vm_compute. reflexivity.
    + exists s'. split; [exact Hrun|]. split; [exact Hidx|].
      apply Hold; [split; vm_compute; [discriminate | reflexivity] | vm_compute; reflexivity].
  - destruct (pick_another 0 scenario_selected (scenario_artist 1) 1 Hrows
                (scenario_drawn_at _ 1 Hds ltac:(lia)) (or_introl Hcl)) as [_ Hsame].
    destruct Hsame as (s' & Hrun & Hidx & _); [vm_compute; reflexivity|].
    exists s'. split; [exact Hrun | exact Hidx].
Defined.

Lemma list_find_absent {A} (P : A → Prop) `{∀ x, Decision (P x)} (l : list A) :
  (∀ x, x ∈ l → ¬ P x) → list_find P l = None.
Proof. intros H'. apply list_find_None, Forall_forall. exact H'. Qed.

(** X16. When the clicked artist lies in no axes of the displays,
    [update_index_display_picked] returns and leaves the selection as it
    was; when it lies in the axes of a display but is none of the
    artists of that display, the lookup of its sample raises
    [IndexError], the selection being as it was. *)
Theorem update_index_display_picked_foreign (s : state) (a : artist) :
  point_clicked s = Some a →
  ((∀ d, d ∈ displays s → art_axes a ∉ d_axes d) →
     update_index_display_picked s = Ok tt s) ∧
  (∀ ds_pre d ds_post (j : nat),
     displays s = ds_pre ++ d :: ds_post →
     (∀ d', d' ∈ ds_pre → art_axes a ∉ d_axes d') →
     NoDup (d_axes d) → d_axes d !! j = Some (art_axes a) →
     (∀ b, b ∈ mjoin (d_artists d) → art_id b ≠ art_id a) →
     update_index_display_picked s = Raise IndexError s).
Proof.
  intros Hpc. split.
  - intros Hout. unfold update_index_display_picked. do 2 mstep. rewrite Hpc.
    assert (Hnone : find_axes (art_axes a) (displays s) = None).
    { induction (displays s) as [|d ds IH]; [reflexivity|]. cbn [find_axes].
      rewrite list_find_absent.
      - apply IH. intros d' Hd'. apply Hout. right. exact Hd'.
      - intros x Hx ->. apply (Hout d); [left | exact Hx]. }
    rewrite Hnone. reflexivity.
  - intros ds_pre d ds_post j Hds Hout Hnd Hj Hforeign.
    unfold update_index_display_picked. do 2 mstep. rewrite Hpc, Hds.
    rewrite (find_axes_first _ ds_pre ds_post d j Hout Hnd Hj).
    apply bind_lift_None. destruct (decide (length (d_axes d) = 1%nat)).
    + unfold np_where_grid. rewrite list_find_absent; [reflexivity|].
      intros row Hrow Hex. apply existsb_exists in Hex as (b & Hb & Hsame).
      apply bool_decide_eq_true in Hsame. apply (Hforeign b); [|congruence].
      apply list_elem_of_join. exists row. split; [apply list_elem_of_In; exact Hb | exact Hrow].
    + unfold np_where_column.
      destruct (mapM (λ row : list artist, row !! j) (d_artists d)) as [col|] eqn:Hcol;
        [|reflexivity].
      cbn. rewrite list_find_absent; [reflexivity|].
      intros b Hb Hsame. apply bool_decide_eq_true in Hsame. apply (Hforeign b); [|exact Hsame].
      apply mapM_Some in Hcol. apply list_elem_of_lookup in Hb as [i Hi].
      destruct (Forall2_lookup_r _ _ _ _ _ Hcol Hi) as (row & Hrow & Hrb).
      apply list_elem_of_join. exists row.
      split; [eapply list_elem_of_lookup_2; exact Hrb | eapply list_elem_of_lookup_2; exact Hrow].
Qed.

Lemma update_index_display_picked_foreign_witness :
  let s0 := init_state scenario_config scenario_display in
  update_index_display_picked (set_point_clicked (Some (Artist 7 5 true (0, 0)%Q)) s0)
  = Ok tt (set_point_clicked (Some (Artist 7 5 true (0, 0)%Q)) s0) ∧
  update_index_display_picked (set_point_clicked (Some (Artist 7 0 true (0, 0)%Q)) s0)
  = Raise IndexError (set_point_clicked (Some (Artist 7 0 true (0, 0)%Q)) s0).
Proof.
  intros s0. split.
  - destruct (update_index_display_picked_foreign
                (set_point_clicked (Some (Artist 7 5 true (0, 0)%Q)) s0)
                (Artist 7 5 true (0, 0)%Q) eq_refl) as [Hout _].
    apply Hout. intros d Hd. cbn in Hd.
    rewrite elem_of_cons, elem_of_nil in Hd. destruct Hd as [-> | []].
    cbn. rewrite elem_of_cons, elem_of_nil. lia.
  - destruct (update_index_display_picked_foreign
                (set_point_clicked (Some (Artist 7 0 true (0, 0)%Q)) s0)
                (Artist 7 0 true (0, 0)%Q) eq_refl) as [_ Hin].
    apply (Hin [] scenario_display [] 0%nat).
    + reflexivity.
    + intros d' Hd'. apply elem_of_nil in Hd'. contradiction.
    + apply NoDup_singleton.
    + reflexivity.
    + intros b Hb. cbn in Hb. rewrite !elem_of_cons, elem_of_nil in Hb.
      destruct Hb as [-> | [-> | [-> | []]]]; cbn; lia.
Defined.

(** ** Handlers come back, with the guard open *)

Lemma comes_back_bind {A B} P R Q (c : M A) (k : A → M B) :
  comes_back P c R → (∀ a, comes_back R (k a) Q) → comes_back P (bind c k) Q.
Proof.
  intros Hc Hk s Hs. unfold bind. specialize (Hc s Hs).
  destruct (c s) as [a s'| |]; [apply Hk; exact Hc | exact I | exact Hc].
Qed.

Lemma comes_back_ret {A} (P : state → Prop) (a : A) : comes_back P (ret a) P.
Proof. intros s Hs. exact Hs. Qed.

Lemma comes_back_gets {A} (P : state → Prop) (f : state → A) : comes_back P (gets f) P.
Proof. intros s Hs. exact Hs. Qed.

Lemma comes_back_raise {A} P Q e : comes_back P (raise e : M A) Q.
Proof. intros s Hs. exact I. Qed.

Lemma comes_back_lift_option {A} (P : state → Prop) e (o : option A) :
  comes_back P (lift_option e o) P.
Proof. intros s Hs. destruct o; [exact Hs | exact I]. Qed.

Lemma comes_back_modify (P Q : state → Prop) f :
  (∀ s, P s → Q (f s)) → comes_back P (modify f) Q.
Proof. intros H s Hs. apply H. exact Hs. Qed.

Lemma comes_back_for_each {A} (P : state → Prop) (l : list A) body :
  (∀ x, comes_back P (body x) P) → comes_back P (for_each l body) P.
Proof.
  intros Hbody. induction l as [|x l IH]; [apply comes_back_ret|].
  simpl. eapply comes_back_bind; [apply Hbody | intros _; exact IH].
Qed.

Lemma comes_back_weaken {A} (P P' Q Q' : state → Prop) (c : M A) :
  (∀ s, P' s → P s) → (∀ s, Q s → Q' s) → comes_back P c Q → comes_back P' c Q'.
Proof.
  intros HP HQ Hc s Hs. specialize (Hc s (HP s Hs)).
  destruct (c s); [apply HQ; exact Hc | exact I | exact Hc].
Qed.

(** One step of a computation that keeps [P]. *)
Ltac back_step :=
  lazymatch goal with
  | |- comes_back _ (bind _ _) _ => eapply comes_back_bind; [|intros ?]
  | |- comes_back ?P (ret _) _ => apply comes_back_ret
  | |- comes_back ?P (gets _) _ => apply comes_back_gets
  | |- comes_back ?P (raise _) _ => apply comes_back_raise
  | |- comes_back ?P (lift_option _ _) _ => apply comes_back_lift_option
  | |- comes_back ?P (for_each _ _) _ => apply comes_back_for_each; intros ?
  | |- comes_back _ (if ?b then _ else _) _ => destruct b
  | |- comes_back _ (match ?x with _ => _ end) _ => destruct x
  end.

Lemma comes_back_set_alpha (P : state → Prop) a v :
  (∀ s m, P s → P (set_alphas m s)) → comes_back P (set_alpha a v) P.
Proof. intros H. apply comes_back_modify. intros s Hs. apply H. exact Hs. Qed.

Lemma comes_back_set_row_alpha d i v : comes_back any (set_row_alpha d i v) any.
Proof.
  unfold set_row_alpha. repeat back_step.
  apply comes_back_modify. intros; exact I.
Qed.

Lemma comes_back_change_display_intensity i v :
  comes_back any (change_display_intensity i v) any.
Proof.
  unfold change_display_intensity. repeat back_step.
  - apply comes_back_set_row_alpha.
Qed.

Lemma comes_back_update_index : comes_back any update_index_display_picked any.
Proof.
  unfold update_index_display_picked. repeat back_step.
  all: try (apply comes_back_modify; intros; exact I).
Qed.

Section GuardedBack.
Variable on_changed : Q → M unit.
Hypothesis on_changed_guarded : guarded on_changed.

Lemma comes_back_set_val j v : comes_back closed (set_val on_changed j v) closed.
Proof.
  intros s Hs. unfold set_val, bind, modify.
  rewrite on_changed_guarded by exact Hs. exact Hs.
Qed.

Lemma comes_back_push_selection : comes_back any (push_selection on_changed) opened.
Proof.
  unfold push_selection.
  eapply comes_back_bind; [apply (comes_back_modify any closed); intros; reflexivity|].
  intros _. eapply comes_back_bind; [apply comes_back_gets|]. intros cs.
  eapply comes_back_bind; [apply comes_back_gets|]. intros ss.
  eapply comes_back_bind.
  - apply comes_back_for_each. intros cj. repeat back_step. apply comes_back_set_val.
  - intros _. apply comes_back_modify. intros; reflexivity.
Qed.

Lemma comes_back_reduce : comes_back any (reduce_points_intensity on_changed) opened.
Proof.
  unfold reduce_points_intensity.
  eapply comes_back_bind; [apply comes_back_gets|]. intros n.
  eapply comes_back_bind; [|intros _; apply comes_back_push_selection].
  repeat back_step. apply comes_back_set_row_alpha.
Qed.

Lemma comes_back_restore : comes_back any (restore_points_intensity on_changed) opened.
Proof.
  unfold restore_points_intensity.
  eapply comes_back_bind; [apply comes_back_gets|]. intros n.
  eapply comes_back_bind.
  { apply comes_back_for_each. intros i. repeat back_step. apply comes_back_set_row_alpha. }
  intros _. eapply comes_back_bind; [apply (comes_back_modify any any); intros; exact I|].
  intros _. eapply comes_back_bind; [apply (comes_back_modify any any); intros; exact I|].
  intros _. eapply comes_back_bind; [apply (comes_back_modify any closed); intros; reflexivity|].
  intros _. eapply comes_back_bind; [apply comes_back_gets|]. intros ss.
  eapply comes_back_bind.
  - apply comes_back_for_each. intros j. apply comes_back_set_val.
  - intros _. apply comes_back_modify. intros; reflexivity.
Qed.

Lemma comes_back_change old :
  comes_back any (change_points_intensity on_changed old) opened.
Proof.
  unfold change_points_intensity.
  eapply (comes_back_bind any any).
  { destruct old; repeat back_step. apply comes_back_update_index. }
  intros o. eapply comes_back_bind; [apply comes_back_gets|]. intros ic.
  destruct (decide (ic = o)) as [_|_]; [apply comes_back_restore|].
  eapply comes_back_bind; [apply comes_back_gets|]. intros n.
  eapply comes_back_bind; [|intros _; apply comes_back_push_selection].
  repeat back_step. apply comes_back_change_display_intensity.
Qed.

End GuardedBack.

Lemma comes_back_value_updated (fuel : nat) (value : Q) (s : state) :
  match value_updated (S fuel) value s with
  | Ok _ s' => is_updating s = false → is_updating s' = false
  | Raise _ _ => True
  | OutOfFuel => False
  end.
Proof.
  pose proof (value_updated_is_guarded fuel) as Hg.
  cbn [value_updated]. rewrite bind_gets. destruct (is_updating s) eqn:Hup.
  { intros [=]. }
  assert (H : comes_back any
    (modify (set_is_updating true) >>
     let* old_index := gets index_clicked in
     let* cs := gets criteria in
     let* w := (let* wi := gets widget_index in lift_option AttributeError wi) in
     let* c := lift_option IndexError (py_getitem cs w) in
     let* new_index := lift_option IndexError (py_getitem c (discretize value)) in
     modify (set_index_clicked new_index) >>
     let* ss := gets sliders in
     let* p := lift_option IndexError (py_position (length ss) w) in
     modify (λ s, set_sliders
       (alter (λ x, Slider (s_ax x) (s_label x) (s_valmin x) (s_valmax x) (s_val x)
                           (Literal (pretty (discretize value)))) p (sliders s)) s) >>
     let* cs := gets criteria in
     let* ss := gets sliders in
     for_each (zip (seq 0 (length ss)) cs) (λ ic,
       if decide (Z.of_nat ic.1 ≠ w) then
         let* sel := gets index_clicked in
         let* val_widget := lift_option ValueError (py_list_index ic.2 sel) in
         set_val (value_updated fuel) ic.1 (inject_Z val_widget)
       else ret tt) >>
     modify (set_is_updating false) >>
     modify (set_clicked true) >>
     if decide (old_index = -1) then reduce_points_intensity (value_updated fuel)
     else
       (let* sel := gets index_clicked in
        if decide (sel = old_index) then modify (set_clicked false) else ret tt) >>
       change_points_intensity (value_updated fuel) (Some old_index)) opened).
  { eapply comes_back_bind; [apply (comes_back_modify any closed); intros; reflexivity|].
    intros _. eapply comes_back_bind; [apply comes_back_gets|]. intros old.
    eapply comes_back_bind; [apply comes_back_gets|]. intros cs.
    eapply comes_back_bind; [repeat back_step|]. intros w.
    eapply comes_back_bind; [apply comes_back_lift_option|]. intros c.
    eapply comes_back_bind; [apply comes_back_lift_option|]. intros i.
    eapply comes_back_bind; [apply (comes_back_modify closed closed); intros ? H; exact H|].
    intros _. eapply comes_back_bind; [apply comes_back_gets|]. intros ss.
    eapply comes_back_bind; [apply comes_back_lift_option|]. intros p.
    eapply comes_back_bind; [apply (comes_back_modify closed closed); intros ? H; exact H|].
    intros _. eapply comes_back_bind; [apply comes_back_gets|]. intros cs'.
    eapply comes_back_bind; [apply comes_back_gets|]. intros ss'.
    eapply comes_back_bind.
    { apply comes_back_for_each. intros jc. repeat back_step.
      apply comes_back_set_val. exact Hg. }
    intros _. eapply comes_back_bind; [apply (comes_back_modify closed any); intros; exact I|].
    intros _. eapply comes_back_bind; [apply (comes_back_modify any any); intros; exact I|].
    intros _. destruct (decide (old = -1)) as [_|_].
    - apply comes_back_reduce. exact Hg.
    - eapply comes_back_bind; [|intros _; apply comes_back_change; exact Hg].
      repeat back_step. apply (comes_back_modify any any); intros; exact I. }
  specialize (H s I).
  match goal with |- match ?c with _ => _ end =>
    match type of H with match ?c' with _ => _ end => change c with c'; destruct c' end end.
  - intros _. exact H.
  - exact I.
  - exact H.
Qed.

Lemma comes_back_pick (fuel : nat) (ev : pick_event) : comes_back any (pick fuel ev) opened.
Proof.
  pose proof (value_updated_is_guarded fuel) as Hg.
  unfold pick. eapply comes_back_bind; [apply comes_back_gets|]. intros c.
  destruct c.
  - eapply comes_back_bind; [apply (comes_back_modify any any); intros; exact I|].
    intros _. eapply comes_back_bind; [apply comes_back_change; exact Hg|].
    intros _. apply comes_back_modify. intros ? H; exact H.
  - eapply comes_back_bind; [apply comes_back_gets|]. intros [p|].
    + destruct (same_artist p (pick_artist ev)).
      * apply comes_back_restore; exact Hg.
      * eapply comes_back_bind; [apply (comes_back_modify any any); intros; exact I|].
        intros _. apply comes_back_change; exact Hg.
    + eapply comes_back_bind; [apply (comes_back_modify any any); intros; exact I|].
      intros _. eapply comes_back_bind; [apply comes_back_update_index|].
      intros _. apply comes_back_reduce; exact Hg.
Qed.

(** ** What the handlers leave alone *)

Lemma alter_slider_frame (h : slider → slider) (j : nat) (ss : list slider) :
  (∀ w, slider_frame (h w) = slider_frame w) →
  slider_frame <$> alter h j ss = slider_frame <$> ss.
Proof.
  intros Hh. apply list_eq. intros i. rewrite !list_lookup_fmap.
  destruct (decide (i = j)) as [->|Hne].
  - rewrite list_lookup_alter_eq. destruct (ss !! j) as [w|]; [|reflexivity].
    simpl. rewrite Hh. reflexivity.
  - rewrite list_lookup_alter_ne by congruence. reflexivity.
Qed.

Lemma keeps_scene_alter (h : slider → slider) (j : nat) :
  (∀ w, slider_frame (h w) = slider_frame w) →
  keeps (unchanged scene) (modify (λ s, set_sliders (alter h j (sliders s)) s)).
Proof.
  intros Hh. apply keeps_modify. intros s. unfold scene. proj_simpl.
  rewrite (alter_slider_frame h j _ Hh). reflexivity.
Qed.

Section Scene.
Local Abbreviation W := (unchanged scene).
Variable on_changed : Q → M unit.
Hypothesis on_changed_keeps : ∀ v, keeps W (on_changed v).
Hint Resolve on_changed_keeps : keeps.

Lemma set_val_scene j v : keeps W (set_val on_changed j v).
Proof.
  unfold set_val. apply keeps_bind; [|intros _; apply on_changed_keeps].
  apply keeps_scene_alter. intros w. reflexivity.
Qed.
Hint Resolve set_val_scene : keeps.

Lemma set_row_alpha_scene d i v : keeps W (set_row_alpha d i v).
Proof. unfold set_row_alpha, set_alpha. keeps_tac. Qed.
Hint Resolve set_row_alpha_scene : keeps.

Lemma push_selection_scene : keeps W (push_selection on_changed).
Proof. unfold push_selection. keeps_tac. Qed.
Hint Resolve push_selection_scene : keeps.

Lemma update_index_display_picked_scene : keeps W update_index_display_picked.
Proof. unfold update_index_display_picked. keeps_tac. Qed.
Hint Resolve update_index_display_picked_scene : keeps.

Lemma reduce_points_intensity_scene : keeps W (reduce_points_intensity on_changed).
Proof. unfold reduce_points_intensity. keeps_tac. Qed.

Lemma restore_points_intensity_scene : keeps W (restore_points_intensity on_changed).
Proof. unfold restore_points_intensity. keeps_tac. Qed.
Hint Resolve restore_points_intensity_scene : keeps.

Lemma change_display_intensity_scene i v : keeps W (change_display_intensity i v).
Proof. unfold change_display_intensity. keeps_tac. Qed.
Hint Resolve change_display_intensity_scene : keeps.

Lemma change_points_intensity_scene old : keeps W (change_points_intensity on_changed old).
Proof. unfold change_points_intensity. keeps_tac. Qed.
End Scene.

Lemma value_updated_scene (fuel : nat) (v : Q) : keeps (unchanged scene) (value_updated fuel v).
Proof.
  revert v. induction fuel as [|fuel IH]; intros v; cbn [value_updated].
  - apply keeps_bind; [apply keeps_gets |]. intros [|]; [apply keeps_ret|].
    intros s s' H. discriminate.
  - pose proof (reduce_points_intensity_scene _ IH).
    pose proof (change_points_intensity_scene _ IH).
    pose proof (set_val_scene _ IH).
    pose proof (λ p, keeps_scene_alter
      (λ x, Slider (s_ax x) (s_label x) (s_valmin x) (s_valmax x) (s_val x)
                   (Literal (pretty (discretize v)))) p (λ w, eq_refl)).
    keeps_tac.
Qed.

Lemma pick_scene (fuel : nat) ev : keeps (unchanged scene) (pick fuel ev).
Proof.
  pose proof (value_updated_scene fuel) as Hv.
  pose proof (reduce_points_intensity_scene _ Hv).
  pose proof (change_points_intensity_scene _ Hv).
  pose proof (restore_points_intensity_scene _ Hv).
  pose proof update_index_display_picked_scene.
  unfold pick. keeps_tac.
Qed.

Lemma sample_artist_in_keeps {F} (f : state → F) event ds :
  keeps (unchanged f) (sample_artist_in event ds).
Proof.
  intros s s' H.
  destruct (sample_artist_in_pure event ds s) as [[r Hr] | [e He]].
  - rewrite Hr in H. injection H as <-. reflexivity.
  - rewrite He in H. injection H as <-. reflexivity.
Qed.

Lemma hover_selection event : keeps (unchanged selection) (hover event).
Proof.
  pose proof (sample_artist_in_keeps selection event).
  unfold hover, _sample_artist_from_event, _update_annotation, tag_set_visible. keeps_tac.
Qed.

Lemma comes_back_hover (event : mouse_event) : comes_back any (hover event) any.
Proof.
  unfold hover, _sample_artist_from_event.
  eapply (comes_back_bind any any).
  { eapply comes_back_bind; [apply comes_back_gets|]. intros ds s _.
    destruct (sample_artist_in_pure event ds s) as [[r ->] | [e ->]]; exact I. }
  intros found. unfold _update_annotation, tag_set_visible.
  repeat back_step; apply (comes_back_modify any any); intros; exact I.
Qed.

(** X17. No handler exhausts the bound on nested slider callbacks. Every
    position that [pick] or [value_updated] pushes to a slider reaches
    the callback with [is_updating] set (lines 397, 413, 451, 528), so
    the nested call returns at line 527: one level of nesting is all
    there is, from every state. *)
Theorem handlers_come_back (fuel : nat) (s : state) :
  (∀ ev, pick fuel ev s ≠ OutOfFuel) ∧
  (∀ value, value_updated (S fuel) value s ≠ OutOfFuel) ∧
  (∀ ev, hover ev s ≠ OutOfFuel).
Proof.
  split; [|split].
  - intros ev H. pose proof (comes_back_pick fuel ev s I) as Hb.
    rewrite H in Hb. exact Hb.
  - intros value H. pose proof (comes_back_value_updated fuel value s) as Hb.
    rewrite H in Hb. exact Hb.
  - intros ev H. pose proof (comes_back_hover ev s I) as Hb.
    rewrite H in Hb. exact Hb.
Qed.

(** X18. A handler that returns leaves the guard open. [pick] does so
    from every state, also one in which an earlier failure has left
    [is_updating] set: every path of [pick] ends in lines 401, 416 or
    455. [value_updated] does so when it was entered with the guard
    open. *)
Theorem returning_handler_opens_guard (fuel : nat) (s s' : state) :
  (∀ ev, pick fuel ev s = Ok tt s' → is_updating s' = false) ∧
  (∀ value, is_updating s = false → value_updated (S fuel) value s = Ok tt s' →
     is_updating s' = false).
Proof.
  split.
  - intros ev H. pose proof (comes_back_pick fuel ev s I) as Hb.
    rewrite H in Hb. exact Hb.
  - intros value Hup H. pose proof (comes_back_value_updated fuel value s) as Hb.
    rewrite H in Hb. exact (Hb Hup).
Qed.

Lemma returning_handler_opens_guard_witness :
  let s0 := init_state scenario_config scenario_display in
  is_updating (set_is_updating true s0) = true ∧
  is_updating (after (pick 0 (PickEvent (scenario_artist 1))) (set_is_updating true s0)) = false ∧
  is_updating (after (value_updated 1 0) (set_widget_index (Some 0) (built scenario_config)))
  = false.
Proof.
  intros s0. split; [reflexivity|]. split.
  - apply (proj1 (returning_handler_opens_guard 0 (set_is_updating true s0)
             (after (pick 0 (PickEvent (scenario_artist 1))) (set_is_updating true s0)))
             (PickEvent (scenario_artist 1))).
    vm_compute. reflexivity.
  - apply (proj2 (returning_handler_opens_guard 0
             (set_widget_index (Some 0) (built scenario_config))
             (after (value_updated 1 0) (set_widget_index (Some 0) (built scenario_config))))
             0%Q).
    + vm_compute. reflexivity.
    + vm_compute. reflexivity.
Defined.

(** X19. [pick] and [value_updated], returning or raising, leave alone
    what construction has set up: the displays, the orders of the
    sliders, the axes, the sizes, and the number, axes, labels and
    ranges of the sliders; nor do they touch [widget_index], the
    annotation or the figure. They change opacities, slider values and
    the selection only. *)
Theorem selection_handlers_keep_scene (fuel : nat) (s s' : state) :
  (∃ ev, state_after (pick fuel ev s) = Some s') ∨
  (∃ value, state_after (value_updated fuel value s) = Some s') →
  scene s' = scene s.
Proof.
  intros [[ev H] | [value H]].
  - exact (pick_scene fuel ev s s' H).
  - exact (value_updated_scene fuel value s s' H).
Qed.

Lemma selection_handlers_keep_scene_witness :
  let s0 := init_state scenario_config scenario_display in
  scene (after (pick 0 (PickEvent (scenario_artist 1))) s0) = scene s0.
Proof.
  intros s0. apply (selection_handlers_keep_scene 0). left.
  exists (PickEvent (scenario_artist 1)). vm_compute. reflexivity.
Defined.

(** X20. [hover], returning or raising, leaves the selection alone: the
    opacities, the clicked artist, [index_clicked], [clicked],
    [is_updating], the sliders and their orders, the displays and the
    axes are as before. It assigns [widget_index] and the annotation,
    and asks for a redraw, only. *)
Theorem hover_keeps_selection (event : mouse_event) (s s' : state) :
  state_after (hover event s) = Some s' → selection s' = selection s.
Proof. exact (hover_selection event s s'). Qed.

Lemma hover_keeps_selection_witness :
  let s0 := init_state scenario_config scenario_display in
  selection (after (hover (MouseEvent (Some 0%nat) (λ _, true))) s0) = selection s0.
Proof.
  intros s0. apply (hover_keeps_selection (MouseEvent (Some 0%nat) (λ _, true))).
  vm_compute. reflexivity.
Defined.

(** ** The slider that was moved *)

Lemma py_getitem_nat {A} (l : list A) (k : nat) x :
  l !! k = Some x → py_getitem l (Z.of_nat k) = Some x.
Proof.
  intros H. unfold py_getitem, py_position. apply lookup_lt_Some in H as Hlt.
  rewrite decide_True by lia. simpl. rewrite Nat2Z.id. exact H.
Qed.

Lemma position_in_NoDup (c : list Z) (k : nat) (i : Z) :
  NoDup c → c !! k = Some i → position_in c i = Z.of_nat k.
Proof.
  intros Hnd Hk. unfold position_in, py_list_index.
  destruct (list_find_elem_of (λ y, y = i) c i) as [[j y] Hj];
    [eapply list_elem_of_lookup_2; exact Hk | reflexivity |].
  rewrite Hj. simpl. apply list_find_Some in Hj as (Hj & -> & _).
  f_equal. exact (NoDup_lookup c j k i Hnd Hj Hk).
Qed.

(** X21. A slider dragged to a raw value comes to rest on the integer
    step that the value addresses. With the guard open and one row of
    artists per sample in every display: when the order of the moved
    slider holds no sample twice, the step holds another sample than
    the selected one, and that sample occurs in the order of every
    slider (of the other sliders too), [value_updated] returns with
    that sample selected and the moved slider at that step, shown by
    the widget's own formatting of the value (the text of line 534 is
    replaced when the selection is pushed to every slider, lines
    398-400 and 452-454), its axes, label and range being as before. *)
Theorem value_updated_snaps (fuel : nat) (s : state) (value : Q) (w k : nat)
    (c : list Z) (i : Z) (x : slider) :
  rows_complete s = true → is_updating s = false →
  widget_index s = Some (Z.of_nat w) →
  criteria s !! w = Some c → sliders s !! w = Some x →
  NoDup c →
  py_position (length c) (discretize value) = Some k → c !! k = Some i →
  in_every_order s i = true → i ≠ index_clicked s →
  ∃ s' x', value_updated (S fuel) value s = Ok tt s' ∧ index_clicked s' = i ∧
    sliders s' !! w = Some x' ∧
    s_val x' = inject_Z (Z.of_nat k) ∧ s_valtext x' = Formatted (inject_Z (Z.of_nat k)) ∧
    slider_frame x' = slider_frame x.
Proof.
  intros Hrows Hup Hw Hc Hx Hnd Hk Hi Hall Hne.
  pose proof (value_updated_is_guarded fuel) as Hg.
  assert (Hgc : py_getitem (criteria s) (Z.of_nat w) = Some c)
    by (apply py_getitem_nat; exact Hc).
  assert (Hgi : py_getitem c (discretize value) = Some i).
  { unfold py_getitem. rewrite Hk. exact Hi. }
  assert (Hp : is_Some (py_position (length (sliders s)) (Z.of_nat w))).
  { unfold py_position. apply lookup_lt_Some in Hx.
    rewrite decide_True by lia. eexists. reflexivity. }
  destruct (value_updated_enter fuel value s _ c i Hup Hw Hgc Hgi Hp Hall) as [ss Hrun].
  assert (Hout : ∃ s', value_updated (S fuel) value s = Ok tt s' ∧ index_clicked s' = i ∧
                       sliders s' = push_all i (criteria s) ss).
  { rewrite Hrun.
    set (mid := set_clicked true (set_is_updating false (set_sliders ss (set_index_clicked i s)))).
    destruct (decide (index_clicked s = -1)) as [Hnone|Hsome].
    - exists (reduced mid).
      split; [apply reduce_points_intensity_exact; [exact Hg | exact Hrows | exact Hall]|].
      split; reflexivity.
    - rewrite bind_bind, bind_gets. cbv beta.
      change (index_clicked mid) with i. rewrite decide_False by exact Hne.
      rewrite bind_ret. exists (changed (index_clicked s) mid).
      split; [apply change_points_intensity_exact; [exact Hg | exact Hrows | exact Hne | exact Hall]|].
      split; reflexivity. }
  destruct Hout as (s' & Hs' & Hic & Hsl).
  pose proof (value_updated_scene (S fuel) value s s') as Hscene.
  rewrite Hs' in Hscene. specialize (Hscene eq_refl).
  assert (Hfr : slider_frame <$> sliders s' = slider_frame <$> sliders s).
  { unfold unchanged, scene in Hscene. congruence. }
  assert (Hx' : ∃ x', sliders s' !! w = Some x' ∧ slider_frame x' = slider_frame x).
  { apply (f_equal (λ l, l !! w)) in Hfr. rewrite !list_lookup_fmap, Hx in Hfr.
    destruct (sliders s' !! w) as [x'|]; [|discriminate].
    exists x'. split; [reflexivity|]. simpl in Hfr. congruence. }
  destruct Hx' as (x' & Hx' & Hframe).
  exists s', x'. split; [exact Hs'|]. split; [exact Hic|]. split; [exact Hx'|].
  destruct (lookup_lt_is_Some_2 ss w) as [x0 Hx0].
  { apply lookup_lt_Some in Hx'. rewrite Hsl, push_all_length in Hx'. exact Hx'. }
  rewrite Hsl, (push_all_lookup i _ _ w c x0 Hc Hx0) in Hx'. injection Hx' as <-.
  rewrite (position_in_NoDup c k i Hnd Hi). simpl.
  split; [reflexivity|]. split; [reflexivity|]. exact Hframe.
Qed.

Lemma value_updated_snaps_witness :
  let s := set_widget_index (Some 0) (built scenario_config) in
  ∃ s' x', value_updated 1 (17 # 10) s = Ok tt s' ∧ index_clicked s' = 0 ∧
    sliders s' !! 0%nat = Some x' ∧
    s_val x' = inject_Z 1 ∧ s_valtext x' = Formatted (inject_Z 1) ∧
    slider_frame x' = slider_frame (Slider 1 "Filter (0)" 0 2 0 (Formatted 0)).
Proof.
  intros s.
  apply (value_updated_snaps 0 s (17 # 10) 0 1 [1; 0; 2] 0
           (Slider 1 "Filter (0)" 0 2 0 (Formatted 0))).
  - vm_compute. reflexivity.
  - vm_compute. reflexivity.
  - vm_compute. reflexivity.
  - vm_compute. reflexivity.
  - vm_compute. reflexivity.
  - repeat constructor; rewrite ?elem_of_cons, ?elem_of_nil; lia.
  - vm_compute. reflexivity.
  - reflexivity.
  - vm_compute. reflexivity.
  - vm_compute. lia.
Defined.

(** X22. What a slider move does to the opacities. With the guard open
    and one row of artists per sample in every display: when the step
    holds another sample than the selected one, that sample is a sample
    of the data that occurs in the order of every slider, and its
    artists are other objects than those of the sample selected before,
    [value_updated] returns with that sample selected and a click
    pending ([clicked] true), the clicked artist being as before. If
    nothing was selected, the artists of every other sample get opacity
    0.1; otherwise the artists of the new sample get 1.0 and those of
    the sample selected before get 0.1. *)
Theorem value_updated_highlights (fuel : nat) (s : state) (value : Q) (w : Z)
    (c : list Z) (i : Z) :
  rows_complete s = true → is_updating s = false → widget_index s = Some w →
  py_getitem (criteria s) w = Some c → py_getitem c (discretize value) = Some i →
  is_Some (py_position (length (sliders s)) w) →
  in_every_order s i = true → i ≠ index_clicked s →
  0 ≤ i < Z.of_nat (length_data s) →
  (0 ≤ index_clicked s < Z.of_nat (length_data s) →
     rows_disjoint s i (index_clicked s) = true) →
  ∃ s', value_updated (S fuel) value s = Ok tt s' ∧
    index_clicked s' = i ∧ clicked s' = true ∧ point_clicked s' = point_clicked s ∧
    (index_clicked s = -1 →
       ∀ i' b, 0 ≤ i' < Z.of_nat (length_data s) → i' ≠ i →
         is_artist_of s i' b = true → alpha_of s' b = Some (1 # 10)%Q) ∧
    (index_clicked s ≠ -1 →
       (∀ b, is_artist_of s i b = true → alpha_of s' b = Some 1%Q) ∧
       (0 ≤ index_clicked s < Z.of_nat (length_data s) →
          ∀ b, is_artist_of s (index_clicked s) b = true →
            alpha_of s' b = Some (1 # 10)%Q)).
Proof.
  intros Hrows Hup Hw Hc Hi Hp Hall Hne Hrange Hdis.
  pose proof (value_updated_is_guarded fuel) as Hg.
  destruct (value_updated_enter fuel value s w c i Hup Hw Hc Hi Hp Hall) as [ss ->].
  set (mid := set_clicked true (set_is_updating false (set_sliders ss (set_index_clicked i s)))).
  destruct (decide (index_clicked s = -1)) as [Hnone|Hsome].
  - exists (reduced mid).
    split; [apply reduce_points_intensity_exact; [exact Hg | exact Hrows | exact Hall]|].
    split; [reflexivity|]. split; [reflexivity|]. split; [reflexivity|]. split.
    + intros _ i' b Hi' Hne' Hb. exact (reduced_dims mid i' b Hi' Hne' Hb).
    + intros Hold. contradiction.
  - rewrite bind_bind, bind_gets. cbv beta.
    change (index_clicked mid) with i. rewrite decide_False by exact Hne.
    rewrite bind_ret. exists (changed (index_clicked s) mid).
    split; [apply change_points_intensity_exact; [exact Hg | exact Hrows | exact Hne | exact Hall]|].
    destruct (changed_facts mid (index_clicked s) Hne Hrange Hdis) as (_ & Hnew & Hold & _).
    split; [reflexivity|]. split; [reflexivity|]. split; [reflexivity|]. split.
    + intros Hold'. contradiction.
    + intros _. split; [exact Hnew | exact Hold].
Qed.

Lemma value_updated_highlights_witness :
  let s := set_widget_index (Some 0) (built scenario_config) in
  ∃ s', value_updated 1 (17 # 10) s = Ok tt s' ∧
    index_clicked s' = 0 ∧ clicked s' = true ∧ point_clicked s' = point_clicked s ∧
    (index_clicked s = -1 →
       ∀ i' b, 0 ≤ i' < Z.of_nat (length_data s) → i' ≠ 0 →
         is_artist_of s i' b = true → alpha_of s' b = Some (1 # 10)%Q) ∧
    (index_clicked s ≠ -1 →
       (∀ b, is_artist_of s 0 b = true → alpha_of s' b = Some 1%Q) ∧
       (0 ≤ index_clicked s < Z.of_nat (length_data s) →
          ∀ b, is_artist_of s (index_clicked s) b = true →
            alpha_of s' b = Some (1 # 10)%Q)).
Proof.
  intros s.
  apply (value_updated_highlights 0 s (17 # 10) 0 [1; 0; 2] 0).
  - vm_compute. reflexivity.
  - vm_compute. reflexivity.
  - vm_compute. reflexivity.
  - vm_compute. reflexivity.
  - vm_compute. reflexivity.
  - vm_compute. eexists. reflexivity.
  - vm_compute. reflexivity.
  - vm_compute. lia.
  - vm_compute. split; [discriminate | reflexivity].
  - vm_compute. intros [H _]. exfalso. apply H. reflexivity.
Defined.

(** ** A pick outside the displays *)

Lemma find_axes_outside (ax : nat) (ds : list display) :
  (∀ d, d ∈ ds → ax ∉ d_axes d) → find_axes ax ds = None.
Proof.
  induction ds as [|d ds IH]; intros Hout; [reflexivity|]. cbn [find_axes].
  rewrite (proj2 (list_find_None _ _)).
  - apply IH. intros d' Hd'. apply Hout. right. exact Hd'.
  - apply Forall_forall. intros x Hx ->. apply (Hout d); [left | exact Hx].
Qed.

Lemma update_index_display_picked_outside (s : state) (a : artist) :
  point_clicked s = Some a →
  (∀ d, d ∈ displays s → art_axes a ∉ d_axes d) →
  update_index_display_picked s = Ok tt s.
Proof.
  intros Hpc Hout. unfold update_index_display_picked. do 2 mstep.
  rewrite Hpc, (find_axes_outside _ _ Hout). reflexivity.
Qed.

Lemma py_list_index_absent (c : list Z) (i : Z) : i ∉ c → py_list_index c i = None.
Proof.
  intros Hi. unfold py_list_index. rewrite (proj2 (list_find_None _ _)); [reflexivity|].
  apply Forall_forall. intros x Hx ->. exact (Hi Hx).
Qed.

(** X23. A pick, from the neutral state, of an artist that lies in no
    axes of the displays: the artist is remembered and no sample is
    selected ([index_clicked] stays -1), so line 392 dims the artists of
    every sample. Without sliders [pick] returns; with a slider, whose
    order does not hold -1, line 399 raises [ValueError] after line 397
    has closed the guard, which stays closed. *)
Theorem pick_outside_displays (fuel : nat) (s : state) (a : artist) :
  neutral s = true → rows_complete s = true →
  (∀ d, d ∈ displays s → art_axes a ∉ d_axes d) →
  ∃ s', (∀ i b, 0 ≤ i < Z.of_nat (length_data s) → is_artist_of s i b = true →
           alpha_of s' b = Some (1 # 10)%Q) ∧
    point_clicked s' = Some a ∧ index_clicked s' = -1 ∧
    (criteria s = [] ∨ sliders s = [] →
       pick fuel (PickEvent a) s = Ok tt s' ∧ is_updating s' = false) ∧
    (∀ c cs x xs, criteria s = c :: cs → sliders s = x :: xs → -1 ∉ c →
       pick fuel (PickEvent a) s = Raise ValueError s' ∧ is_updating s' = true).
Proof.
  intros Hneutral Hrows Hout.
  destruct (neutral_fields s Hneutral) as (Hpc & Hcl & Hic).
  pose proof (value_updated_is_guarded fuel) as Hg.
  set (s1 := set_point_clicked (Some a) s).
  set (s2 := painted (reduce_plan (index_clicked s1)) s1).
  assert (Hrun : pick fuel (PickEvent a) s = push_selection (value_updated fuel) s2).
  { unfold pick. mstep. rewrite Hcl. mstep. rewrite Hpc. mstep.
    change (set_point_clicked (Some (pick_artist (PickEvent a))) s) with s1.
    rewrite (bind_Ok _ _ _ _ _ (update_index_display_picked_outside s1 a eq_refl Hout)).
    apply reduce_points_intensity_paint. exact Hrows. }
  assert (Hdims : ∀ i b, 0 ≤ i < Z.of_nat (length_data s) → is_artist_of s i b = true →
                    alpha_of s2 b = Some (1 # 10)%Q).
  { intros i b Hi Hb. apply (reduced_dims s1 i b Hi); [|exact Hb].
    change (index_clicked s1) with (index_clicked s). lia. }
  destruct (criteria s) as [|c cs] eqn:Hcs; [|destruct (sliders s) as [|x xs] eqn:Hss].
  - exists (set_is_updating false s2).
    split; [exact Hdims|]. split; [reflexivity|]. split; [exact Hic|]. split.
    + intros _. split; [|reflexivity]. rewrite Hrun. unfold push_selection. do 3 mstep.
      change (criteria (set_is_updating true s2)) with (criteria s). rewrite Hcs.
      cbn [zip zip_with for_each]. mstep. reflexivity.
    + intros c cs x xs [=].
  - exists (set_is_updating false s2).
    split; [exact Hdims|]. split; [reflexivity|]. split; [exact Hic|]. split.
    + intros _. split; [|reflexivity]. rewrite Hrun. unfold push_selection. do 3 mstep.
      change (criteria (set_is_updating true s2)) with (criteria s).
      change (sliders (set_is_updating true s2)) with (sliders s). rewrite Hcs, Hss.
      cbn [length seq zip zip_with for_each]. mstep. reflexivity.
    + intros c' cs' x xs _ [=].
  - exists (set_is_updating true s2).
    split; [exact Hdims|]. split; [reflexivity|]. split; [exact Hic|]. split.
    + intros [[=] | [=]].
    + intros c' cs' x' xs' [= <- <-] _ Hnot. split; [|reflexivity].
      rewrite Hrun. unfold push_selection. do 3 mstep.
      change (criteria (set_is_updating true s2)) with (criteria s).
      change (sliders (set_is_updating true s2)) with (sliders s). rewrite Hcs, Hss.
      cbn [length seq zip zip_with for_each]. rewrite !bind_bind, bind_gets. cbv beta.
      change (index_clicked (set_is_updating true s2)) with (index_clicked s).
      rewrite Hic. cbn [fst]. rewrite (py_list_index_absent c (-1) Hnot). reflexivity.
Qed.

Lemma pick_outside_displays_witness :
  let s := built scenario_config in
  let a := Artist 7 5 true (0, 0)%Q in
  ∃ s', (∀ i b, 0 ≤ i < Z.of_nat (length_data s) → is_artist_of s i b = true →
           alpha_of s' b = Some (1 # 10)%Q) ∧
    point_clicked s' = Some a ∧ index_clicked s' = -1 ∧
    (criteria s = [] ∨ sliders s = [] →
       pick 0 (PickEvent a) s = Ok tt s' ∧ is_updating s' = false) ∧
    (∀ c cs x xs, criteria s = c :: cs → sliders s = x :: xs → -1 ∉ c →
       pick 0 (PickEvent a) s = Raise ValueError s' ∧ is_updating s' = true).
Proof.
  intros s a. apply (pick_outside_displays 0 s a).
  - vm_compute. reflexivity.
  - vm_compute. reflexivity.
  - intros d Hd.
    assert (Hds : displays s = [scenario_display]) by (vm_compute; reflexivity).
    rewrite Hds in Hd. apply elem_of_cons in Hd as [-> | Hd];
      [|apply elem_of_nil in Hd; contradiction].
    cbn. rewrite elem_of_cons, elem_of_nil. lia.
Defined.

(** ** Construction without a display *)

(** X24. [MultipleDisplay] given an empty sequence of displays raises
    [IndexError] at [self.displays[0]] (line 70): this comes before the
    numbers of criteria and of widget classes are compared and before
    any figure is made, whatever the other arguments are. *)
Theorem construct_requires_display (cfg : config) :
  cfg_displays cfg = [] → construct cfg = Raise IndexError blank.
Proof.
  intros H. unfold construct, __init__. do 3 mstep. rewrite H.
  rewrite (bind_lift_None _ _) by reflexivity. reflexivity.
Qed.

Lemma construct_requires_display_witness :
  construct (Config [] (Criteria [[1; 2]]) (Widgets []) NoLabel (Some [0%nat]))
  = Raise IndexError blank.
Proof. apply construct_requires_display. reflexivity. Defined.
